(** * rollup-plugin-html: a shallow embedding of [src/rollup-plugin-html.js]

    The plugin has two passes over a parse5 document tree.  The extraction
    pass (the [options] hook, with its inner [traverse]) rewrites the tree
    and collects the JavaScript entry points; the rewrite pass (the
    [generateBundle] hook) replaces placeholders by references to the
    emitted chunks and emits the HTML assets.

    Conventions of the embedding.
    - A JavaScript string is the list of its UTF-16 code units ([list N]).
      String literals of the source are written [lit "..."].
    - A parse5 node is a record with the fields the plugin reads or writes.
      A field that is absent on a JavaScript node ([undefined]) is the empty
      list or the empty string here; every test the source performs on such
      a field ([if (node.childNodes)], [node.attrs?.find], [x.value || ''],
      [node.value?.startsWith]) answers the same on the absent field and on
      the empty one.
    - [parentNode] is not a field: a parse5 document is a tree in which every
      node object occurs once, so "the parent of the node being visited" is
      passed down by the traversal, and the identity test
      [parent.childNodes[i] === node] is the test "the node is the i-th
      child".
    - Collaborators that are not part of the repository (node:path, node:fs,
      parse5, lightningcss, terser, node:crypto, Date.now, the plugin
      context of the bundler) are the fields of the class [Host]. *)

From Stdlib Require Import List NArith Ascii String Lia Bool Arith.
From stdpp Require Import base list.

Set Warnings "-register-all".

Local Open Scope N_scope.
Local Open Scope nat_scope.
Local Open Scope list_scope.

(** ** JavaScript strings *)

Abbreviation jstr := (list N).

Definition lit (s : string) : jstr :=
  List.map N_of_ascii (list_ascii_of_string s).

(** [a === b] on strings. *)
Fixpoint eqs (a b : jstr) : bool :=
  match a, b with
  | [], [] => true
  | x :: a', y :: b' => N.eqb x y && eqs a' b'
  | _, _ => false
  end.

(** [s.startsWith(p)] *)
Fixpoint startsWith (p s : jstr) : bool :=
  match p, s with
  | [], _ => true
  | x :: p', y :: s' => N.eqb x y && startsWith p' s'
  | _ :: _, [] => false
  end.

(** [s.includes(sub)] *)
Fixpoint includes (sub s : jstr) : bool :=
  startsWith sub s ||
  match s with
  | [] => false
  | _ :: s' => includes sub s'
  end.

(** [s.split(c)] for a one-character separator [c]. *)
Fixpoint split_on (c : N) (s : jstr) : list jstr :=
  match s with
  | [] => [[]]
  | x :: s' =>
      if N.eqb x c then [] :: split_on c s'
      else match split_on c s' with
           | [] => [[x]]
           | w :: ws => (x :: w) :: ws
           end
  end.

(** [parts.join(sep)] *)
Fixpoint join (sep : jstr) (parts : list jstr) : jstr :=
  match parts with
  | [] => []
  | [w] => w
  | w :: ws => w ++ sep ++ join sep ws
  end.

(** The class [\s] of a JavaScript regular expression, which is also the
    set of characters removed by [trim], [trimStart] and [trimEnd]
    (WhiteSpace and LineTerminator of ECMAScript). *)
Definition is_space (c : N) : bool :=
  ((9 <=? c) && (c <=? 13))%N        (* TAB LF VT FF CR *)
  || N.eqb c 32 || N.eqb c 160       (* SP, NBSP *)
  || N.eqb c 5760                    (* U+1680 *)
  || ((8192 <=? c) && (c <=? 8202))%N (* U+2000 .. U+200A *)
  || N.eqb c 8232 || N.eqb c 8233    (* U+2028, U+2029 *)
  || N.eqb c 8239 || N.eqb c 8287    (* U+202F, U+205F *)
  || N.eqb c 12288 || N.eqb c 65279. (* U+3000, U+FEFF *)

Definition SP : N := 32%N.

(** [s.replace(/\s+/g, ' ')]: the flag says whether the previous character
    belonged to a run of white space that has already produced its space. *)
Fixpoint collapse_from (in_run : bool) (s : jstr) : jstr :=
  match s with
  | [] => []
  | c :: s' =>
      if is_space c
      then (if in_run then collapse_from true s' else SP :: collapse_from true s')
      else c :: collapse_from false s'
  end.

Definition collapse_ws (s : jstr) : jstr := collapse_from false s.

Fixpoint trimStart (s : jstr) : jstr :=
  match s with
  | [] => []
  | c :: s' => if is_space c then trimStart s' else s
  end.

Definition trimEnd (s : jstr) : jstr := rev (trimStart (rev s)).

Definition trim (s : jstr) : jstr := trimEnd (trimStart s).

Definition is_empty_list {A : Type} (l : list A) : bool :=
  match l with [] => true | _ => false end.

(** [!s] for a string: the empty string is the only falsy one. *)
Definition is_empty (s : jstr) : bool :=
  match s with [] => true | _ => false end.

(** Decimal rendering of a number inside a template literal.  The fuel is
    the number of binary digits, which is enough. *)
Definition digit (d : N) : N := (48 + d)%N.

Fixpoint dec_fuel (fuel : nat) (n : N) (acc : jstr) : jstr :=
  match fuel with
  | O => acc
  | S fuel' =>
      let acc' := digit (n mod 10) :: acc in
      if (n <? 10)%N then acc' else dec_fuel fuel' (n / 10) acc'
  end.

Definition dec (n : N) : jstr := dec_fuel (S (N.size_nat n)) n [].

(** The longest prefix of [s] whose characters satisfy [f], and the rest. *)
Fixpoint span (f : N -> bool) (s : jstr) : jstr * jstr :=
  match s with
  | [] => ([], [])
  | c :: s' =>
      if f c then let '(a, b) := span f s' in (c :: a, b) else ([], s)
  end.

(** [s.split(sep)] for a non-empty separator string; [skip] counts the
    characters of a separator just found that are still to be passed. *)
Fixpoint split_by_from (sep : jstr) (skip : nat) (s : jstr) : list jstr :=
  match s with
  | [] => [[]]
  | c :: s' =>
      match skip with
      | S k => split_by_from sep k s'
      | O =>
          if startsWith sep s then [] :: split_by_from sep (length sep - 1) s'
          else match split_by_from sep 0 s' with
               | [] => [[c]]
               | w :: ws => (c :: w) :: ws
               end
      end
  end.

Definition split_by (sep s : jstr) : list jstr := split_by_from sep 0 s.

(** Character classes of the regular expressions of the source. *)
Definition is_digit (c : N) : bool := ((48 <=? c) && (c <=? 57))%N.

Definition is_alnum (c : N) : bool :=
  is_digit c || ((65 <=? c) && (c <=? 90))%N || ((97 <=? c) && (c <=? 122))%N.

(** [[a-zA-Z0-9_.-]] *)
Definition is_keychar (c : N) : bool :=
  is_alnum c || N.eqb c 95 || N.eqb c 46 || N.eqb c 45.

(** ** The document tree *)

Record attr := Attr { attr_name : jstr; attr_value : jstr }.

Inductive node : Type :=
  Node {
    nodeName : jstr;
    tagName : jstr;
    attrs : list attr;
    namespaceURI : jstr;
    value : jstr;                (* payload of [#text] and [#comment] *)
    childNodes : list node;
    content : list node          (* [node.content.childNodes] of a template *)
  }.

Definition text_node (v : jstr) : node :=
  Node (lit "#text") [] [] [] v [] [].

Definition comment_node (v : jstr) : node :=
  Node (lit "#comment") [] [] [] v [] [].

Definition XHTML : jstr := lit "http://www.w3.org/1999/xhtml".

Definition element (name : jstr) (ats : list attr) (kids : list node) : node :=
  Node name name ats XHTML [] kids [].

Definition document (kids : list node) : node :=
  Node (lit "#document") [] [] [] [] kids [].

(** [node.attrs?.find(a => a.name === name)?.value] *)
Fixpoint attr_find (name : jstr) (ats : list attr) : option jstr :=
  match ats with
  | [] => None
  | a :: ats' => if eqs (attr_name a) name then Some (attr_value a)
                 else attr_find name ats'
  end.

(** Truthiness of such a lookup: a non-empty string. *)
Definition truthy_str (o : option jstr) : bool :=
  match o with
  | Some (_ :: _) => true
  | _ => false
  end.

(** [x === 'module'] for a lookup result. *)
Definition is_str (s : jstr) (o : option jstr) : bool :=
  match o with
  | Some v => eqs v s
  | None => false
  end.

(** String conversion of a lookup result inside a template literal. *)
Definition to_template (o : option jstr) : jstr :=
  match o with
  | Some v => v
  | None => lit "undefined"
  end.

(** [getTextContent] *)
Definition getTextContent (n : node) : jstr :=
  match childNodes n with
  | c :: _ => if eqs (nodeName c) (lit "#text") then value c else []
  | [] => []
  end.

Definition set_value (v : jstr) (n : node) : node :=
  Node (nodeName n) (tagName n) (attrs n) (namespaceURI n) v
       (childNodes n) (content n).

Definition set_childNodes (kids : list node) (n : node) : node :=
  Node (nodeName n) (tagName n) (attrs n) (namespaceURI n) (value n)
       kids (content n).

(** [setTextContent] *)
Definition setTextContent (n : node) (text : jstr) : node :=
  match childNodes n with
  | c :: rest =>
      if eqs (nodeName c) (lit "#text")
      then set_childNodes (set_value text c :: rest) n
      else set_childNodes (text_node text :: c :: rest) n
  | [] => set_childNodes [text_node text] n
  end.

(** [findNodes]: the matching nodes in depth-first pre-order, the content of
    a template after its children. *)
Fixpoint findNodes (predicate : node -> bool) (n : node) : list node :=
  match n with
  | Node name _ _ _ _ kids tmpl =>
      (if predicate n then [n] else [])
      ++ flat_map (findNodes predicate) kids
      ++ (if eqs name (lit "template")
          then flat_map (findNodes predicate) tmpl else [])
  end.

(** ** Constants *)

Definition NUL : N := 0%N.

Definition NOOP_IMPORT_ID : jstr :=
  NUL :: lit "oy3o-rollup-plugin-htmlplugin:noop".

Definition INLINE_MODULE_PREFIX : jstr :=
  NUL :: lit "oy3o-rollup-plugin-html-inline:".

Definition PLACEHOLDER_PREFIX : jstr := lit "__HTML_MODULE_PLACEHOLDER_".

Definition DQ : jstr := [34%N].   (* the double quote *)

Definition LOG_TAG : jstr := lit "[@oy3o/rollup-plugin-html] ".

(** ** Plugin options and configuration *)

(** The JavaScript values an option can hold, as far as the tests of the
    source distinguish them. *)
Inductive jsval :=
| JUndefined
| JNull
| JBool (b : bool)
| JNum (n : N)
| JStr (s : jstr)
| JObject.

Definition truthy (v : jsval) : bool :=
  match v with
  | JUndefined | JNull => false
  | JBool b => b
  | JNum n => negb (N.eqb n 0)
  | JStr s => negb (is_empty s)
  | JObject => true
  end.

(** [v === true] *)
Definition is_true (v : jsval) : bool :=
  match v with JBool true => true | _ => false end.

(** [v !== false] *)
Definition is_not_false (v : jsval) : bool :=
  match v with JBool false => false | _ => true end.

(** The options object given to the plugin factory.  An omitted property
    reads as [JUndefined].  [lightningcss_minify] and [terser_compress] are
    the properties [minify] and [compress] of the two option bags, [None]
    when the bag or the property is not given (the default then stays). *)
Record plugin_options := {
  opt_preserveStructure : jsval;
  opt_removeComments : jsval;
  opt_compressWhitespace : jsval;
  opt_lightningcss_minify : option jsval;
  opt_terser_compress : option jsval
}.

Definition no_options : plugin_options :=
  {| opt_preserveStructure := JUndefined;
     opt_removeComments := JUndefined;
     opt_compressWhitespace := JUndefined;
     opt_lightningcss_minify := None;
     opt_terser_compress := None |}.

Record config := {
  preserveStructure : bool;
  removeComments : bool;
  compressWhitespace : bool;      (* truthiness of the stored value *)
  lightningcss_minify : jsval;    (* [config.lightningcss.minify] *)
  terser_compress : jsval         (* [config.terser.compress] *)
}.

(** The [config] object built by [RollupPlugin(options)]. *)
Definition make_config (o : plugin_options) : config :=
  {| preserveStructure := is_true (opt_preserveStructure o);
     removeComments := is_not_false (opt_removeComments o);
     compressWhitespace := truthy (opt_compressWhitespace o);
     lightningcss_minify := default (JBool true) (opt_lightningcss_minify o);
     terser_compress := default (JBool true) (opt_terser_compress o) |}.

(** ** Collaborators *)

(** A call that returns or raises; a raised value is kept as the string its
    conversion inside a template literal gives. *)
Inductive outcome (A : Type) :=
| Returned (a : A)
| Thrown (e : jstr).
Arguments Returned {A} a.
Arguments Thrown {A} e.

Class Host := {
  (* node:path and process.cwd *)
  path_resolve : list jstr -> jstr;
  path_dirname : jstr -> jstr;
  path_basename : jstr -> jstr;
  path_relative : jstr -> jstr -> jstr;
  path_isAbsolute : jstr -> bool;
  path_sep : N;
  process_cwd : jstr;
  (* createFilter(options.include || '**/*.html', options.exclude) *)
  filter : jstr -> bool;
  (* parse(fs.readFileSync(absolutePath, 'utf-8'), ...) *)
  read_and_parse : jstr -> outcome node;
  (* lightningTransform({ filename, code, ...config.lightningcss }).code *)
  lightningTransform : jstr -> jstr -> outcome jstr;
  (* (await terserMinify(code, config.terser)).code; None is undefined *)
  terserMinify : jstr -> outcome (option jstr);
  (* crypto.createHash('sha256').update(entry).digest('base64url') *)
  sha256_base64url : jstr -> jstr;
  (* Date.now() at its k-th call of the build *)
  date_now : nat -> N;
  (* parse5 serialize *)
  serialize : node -> jstr;
  (* whether this.error raises, as the bundler's does; the source also
     writes the code that follows a call that returns *)
  error_raises : bool
}.

(** What the plugin says and emits, in the order it happens. *)
Inductive event :=
| ConsoleWarn (m : jstr)
| ConsoleError (m : jstr)
| CtxWarn (m : jstr)          (* this.warn *)
| CtxError (m : jstr)         (* this.error *)
| EmitFile (fileName source : jstr).

(** ** The extraction pass *)

Record inline_module := {
  virtualId : jstr;
  code : jstr;
  placeholder : jstr     (* the property [value] of the source *)
}.

(** What [traverse] reads and writes outside the tree: the set [rollupHtml]
    of the build (a JavaScript Set, here the list of its elements in
    insertion order), the array [inlineModules] of the document, and the
    console. *)
Record xstate := {
  rollupHtml : list jstr;
  inlineModules : list inline_module;
  xlog : list event
}.

Definition set_has (x : jstr) (l : list jstr) : bool := existsb (eqs x) l.

Definition set_add (x : jstr) (l : list jstr) : list jstr :=
  if set_has x l then l else l ++ [x].

Definition say (e : event) (st : xstate) : xstate :=
  {| rollupHtml := rollupHtml st;
     inlineModules := inlineModules st;
     xlog := xlog st ++ [e] |}.

Inductive res (A : Type) :=
| Throw (e : jstr) (st : xstate)
| Ret (a : A) (st : xstate).
Arguments Throw {A} e st.
Arguments Ret {A} a st.

(** The parent of the node being visited, as far as [traverse] looks at it:
    its name, the length of its [childNodes] and the position of the node
    in them. *)
Record pctx := { p_nodeName : jstr; p_length : nat; p_index : nat }.

(** The TypeError of reading a property of [undefined]. *)
Definition TYPE_ERROR_INCLUDES : jstr :=
  lit "TypeError: Cannot read properties of undefined (reading 'includes')".

Definition VERBATIM : list jstr :=
  [lit "pre"; lit "textarea"; lit "script"; lit "style"].

(** The new value of a text node under whitespace compression; [None] when
    the node is removed. *)
Definition compress_text (p : option pctx) (v : jstr) : option jstr :=
  match p with
  | Some p =>
      if negb (existsb (eqs (p_nodeName p)) VERBATIM) then
        let compressed := collapse_ws v in
        let compressed :=
          if 1 <? p_length p then
            let c1 := if p_index p =? 0
                      then trimStart compressed else compressed in
            if p_index p =? p_length p - 1 then trimEnd c1 else c1
          else trim compressed in
        if is_empty compressed then None else Some compressed
      else Some v
  | None => Some v
  end.

Definition virtual_id (src : option jstr) (index : nat) : jstr :=
  INLINE_MODULE_PREFIX ++ to_template src ++ lit "?index=" ++ dec (N.of_nat index).

Definition placeholder_of (vid : jstr) : jstr :=
  PLACEHOLDER_PREFIX ++ vid ++ lit "__".

Section Children.
Variable visit : option pctx -> option jstr -> node -> xstate -> res (option node).
Variable pname : jstr.
Variable len : nat.

(** [kids.map(child => traverse(child)).filter(Boolean)], the children
    visited from left to right; [ov] is a value already written into the
    first of them. *)
Fixpoint visit_children (i : nat) (ov : option jstr) (kids : list node)
         (st : xstate) : res (list node) :=
  match kids with
  | [] => Ret [] st
  | c :: kids' =>
      match visit (Some {| p_nodeName := pname; p_length := len; p_index := i |})
                  ov c st with
      | Throw e st1 => Throw e st1
      | Ret r st1 =>
          match visit_children (S i) None kids' st1 with
          | Throw e st2 => Throw e st2
          | Ret rs st2 =>
              Ret (match r with Some c' => c' :: rs | None => rs end) st2
          end
      end
  end.
End Children.

Section Extraction.
Context `{Host}.
Variable cfg : config.
Variable absolutePath : jstr.  (* of the document *)
Variable doc_src : jstr.       (* the input value of the document *)

(** The branch of a script node; it returns, or raises, without visiting
    the children. *)
Definition script_step (n : node) (st : xstate) : res (option node) :=
  let type := attr_find (lit "type") (attrs n) in
  let src := attr_find (lit "src") (attrs n) in
  let isModule := is_str (lit "module") type in
  (* [src && !src.value.includes('://')]: [src] is already the string of
     the attribute, [src.value] is undefined and [.includes] raises *)
  if truthy_str src then Throw TYPE_ERROR_INCLUDES st
  else
    let code := getTextContent n in
    if negb (truthy_str src) && is_empty (trim code) then Ret None st
    else if isModule && negb (truthy_str src) then
      let vid := virtual_id src (length (inlineModules st)) in
      let value := placeholder_of vid in
      Ret (Some (comment_node value))
          {| rollupHtml := set_add vid (rollupHtml st);
             inlineModules := inlineModules st
               ++ [{| virtualId := vid; code := code; placeholder := value |}];
             xlog := xlog st |}
    else Ret (Some n) st.

Inductive style_result :=
| StyleRemoved
| StyleKept (text : option jstr) (st : xstate).

(** The branch of a style node: the node is removed, or it stays with
    [text] written into its first child when the transform returned. *)
Definition style_step (n : node) (st : xstate) : style_result :=
  let css := getTextContent n in
  if is_empty css then StyleRemoved
  else match lightningTransform absolutePath css with
       | Returned out => StyleKept (Some out) st
       | Thrown e =>
           StyleKept None
             (say (ConsoleError (LOG_TAG ++ lit "LightningCSS error in inline style ("
                                 ++ doc_src ++ lit "): " ++ e)) st)
       end.

(** [traverse], on the node [n] whose [value] has been overwritten by [ov]
    when [ov] is given. *)
Fixpoint traverse_ov (p : option pctx) (ov : option jstr) (n : node)
         (st : xstate) {struct n} : res (option node) :=
  match n with
  | Node name tag ats ns val0 kids tmpl =>
      let val := default val0 ov in
      let self := Node name tag ats ns val kids tmpl in
      if eqs name (lit "#comment") then
        Ret (if removeComments cfg then None else Some self) st
      else
        match (if eqs name (lit "style") && is_not_false (lightningcss_minify cfg)
               then style_step self st else StyleKept None st) with
        | StyleRemoved => Ret None st
        | StyleKept text st1 =>
            if eqs name (lit "script") then script_step self st1
            else
              match (if eqs name (lit "#text") && compressWhitespace cfg
                     then compress_text p val else Some val) with
              | None => Ret None st1
              | Some val' =>
                  match visit_children traverse_ov name (length kids) 0 text kids st1 with
                  | Throw e st2 => Throw e st2
                  | Ret kids' st2 =>
                      if eqs name (lit "template") then
                        match visit_children traverse_ov (lit "#document-fragment")
                                             (length tmpl) 0 None tmpl st2 with
                        | Throw e st3 => Throw e st3
                        | Ret tmpl' st3 =>
                            Ret (Some (Node name tag ats ns val' kids' tmpl')) st3
                        end
                      else Ret (Some (Node name tag ats ns val' kids' tmpl)) st2
                  end
              end
        end
  end.

Definition traverse (p : option pctx) (n : node) (st : xstate) : res (option node) :=
  traverse_ov p None n st.

End Extraction.

(** ** Objects and maps with string keys

    A JavaScript object used as a dictionary, and a Map, are association
    lists in the order in which [Object.entries] and the iteration of the Map
    list them.  Writing to a key that is present replaces its value in
    place; writing to a new key appends.  (Keys that name a member of
    [Object.prototype] are not considered.) *)

Fixpoint obj_set {V : Type} (k : jstr) (v : V) (o : list (jstr * V)) : list (jstr * V) :=
  match o with
  | [] => [(k, v)]
  | (k', v') :: o' =>
      if eqs k' k then (k', v) :: o' else (k', v') :: obj_set k v o'
  end.

Definition obj_has {V : Type} (k : jstr) (o : list (jstr * V)) : bool :=
  existsb (fun kv => eqs (fst kv) k) o.

Fixpoint obj_get {V : Type} (k : jstr) (o : list (jstr * V)) : option V :=
  match o with
  | [] => None
  | (k', v') :: o' => if eqs k' k then Some v' else obj_get k o'
  end.

(** [{ ...o }] *)
Definition obj_spread {V : Type} (o : list (jstr * V)) : list (jstr * V) :=
  fold_left (fun acc kv => obj_set (fst kv) (snd kv) acc) o [].

(** ** The [options] hook *)

(** [rollupOptions.input] *)
Inductive rollup_input :=
| InString (s : jstr)
| InArray (l : list jsval)
| InObject (o : list (jstr * jsval))
| InOther (v : jsval).     (* undefined, null, a boolean or a number *)

Definition typeof (v : jsval) : jstr :=
  match v with
  | JUndefined => lit "undefined"
  | JNull | JObject => lit "object"
  | JBool _ => lit "boolean"
  | JNum _ => lit "number"
  | JStr _ => lit "string"
  end.

Record doc_record := {
  d_src : jstr;
  d_dest : jstr;
  d_ast : node;
  d_inlineModules : list inline_module
}.

(** The variables [htmlData] and [isWithDest] of the plugin instance. *)
Record plugin_state := {
  htmlData : list (jstr * doc_record);
  isWithDest : bool
}.

Inductive hook_result :=
| HookRaised (e : jstr)                    (* the hook raised *)
| HookNull                                 (* [return null] *)
| HookSame                                 (* [return rollupOptions] *)
| HookInput (input : list (jstr * jsval)). (* [{ ...rollupOptions, input }] *)

(** Step 1: the input as an object, and whether it was one. *)
Definition normalize_input (input : rollup_input)
  : list (jstr * jsval) * bool * list event :=
  match input with
  | InString s => ([(s, JStr s)], false, [])
  | InArray l =>
      (fold_left (fun acc entry =>
                    match entry with
                    | JStr e => obj_set e (JStr e) acc
                    | _ => acc
                    end) l [], false, [])
  | InObject o => (obj_spread o, true, [])
  | InOther v =>
      if truthy v
      then ([], false,
            [ConsoleWarn (LOG_TAG ++ lit "Unsupported input type: " ++ typeof v
                          ++ lit ". Ignored.")])
      else ([], false, [])
  end.

Section Options.
Context `{Host}.
Variable cfg : config.

(** Step 2: the entries whose value is a string accepted by the filter
    ([Html]), and the others ([nonHtml]). *)
Definition split_html (entries : list (jstr * jsval))
  : list (jstr * jstr) * list (jstr * jsval) :=
  fold_left
    (fun (acc : list (jstr * jstr) * list (jstr * jsval)) (e : jstr * jsval) =>
       match snd e with
       | JStr s => if filter s then (fst acc ++ [(fst e, s)], snd acc)
                   else (fst acc, obj_set (fst e) (snd e) (snd acc))
       | _ => (fst acc, obj_set (fst e) (snd e) (snd acc))
       end)
    entries ([], []).

(** What the loop over the HTML entries carries. *)
Record ostate := {
  o_htmlData : list (jstr * doc_record);
  o_rollupHtml : list jstr;
  o_processed : list jstr;
  o_log : list event
}.

Inductive step_result :=
| Raised (e : jstr) (st : ostate)
| Went (st : ostate).

(** The body of [Html.forEach]. *)
Definition process_html (dest src : jstr) (st : ostate) : step_result :=
  let absolutePath := path_resolve [src] in
  if set_has absolutePath (o_processed st) then
    Went {| o_htmlData := o_htmlData st;
            o_rollupHtml := o_rollupHtml st;
            o_processed := o_processed st;
            o_log := o_log st ++
              [ConsoleWarn (LOG_TAG ++ lit "HTML file resolved to the same path ("
                 ++ absolutePath ++ lit ") processed multiple times (Input key: "
                 ++ DQ ++ dest ++ DQ ++ lit ", value: "
                 ++ DQ ++ src ++ DQ ++ lit "). Skipping duplicate.")] |}
  else
    let processed := set_add absolutePath (o_processed st) in
    let caught (e : jstr) (rollup : list jstr) (log : list event) :=
      (* [this.error] inside the [catch] *)
      let st' := {| o_htmlData := o_htmlData st;
                    o_rollupHtml := rollup;
                    o_processed := processed;
                    o_log := log ++ [CtxError (lit "Error processing HTML file "
                                               ++ src ++ lit ": " ++ e)] |} in
      if error_raises
      then Raised (lit "Error processing HTML file " ++ src ++ lit ": " ++ e) st'
      else Went st' in
    match read_and_parse absolutePath with
    | Thrown e => caught e (o_rollupHtml st) (o_log st)
    | Returned ast =>
        match traverse cfg absolutePath src None ast
                {| rollupHtml := o_rollupHtml st;
                   inlineModules := [];
                   xlog := o_log st |} with
        | Throw e xs => caught e (rollupHtml xs) (xlog xs)
        | Ret traversed xs =>
            match traversed with
            | Some t =>
                if is_empty_list (childNodes t) then
                  Went {| o_htmlData := o_htmlData st;
                          o_rollupHtml := rollupHtml xs;
                          o_processed := processed;
                          o_log := xlog xs ++
                            [ConsoleWarn (LOG_TAG
                               ++ lit "Document became empty after processing "
                               ++ src ++ lit ".")] |}
                else
                  Went {| o_htmlData :=
                            obj_set absolutePath
                              {| d_src := src; d_dest := dest; d_ast := t;
                                 d_inlineModules := inlineModules xs |}
                              (o_htmlData st);
                          o_rollupHtml := rollupHtml xs;
                          o_processed := processed;
                          o_log := xlog xs |}
            | None =>
                Went {| o_htmlData := o_htmlData st;
                        o_rollupHtml := rollupHtml xs;
                        o_processed := processed;
                        o_log := xlog xs ++
                          [ConsoleWarn (LOG_TAG
                             ++ lit "Document became empty after processing "
                             ++ src ++ lit ".")] |}
            end
        end
    end.

(** [Html.forEach(...)]; a raise ends the loop and the hook. *)
Fixpoint process_all (html : list (jstr * jstr)) (st : ostate) : step_result :=
  match html with
  | [] => Went st
  | (dest, src) :: rest =>
      match process_html dest src st with
      | Raised e st' => Raised e st'
      | Went st' => process_all rest st'
      end
  end.

(** Step 4: the key under which an entry is given to the bundler. *)
Definition entry_hash (entry : jstr) : jstr :=
  take 20 (List.filter is_alnum (sha256_base64url entry)).

Definition sanitize (s : jstr) : jstr :=
  List.map (fun c => if is_keychar c then c else 95%N) s.

Definition entry_keyBase (entry : jstr) : jstr :=
  sanitize
    (path_basename
       (if startsWith INLINE_MODULE_PREFIX entry
        then hd [] (split_on 63%N (nth 1 (split_on 58%N entry) []))
        else entry)).

Definition entry_key (entry : jstr) : jstr :=
  entry_keyBase entry ++ lit "_" ++ entry_hash entry.

(** The body of [rollupHtml.forEach]; [clock] counts the calls of
    [Date.now]. *)
Definition add_entry (entry : jstr)
           (acc : list (jstr * jsval) * nat * list event)
  : list (jstr * jsval) * nat * list event :=
  let '(rollups, clock, log) := acc in
  let key := entry_key entry in
  if obj_has key rollups then
    (obj_set (key ++ lit "_" ++ dec (date_now clock)) (JStr entry) rollups,
     S clock,
     log ++ [ConsoleWarn (LOG_TAG ++ lit "Input key collision: " ++ DQ ++ key
                          ++ DQ ++ lit ". Using fallback.")])
  else (obj_set key (JStr entry) rollups, clock, log).

Definition build_rollups (nonHtml : list (jstr * jsval)) (entries : list jstr)
           (log : list event) : list (jstr * jsval) * nat * list event :=
  fold_left (fun acc entry => add_entry entry acc) entries
            (obj_spread nonHtml, 0, log).

(** Step 5: the entry that is added when there is no other. *)
Definition add_noop (Html : list (jstr * jstr))
           (rollups : list (jstr * jsval)) (log : list event)
  : list (jstr * jsval) * list event :=
  if is_empty_list rollups && negb (is_empty_list Html)
  then (obj_set (lit "_html_noop_entry") (JStr NOOP_IMPORT_ID) rollups,
        log ++ [ConsoleWarn (LOG_TAG ++
           lit "No JS modules found in HTML and no other inputs. Adding NOOP entry.")])
  else (rollups, log).

Definition return_input (rollups : list (jstr * jsval)) (log : list event)
  : hook_result * list event :=
  if is_empty_list rollups
  then (HookInput [],
        log ++ [ConsoleWarn (LOG_TAG ++ lit "No valid inputs after processing.")])
  else (HookInput rollups, log).

(** The hook.  It returns what the bundler receives, the new values of
    [htmlData] and [isWithDest], and what was said. *)
Definition options (input : rollup_input)
  : hook_result * plugin_state * list event :=
  let '(normalizedInput, withDest, log0) := normalize_input input in
  let '(Html, nonHtml) := split_html normalizedInput in
  if is_empty_list Html then
    (if is_empty_list nonHtml then HookNull else HookSame,
     {| htmlData := []; isWithDest := withDest |}, log0)
  else
    match process_all Html {| o_htmlData := []; o_rollupHtml := [];
                              o_processed := []; o_log := log0 |} with
    | Raised e st =>
        (HookRaised e,
         {| htmlData := o_htmlData st; isWithDest := withDest |}, o_log st)
    | Went st =>
        let '(rollups, _, log1) :=
          build_rollups nonHtml (o_rollupHtml st) (o_log st) in
        let '(rollups', log2) := add_noop Html rollups log1 in
        let '(result, log3) := return_input rollups' log2 in
        (result, {| htmlData := o_htmlData st; isWithDest := withDest |}, log3)
    end.

(** ** The [resolveId] and [load] hooks *)

Definition resolveId (id : jstr) : option jstr :=
  if eqs id NOOP_IMPORT_ID || startsWith INLINE_MODULE_PREFIX id
  then Some id else None.

Inductive load_result :=
| Loaded (code : jstr)
| LoadNull
| LoadError (m : jstr).    (* this.error *)

(** [data.inlineModules.find(m => m.virtualId === id)] over the documents
    in the order of the map. *)
Fixpoint find_module (id : jstr) (docs : list (jstr * doc_record))
  : option inline_module :=
  match docs with
  | [] => None
  | (_, data) :: rest =>
      match List.find (fun m => eqs (virtualId m) id) (d_inlineModules data) with
      | Some m => Some m
      | None => find_module id rest
      end
  end.

Definition load (ps : plugin_state) (id : jstr) : load_result :=
  if eqs id NOOP_IMPORT_ID then Loaded (lit "/* Rollup Plugin HTML: NOOP */")
  else if startsWith INLINE_MODULE_PREFIX id then
    match find_module id (htmlData ps) with
    | Some m => Loaded (code m)
    | None => LoadError (lit "Internal error: Could not load virtual module " ++ id)
    end
  else LoadNull.

End Options.

(** ** The [generateBundle] hook *)

Record output_options := { out_dir : option jstr; out_file : option jstr }.

(** A value of the bundle, as far as the hook reads it: [modules] holds the
    keys of the object [c.modules]. *)
Record bundle_item := {
  b_type : jstr;
  b_fileName : jstr;
  b_facadeModuleId : option jstr;
  b_modules : option (list jstr)
}.

(** The nodes searched by the first [findNodes] of the hook: inline scripts
    that are not modules. *)
Definition is_inline_script (n : node) : bool :=
  eqs (nodeName n) (lit "script")
  && negb (truthy_str (attr_find (lit "src") (attrs n)))
  && negb (is_str (lit "module") (attr_find (lit "type") (attrs n))).

(** The nodes searched by the second: placeholders and local module
    scripts. *)
Definition is_reference (n : node) : bool :=
  (eqs (nodeName n) (lit "#comment") && startsWith PLACEHOLDER_PREFIX (value n))
  || (eqs (nodeName n) (lit "script")
      && is_str (lit "module") (attr_find (lit "type") (attrs n))
      && truthy_str (attr_find (lit "src") (attrs n))
      && negb (includes (lit "://") (to_template (attr_find (lit "src") (attrs n))))).

(** The regular expression
    [/__HTML_MODULE_PLACEHOLDER_(\0oy3o-rollup-plugin-html-inline:[^?]+\?index=\d+)__/]
    tried at the start of [v]: the captured group. *)
Definition match_here (v : jstr) : option jstr :=
  let head := PLACEHOLDER_PREFIX ++ INLINE_MODULE_PREFIX in
  if startsWith head v then
    let '(name, rest1) := span (fun c => negb (N.eqb c 63)) (drop (length head) v) in
    if is_empty name then None
    else if startsWith (lit "?index=") rest1 then
      let '(digits, rest2) := span is_digit (drop 7 rest1) in
      if is_empty digits then None
      else if startsWith (lit "__") rest2
           then Some (INLINE_MODULE_PREFIX ++ name ++ lit "?index=" ++ digits)
           else None
    else None
  else None.

(** [v.match(...)]: the leftmost match. *)
Fixpoint match_placeholder (v : jstr) : option jstr :=
  match match_here v with
  | Some id => Some id
  | None => match v with
            | [] => None
            | _ :: v' => match_placeholder v'
            end
  end.

(** What happens to a reference node.  The two loops over the tree say
    what they say through [this.warn]; they return the messages. *)
Inductive action :=
| Replace (n : node)
| Remove
| Keep.

Section Rewrite.
Context `{Host}.
Variable cfg : config.
Variable ps : plugin_state.
Variable outputDir : jstr.
Variable bundle : list bundle_item.
Variable absolutePath : jstr.
Variable data : doc_record.

(** The name of the emitted document, relative to the output directory.
    The source computes it twice with the same text, as [relativePath]
    for the references and as [Html] for the emission. *)
Definition output_name : jstr :=
  if isWithDest ps then
    (if startsWith (lit "/") (d_dest data) then drop 1 (d_dest data)
     else d_dest data)
  else if preserveStructure cfg then
    (if path_isAbsolute (d_src data)
     then path_relative process_cwd absolutePath
     else d_src data)
  else path_basename (d_src data).

(** The value of [src] of the new script node. *)
Definition chunk_rel_path (chunkName : jstr) : jstr :=
  let outputPath := path_resolve [outputDir; output_name] in
  let htmlDir := path_dirname outputPath in
  let chunkPath := path_resolve [outputDir; chunkName] in
  let chunkRelPath :=
    join (lit "/") (split_on path_sep (path_relative htmlDir chunkPath)) in
  if negb (startsWith (lit ".") chunkRelPath)
     && negb (startsWith (lit "/") chunkRelPath)
  then lit "./" ++ chunkRelPath else chunkRelPath.

Definition new_script_node (old : node) (chunkName : jstr) : node :=
  Node (lit "script") (lit "script")
       [Attr (lit "type") (lit "module");
        Attr (lit "src") (chunk_rel_path chunkName)]
       (if is_empty (namespaceURI old) then XHTML else namespaceURI old)
       [] [] [].

(** [Object.values(bundle).find(...)] *)
Definition find_chunk (moduleId : jstr) : option bundle_item :=
  List.find
    (fun c => eqs (b_type c) (lit "chunk")
              && (is_str moduleId (b_facadeModuleId c)
                  || match b_modules c with
                     | Some ms => set_has moduleId ms
                     | None => false
                     end))
    bundle.

(** The module identifier of a reference node with its description, and
    the warning of a placeholder that does not parse. *)
Definition reference_id (n : node) : option (jstr * jstr) * list jstr :=
  if eqs (nodeName n) (lit "#comment") then
    match match_placeholder (value n) with
    | Some id =>
        (Some (id, lit "inline module (index "
                   ++ to_template (split_by (lit "index=") id !! 1) ++ lit ")"), [])
    | None =>
        (None, [lit "Could not parse virtual ID from placeholder in "
                ++ d_src data ++ lit ": " ++ value n])
    end
  else
    let src := to_template (attr_find (lit "src") (attrs n)) in
    (Some (path_resolve [path_dirname absolutePath; src],
           lit "script src=" ++ DQ ++ src ++ DQ), []).

Definition removing_node (desc : jstr) : jstr :=
  lit "Removing node for " ++ desc ++ lit " in " ++ d_src data
  ++ lit " as its output chunk was not found.".

Definition removing_unparsed : jstr :=
  lit "Removing unparsed placeholder comment in " ++ d_src data ++ lit ".".

(** The body of the loop over [nodesToReplace], for a node that has a
    parent. *)
Definition resolve_reference (n : node) : action * list jstr :=
  let '(mid, w0) := reference_id n in
  match mid with
  | Some (moduleId, desc) =>
      if is_empty moduleId then
        (* not reached: an identifier or a resolved path is not empty *)
        (if eqs (nodeName n) (lit "#comment")
         then (Remove, w0 ++ [removing_unparsed])
         else (Keep, w0))
      else
        match find_chunk moduleId with
        | Some chunk =>
            if is_empty (b_fileName chunk)
            then (Remove, w0 ++ [removing_node desc])
            else (Replace (new_script_node n (b_fileName chunk)), w0)
        | None =>
            (Remove,
             w0 ++ [lit "Could not find output chunk for " ++ desc
                    ++ lit " (ID: " ++ moduleId ++ lit ") referenced in "
                    ++ d_src data ++ lit ".";
                    removing_node desc])
        end
  | None =>
      if eqs (nodeName n) (lit "#comment")
      then (Remove, w0 ++ [removing_unparsed])
      else (Keep, w0)
  end.

Section Lists.
Variable visit : node -> node * list jstr.

(** The scripts of a list of siblings, minified from left to right. *)
Fixpoint minify_list (l : list node) : list node * list jstr :=
  match l with
  | [] => ([], [])
  | c :: l' =>
      let '(c', w) := visit c in
      let '(rs, ws) := minify_list l' in
      (c' :: rs, w ++ ws)
  end.

(** The references of a list of siblings, resolved from left to right.
    A reference is replaced or removed in the list; the references
    below it were collected with it and are resolved too, in the
    subtree that has left the document. *)
Fixpoint rewrite_list (l : list node) : list node * list jstr :=
  match l with
  | [] => ([], [])
  | c :: l' =>
      let '(c', below) := visit c in
      let '(rs, ws) := rewrite_list l' in
      if is_reference c then
        let '(act, w) := resolve_reference c in
        (match act with
         | Replace n' => n' :: rs
         | Remove => rs
         | Keep => c' :: rs
         end, w ++ below ++ ws)
      else (c' :: rs, below ++ ws)
  end.
End Lists.

(** The first loop of the hook: every inline script that is not a module
    and has text is given to the minifier, in the order of [findNodes];
    the text it returns is written into the script. *)
Fixpoint minify_node (n : node) : node * list jstr :=
  match n with
  | Node name tag ats ns val kids tmpl =>
      let own :=
        if is_inline_script n && negb (is_empty (trim (getTextContent n)))
        then Some (terserMinify (getTextContent n)) else None in
      let '(kids', w1) := minify_list minify_node kids in
      let '(tmpl', w2) :=
        if eqs name (lit "template") then minify_list minify_node tmpl
        else (tmpl, []) in
      let n' := Node name tag ats ns val kids' tmpl' in
      match own with
      | Some (Returned (Some out)) => (setTextContent n' out, w1 ++ w2)
      | Some (Returned None) =>
          (n', (lit "Terser returned undefined code for inline script in "
                ++ d_src data) :: w1 ++ w2)
      | Some (Thrown e) =>
          (n', (lit "Terser failed for inline script in " ++ d_src data
                ++ lit ": " ++ e ++ lit ". Keeping original.") :: w1 ++ w2)
      | None => (n', w1 ++ w2)
      end
  end.

(** The second loop, below the node [n]. *)
Fixpoint rewrite_node (n : node) : node * list jstr :=
  match n with
  | Node name tag ats ns val kids tmpl =>
      let '(kids', w1) := rewrite_list rewrite_node kids in
      if eqs name (lit "template") then
        let '(tmpl', w2) := rewrite_list rewrite_node tmpl in
        (Node name tag ats ns val kids' tmpl', w1 ++ w2)
      else (Node name tag ats ns val kids' tmpl, w1)
  end.

(** The second loop on the whole document; the root has no parent. *)
Definition rewrite_root (ast : node) : node * list jstr :=
  let '(ast', below) := rewrite_node ast in
  if is_reference ast then
    let '(act, w) := resolve_reference ast in
    (ast',
     w ++ match act with
          | Replace _ =>
              [lit "Parent node/childNodes not found for replacement ("
               ++ nodeName ast ++ lit ") in " ++ d_src data]
          | _ => []
          end ++ below)
  else (ast', below).

(** The tree that is serialized, and the warnings of the two loops. *)
Definition finish_document : node * list jstr :=
  let '(ast1, w1) :=
    if is_not_false (terser_compress cfg) then minify_node (d_ast data)
    else (d_ast data, []) in
  let '(ast2, w2) := rewrite_root ast1 in
  (ast2, w1 ++ w2).

End Rewrite.

(** The files given to [emitFile], in order. *)
Fixpoint emitted_files (log : list event) : list (jstr * jstr) :=
  match log with
  | [] => []
  | EmitFile name source :: log' => (name, source) :: emitted_files log'
  | _ :: log' => emitted_files log'
  end.

Section Emission.
Context `{Host}.
Variable cfg : config.
Variable ps : plugin_state.
Variable outputDir : jstr.
Variable bundle : list bundle_item.

(** The set [emitted] and what was said and emitted so far. *)
Record gstate := { emitted : list jstr; glog : list event }.

Inductive gstep :=
| GRaised (e : jstr) (st : gstate)
| GWent (st : gstate).

Definition collision_message (Html : jstr) : jstr :=
  lit "HTML output filename collision: " ++ DQ ++ Html ++ DQ ++ lit " in "
  ++ DQ ++ outputDir ++ DQ
  ++ lit ". Use unique input keys or 'preserveStructure: true'.".

(** The body of the loop over [htmlData.entries()]. *)
Definition emit_document (entry : jstr * doc_record) (st : gstate) : gstep :=
  let '(absolutePath, data) := entry in
  let '(ast, w) := finish_document cfg ps outputDir bundle absolutePath data in
  let Htmlcode := serialize ast in
  let Html := output_name cfg ps absolutePath data in
  if set_has Html (emitted st) then
    let st' := {| emitted := emitted st;
                  glog := glog st ++ List.map CtxWarn w
                    ++ [CtxError (collision_message Html)] |} in
    if error_raises then GRaised (collision_message Html) st' else GWent st'
  else
    GWent {| emitted := set_add Html (emitted st);
             glog := glog st ++ List.map CtxWarn w ++ [EmitFile Html Htmlcode] |}.

(** The name and the file of a document of [htmlData]. *)
Definition document_name (d : jstr * doc_record) : jstr :=
  output_name cfg ps (fst d) (snd d).

Definition document_file (d : jstr * doc_record) : jstr * jstr :=
  (document_name d,
   serialize (fst (finish_document cfg ps outputDir bundle (fst d) (snd d)))).

Fixpoint emit_all (docs : list (jstr * doc_record)) (st : gstate) : gstep :=
  match docs with
  | [] => GWent st
  | d :: rest =>
      match emit_document d st with
      | GRaised e st' => GRaised e st'
      | GWent st' => emit_all rest st'
      end
  end.

End Emission.

Definition gstate_of (r : gstep) : gstate :=
  match r with GRaised _ st => st | GWent st => st end.

(** The set [emitted] holds the names given to [emitFile], once each. *)
Definition emitted_agrees (st : gstate) : Prop :=
  List.map fst (emitted_files (glog st)) = emitted st /\ List.NoDup (emitted st).

Section GenerateBundle.
Context `{Host}.
Variable cfg : config.

(** [outputOptions.dir || (outputOptions.file ? path.dirname(file) : null)] *)
Definition output_dir (oo : output_options) : option jstr :=
  if truthy_str (out_dir oo) then out_dir oo
  else if truthy_str (out_file oo)
       then Some (path_dirname (to_template (out_file oo)))
       else None.

(** The hook: whether it raised, and everything it said and emitted. *)
Definition generateBundle (ps : plugin_state) (oo : output_options)
           (bundle : list bundle_item) : option jstr * list event :=
  if truthy_str (output_dir oo) then
    let outputDir := to_template (output_dir oo) in
    match emit_all cfg ps outputDir bundle (htmlData ps)
                   {| emitted := []; glog := [] |} with
    | GRaised e st => (Some e, glog st)
    | GWent st => (None, glog st)
    end
  else
    let m := lit "Cannot determine output directory. Set `output.dir`." in
    (if error_raises then Some m else None, [CtxError m]).

End GenerateBundle.

(** ** A concrete host

    node:path on a POSIX system, after the documentation and the algorithms
    of Node.js, for a working directory [cwd] that is an absolute path; and
    stand-ins for the other collaborators, so that the hooks can be run on
    concrete inputs. *)

Module Posix.

Definition SLASH : N := 47%N.

Definition is_slash (c : N) : bool := N.eqb c SLASH.

Definition segments (p : jstr) : list jstr :=
  List.filter (fun w => negb (is_empty w)) (split_on SLASH p).

(** The segments of an absolute path without [.] and [..]; [stack] holds
    the segments kept so far, the last one first. *)
Fixpoint normalize (stack : list jstr) (segs : list jstr) : list jstr :=
  match segs with
  | [] => rev stack
  | w :: segs' =>
      if eqs w (lit ".") then normalize stack segs'
      else if eqs w (lit "..") then normalize (tl stack) segs'
      else normalize (w :: stack) segs'
  end.

(** The arguments of [resolve] from the last one back to the first
    absolute one. *)
Fixpoint collect (rargs : list jstr) (acc : jstr) : jstr * bool :=
  match rargs with
  | [] => (acc, false)
  | a :: rargs' =>
      if is_empty a then collect rargs' acc
      else if startsWith [SLASH] a then (a ++ [SLASH] ++ acc, true)
           else collect rargs' (a ++ [SLASH] ++ acc)
  end.

Definition resolve (cwd : jstr) (args : list jstr) : jstr :=
  let '(path, absolute) := collect (rev args) [] in
  let path := if absolute then path else cwd ++ [SLASH] ++ path in
  SLASH :: join [SLASH] (normalize [] (segments path)).

Definition isAbsolute (p : jstr) : bool := startsWith [SLASH] p.

Definition basename (p : jstr) : jstr :=
  rev (fst (span (fun c => negb (is_slash c))
                 (snd (span is_slash (rev p))))).

Definition dirname (p : jstr) : jstr :=
  match p with
  | [] => lit "."
  | c0 :: body =>
      let r1 := snd (span is_slash (rev body)) in
      let r2 := snd (span (fun c => negb (is_slash c)) r1) in
      match r2 with
      | [] => if is_slash c0 then [SLASH] else lit "."
      | _ :: r3 =>
          if is_slash c0 && is_empty r3 then [SLASH; SLASH]
          else c0 :: rev r3
      end
  end.

Fixpoint strip_common (a b : list jstr) : list jstr * list jstr :=
  match a, b with
  | x :: a', y :: b' => if eqs x y then strip_common a' b' else (a, b)
  | _, _ => (a, b)
  end.

Definition relative (cwd : jstr) (from to : jstr) : jstr :=
  if eqs from to then []
  else
    let from' := resolve cwd [from] in
    let to' := resolve cwd [to] in
    if eqs from' to' then []
    else
      let '(up, down) := strip_common (segments from') (segments to') in
      join [SLASH] (List.map (fun _ => lit "..") up ++ down).

End Posix.

(** [s.endsWith(suffix)] *)
Definition endsWith (suffix s : jstr) : bool := startsWith (rev suffix) (rev s).

(** A host over a table of parsed files.  The filter accepts the names that
    end in [.html]; a file that is not in the table cannot be read; the
    style transform and the minifier are the ones given. *)
Definition table_host (files : list (jstr * node))
           (css : jstr -> outcome jstr) (js : jstr -> outcome (option jstr))
           (digest : jstr -> jstr) (now : nat -> N)
           (print : node -> jstr) (raises : bool) : Host :=
  {| path_resolve := Posix.resolve (lit "/work");
     path_dirname := Posix.dirname;
     path_basename := Posix.basename;
     path_relative := Posix.relative (lit "/work");
     path_isAbsolute := Posix.isAbsolute;
     path_sep := Posix.SLASH;
     process_cwd := lit "/work";
     filter := endsWith (lit ".html");
     read_and_parse := fun p =>
       match obj_get p files with
       | Some ast => Returned ast
       | None => Thrown (lit "Error: ENOENT: no such file or directory, open '"
                         ++ p ++ lit "'")
       end;
     lightningTransform := fun _ => css;
     terserMinify := js;
     sha256_base64url := digest;
     date_now := now;
     serialize := print;
     error_raises := raises |}.

(** ** Vocabulary of the statements about documents *)

(** A text node as the parser builds it: without children. *)
Definition is_text_leaf (n : node) : bool :=
  eqs (nodeName n) (lit "#text") && is_empty_list (childNodes n).



(** A script with a [src]. *)
Definition is_src_script (n : node) : bool :=
  eqs (nodeName n) (lit "script")
  && truthy_str (attr_find (lit "src") (attrs n)).


(** The names of the nodes that hold nothing but text in a parsed
    document. *)
Definition holds_text_only (name : jstr) : bool :=
  existsb (eqs name) [lit "#comment"; lit "#text"; lit "script"; lit "style"].

(** The shape of a tree built by the parser: comments and text nodes have
    no children, scripts and styles have text nodes only. *)
Fixpoint parsed_shape (n : node) : bool :=
  match n with
  | Node name _ _ _ _ kids tmpl =>
      (if holds_text_only name then forallb is_text_leaf kids else true)
      && forallb parsed_shape kids
      && forallb parsed_shape tmpl
  end.




(** ** Vocabulary of the statements about white space *)

Definition starts_ws (s : jstr) : bool :=
  match s with
  | c :: _ => is_space c
  | [] => false
  end.

Fixpoint ends_ws (s : jstr) : bool :=
  match s with
  | [] => false
  | [c] => is_space c
  | _ :: s' => ends_ws s'
  end.

(** [s] does not begin with a character that satisfies [f]. *)
Definition starts_with_none (f : N -> bool) (s : jstr) : Prop :=
  match s with
  | c :: _ => f c = false
  | [] => True
  end.




(** ** Documents and hosts of the worked examples *)

Module Demo.

(** A plain serializer, standing for parse5's. *)
Definition show_attr (a : attr) : jstr :=
  lit " " ++ attr_name a ++ lit "=" ++ DQ ++ attr_value a ++ DQ.

Fixpoint show (n : node) : jstr :=
  match n with
  | Node name _ ats _ val kids tmpl =>
      if eqs name (lit "#text") then val
      else if eqs name (lit "#comment") then lit "<!--" ++ val ++ lit "-->"
      else if eqs name (lit "#document") then List.concat (List.map show kids)
      else lit "<" ++ name ++ List.concat (List.map show_attr ats) ++ lit ">"
           ++ List.concat (List.map show kids)
           ++ List.concat (List.map show tmpl)
           ++ lit "</" ++ name ++ lit ">"
  end.

Local Open Scope string_scope.

Definition script (ats : list (string * string)) (text : string) : node :=
  element (lit "script")
          (List.map (fun a => Attr (lit (fst a)) (lit (snd a))) ats)
          (match text with
           | EmptyString => []
           | _ => [text_node (lit text)]
           end).

Definition page (head body : list node) : node :=
  document [element (lit "html") []
              [element (lit "head") [] head; element (lit "body") [] body]].

Definition host (files : list (jstr * node)) : Host :=
  table_host files (fun c => Returned c) (fun c => Returned (Some c))
             (fun s => rev s) (fun _ => 1700000000000%N) show true.

(** Two documents, each with one inline module. *)
Definition a_html : node :=
  page [script [("type", "module")] "a()"] [text_node (lit "A")].

Definition b_html : node :=
  page [script [("type", "module")] "b()"] [text_node (lit "B")].

Definition two_pages : Host :=
  host [(lit "/work/a.html", a_html); (lit "/work/sub/b.html", b_html)].

(** A document that refers to a local module. *)
Definition app_html : node :=
  page [script [("type", "module"); ("src", "./app.js")] ""]
       [text_node (lit "App")].

Definition one_page : Host := host [(lit "/work/index.html", app_html)].

(** A document without any script. *)
Definition plain_html : node := page [] [text_node (lit "Hello")].

Definition plain_page : Host := host [(lit "/work/index.html", plain_html)].

(** Two documents with the same basename. *)
Definition two_indexes : Host :=
  host [(lit "/work/a/index.html", plain_html);
        (lit "/work/b/index.html", plain_html)].

Definition index_a : jstr * doc_record :=
  (lit "/work/a/index.html",
   {| d_src := lit "a/index.html"; d_dest := lit "a/index.html";
      d_ast := plain_html; d_inlineModules := [] |}).

Definition index_b : jstr * doc_record :=
  (lit "/work/b/index.html",
   {| d_src := lit "b/index.html"; d_dest := lit "b/index.html";
      d_ast := plain_html; d_inlineModules := [] |}).

Definition to_dist : output_options :=
  {| out_dir := Some (lit "dist"); out_file := None |}.

(** A document in a subdirectory, with one inline module, and the bundle
    in which the module became the chunk [assets/a-1.js]. *)
Definition sub_page : Host :=
  host [(lit "/work/sub/page.html",
         page [script [("type", "module")] "a()"] [text_node (lit "P")])].

Definition keep_structure : plugin_options :=
  {| opt_preserveStructure := JBool true;
     opt_removeComments := JUndefined;
     opt_compressWhitespace := JUndefined;
     opt_lightningcss_minify := None;
     opt_terser_compress := None |}.

Definition compress : plugin_options :=
  {| opt_preserveStructure := JUndefined;
     opt_removeComments := JUndefined;
     opt_compressWhitespace := JBool true;
     opt_lightningcss_minify := None;
     opt_terser_compress := None |}.

Definition no_css_minify : plugin_options :=
  {| opt_preserveStructure := JUndefined;
     opt_removeComments := JUndefined;
     opt_compressWhitespace := JUndefined;
     opt_lightningcss_minify := Some (JBool false);
     opt_terser_compress := None |}.

(** A style transform that drops the white space and refuses a text with
    an opening brace left open. *)
Definition squeeze (css : jstr) : outcome jstr :=
  if Nat.eqb (List.length (List.filter (N.eqb 123) css))
             (List.length (List.filter (N.eqb 125) css))
  then Returned (List.filter (fun c => negb (is_space c)) css)
  else Thrown (lit "SyntaxError: Unexpected end of input").

Definition styled_page : Host :=
  table_host [] squeeze (fun c => Returned (Some c)) (fun s => rev s)
             (fun _ => 1700000000000%N) show true.

Definition style (text : string) : node :=
  element (lit "style") []
          (match text with
           | EmptyString => []
           | _ => [text_node (lit text)]
           end).






Definition ID0 : jstr :=
  NUL :: lit "oy3o-rollup-plugin-html-inline:undefined?index=0".

Definition a_chunk : bundle_item :=
  {| b_type := lit "chunk"; b_fileName := lit "assets/a-1.js";
     b_facadeModuleId := Some ID0; b_modules := Some [ID0] |}.

Definition sub_record : doc_record :=
  {| d_src := lit "sub/page.html"; d_dest := lit "sub/page.html";
     d_ast := page [comment_node (placeholder_of ID0)] [text_node (lit "P")];
     d_inlineModules :=
       [{| virtualId := ID0; code := lit "a()"; placeholder := placeholder_of ID0 |}] |}.

Definition sub_state : plugin_state :=
  {| htmlData := [(lit "/work/sub/page.html", sub_record)]; isWithDest := false |}.

End Demo.

(** ** Vocabulary of the further statements *)

(** [within n x]: the node [x] is [n] or lies below it, through
    [childNodes] and, under a template, through its content. *)
Inductive within : node -> node -> Prop :=
| within_self (n : node) : within n n
| within_child (n c x : node) :
    List.In c (childNodes n) -> within c x -> within n x
| within_content (n c x : node) :
    nodeName n = lit "template" -> List.In c (content n) -> within c x ->
    within n x.

(** The state in which a call of [traverse] ended, whether it returned or
    raised. *)
Definition state_of {A : Type} (r : res A) : xstate :=
  match r with Throw _ st => st | Ret _ st => st end.

(** The records [ms] are those of inline modules found when [k] records
    were there: the identifier carries the text of an absent or empty [src]
    and the position of the record, the token is built from the identifier,
    and the code is not only white space. *)
Definition numbered_from (k : nat) (ms : list inline_module) : Prop :=
  forall i m,
    ms !! i = Some m ->
    (virtualId m = virtual_id None (k + i)
     \/ virtualId m = virtual_id (Some []) (k + i))
    /\ placeholder m = placeholder_of (virtualId m)
    /\ trim (code m) <> [].

(** What a call of [traverse] that started in [st] and ended in [st'] did
    outside the tree. *)
Definition grew (st st' : xstate) : Prop :=
  exists ms entries es,
    inlineModules st' = inlineModules st ++ ms
    /\ numbered_from (length (inlineModules st)) ms
    /\ rollupHtml st' = rollupHtml st ++ entries
    /\ (forall x, List.In x entries -> exists m, List.In m ms /\ virtualId m = x)
    /\ (forall m, List.In m ms -> List.In (virtualId m) (rollupHtml st'))
    /\ xlog st' = xlog st ++ es
    /\ Forall (fun e => exists m, e = ConsoleError (LOG_TAG ++ m)) es.

(** The state in which the loop over the HTML entries ended. *)
Definition ostate_of (r : step_result) : ostate :=
  match r with Raised _ st => st | Went st => st end.

Section Stored.
Context `{Host}.
Variable cfg : config.

(** The record [data] under the key [abs] is what the first of the entries
    [done] that resolves to [abs] gave: the file under [abs] was parsed,
    [traverse] returned the stored tree, which has children, and the
    records it collected from none are the stored ones. *)
Definition stored_from (done : list (jstr * jstr)) (abs : jstr) (data : doc_record)
  : Prop :=
  abs = path_resolve [d_src data]
  /\ (exists pre post,
         done = pre ++ (d_dest data, d_src data) :: post
         /\ Forall (fun e => path_resolve [snd e] <> abs) pre)
  /\ childNodes (d_ast data) <> []
  /\ exists ast0 rollup log st',
      read_and_parse abs = Returned ast0
      /\ traverse cfg abs (d_src data) None ast0
                  {| rollupHtml := rollup; inlineModules := []; xlog := log |}
         = Ret (Some (d_ast data)) st'
      /\ d_inlineModules data = inlineModules st'.

(** What holds of the state of the loop after the entries [done]. *)
Definition kept (done : list (jstr * jstr)) (st : ostate) : Prop :=
  List.NoDup (List.map fst (o_htmlData st))
  /\ (forall abs, List.In abs (o_processed st)
                  <-> exists e, List.In e done /\ path_resolve [snd e] = abs)
  /\ (forall abs data,
         List.In (abs, data) (o_htmlData st) ->
         List.In abs (o_processed st)
         /\ stored_from done abs data
         /\ forall m, List.In m (d_inlineModules data) ->
                      List.In (virtualId m) (o_rollupHtml st)).

End Stored.

(** The number that a string of decimal digits writes. *)
Definition undec (s : jstr) : N :=
  fold_left (fun a c => (10 * a + (c - 48))%N) s 0%N.

Section MinifyLoop.
Context `{Host}.
Variable data : doc_record.

(** The body of the loop over [inlineScripts], for one script: the text
    it leaves in the script and what it says. *)
Definition minified_text (scriptNode : node) : jstr :=
  let originalCode := getTextContent scriptNode in
  if negb (is_empty (trim originalCode)) then
    match terserMinify originalCode with
    | Returned (Some out) => out
    | Returned None => originalCode
    | Thrown _ => originalCode
    end
  else originalCode.

Definition minify_warning (scriptNode : node) : list jstr :=
  let originalCode := getTextContent scriptNode in
  if negb (is_empty (trim originalCode)) then
    match terserMinify originalCode with
    | Returned (Some _) => []
    | Returned None =>
        [lit "Terser returned undefined code for inline script in " ++ d_src data]
    | Thrown e =>
        [lit "Terser failed for inline script in " ++ d_src data
         ++ lit ": " ++ e ++ lit ". Keeping original."]
    end
  else [].

End MinifyLoop.

(** What the first loop of [generateBundle] leaves of a node as it was:
    its name, its attributes and, unless it is a text node, its value. *)
Definition shell (x : node) : jstr * list attr * jstr :=
  (nodeName x, attrs x, if eqs (nodeName x) (lit "#text") then [] else value x).

(** What goes through the plugin context ([this.warn], [this.error],
    [this.emitFile]) and not through the console. *)
Definition is_context_event (e : event) : bool :=
  match e with
  | CtxWarn _ | CtxError _ | EmitFile _ _ => true
  | ConsoleWarn _ | ConsoleError _ => false
  end.

Definition is_error_event (e : event) : bool :=
  match e with
  | CtxError _ | ConsoleError _ => true
  | _ => false
  end.

(** The nodes that [traverse] may remove, replace or change under [cfg]:
    comments when they are removed, styles when they are minified, scripts,
    and text nodes when white space is compressed. *)
Definition is_touched (cfg : config) (n : node) : bool :=
  (eqs (nodeName n) (lit "#comment") && removeComments cfg)
  || (eqs (nodeName n) (lit "style") && is_not_false (lightningcss_minify cfg))
  || eqs (nodeName n) (lit "script")
  || (eqs (nodeName n) (lit "#text") && compressWhitespace cfg).

(** An entry of the normalized input that is taken for an HTML file: its
    value is a string that the filter accepts. *)
Definition is_html_entry `{Host} (e : jstr * jsval) : bool :=
  match snd e with
  | JStr s => filter s
  | _ => false
  end.

Definition html_entry (e : jstr * jsval) : list (jstr * jstr) :=
  match snd e with
  | JStr s => [(fst e, s)]
  | _ => []
  end.

Section Failure.
Context `{Host}.


End Failure.

(** The nodes that the two passes of the plugin look for: comments, styles
    and scripts. *)
Definition is_special (n : node) : bool :=
  existsb (eqs (nodeName n)) [lit "#comment"; lit "style"; lit "script"].

Definition is_comment (n : node) : bool := eqs (nodeName n) (lit "#comment").

(** Every comment of the tree [r] is the placeholder of a record of [ms]. *)
Definition comments_are_placeholders (ms : list inline_module) (r : node) : Prop :=
  forall x, List.In x (findNodes is_comment r) ->
            exists m, List.In m ms /\ x = comment_node (placeholder m).

Section RewriteLoop.
Context `{Host}.
Variable cfg : config.
Variable ps : plugin_state.
Variable outputDir : jstr.
Variable bundle : list bundle_item.
Variable absolutePath : jstr.
Variable data : doc_record.

(** What the loop over [nodesToReplace] says for one node. *)
Definition reference_warnings (n : node) : list jstr :=
  snd (resolve_reference cfg ps outputDir bundle absolutePath data n).


End RewriteLoop.

(** * Properties *)

(** ** Sanity of the string and path functions *)

Example lit_abc : lit "a b" = [97; 32; 98]%N.
Proof. reflexivity. Qed.

Example dec_120 :
  (dec 120, dec 0, dec 1700000000000)
  = (lit "120", lit "0", lit "1700000000000").
Proof. reflexivity. Qed.

Example collapse_demo :
  collapse_ws (lit "  hello   world  ") = lit " hello world ".
Proof. reflexivity. Qed.

Example resolve_demo :
  Posix.resolve (lit "/work") [lit "dist"; lit "sub/../a/./b.html"]
  = lit "/work/dist/a/b.html".
Proof. reflexivity. Qed.

Example relative_demo :
  Posix.relative (lit "/work") (lit "/work/dist/sub") (lit "/work/dist/assets/a-1.js")
  = lit "../assets/a-1.js".
Proof. reflexivity. Qed.

Example dirname_demo :
  (Posix.dirname (lit "/a/b/c.html"), Posix.dirname (lit "x.html"),
   Posix.dirname (lit "/x"))
  = (lit "/a/b", lit ".", lit "/").
Proof. reflexivity. Qed.

Example basename_demo :
  (Posix.basename (lit "/a/b/c.html"), Posix.basename (lit "sub/"),
   Posix.basename (lit "/"))
  = (lit "c.html", lit "sub", []).
Proof. reflexivity. Qed.

(** ** Strings *)

Lemma eqs_spec (a b : jstr) : eqs a b = true <-> a = b.
Proof.
  revert b; induction a as [|x a IH]; intros [|y b]; simpl; split; intros E;
    try discriminate; try reflexivity.
  - apply andb_true_iff in E as [E1 E2].
    apply N.eqb_eq in E1. apply IH in E2. congruence.
  - inversion E; subst. rewrite N.eqb_refl. simpl. apply IH. reflexivity.
Qed.

Lemma eqs_refl (a : jstr) : eqs a a = true.
Proof. apply eqs_spec. reflexivity. Qed.

Lemma eqs_false (a b : jstr) : eqs a b = false <-> a <> b.
Proof.
  split.
  - intros E Heq. apply eqs_spec in Heq. congruence.
  - intros Hne. destruct (eqs a b) eqn:E; [|reflexivity].
    apply eqs_spec in E. contradiction.
Qed.

(** ** The extraction pass raises on a script with a [src] *)

Section ExtractionFacts.
Context `{Host}.
Variable cfg : config.
Variable absolutePath doc_src : jstr.

Lemma traverse_ov_unfold p ov n st :
  traverse_ov cfg absolutePath doc_src p ov n st =
  let self := set_value (default (value n) ov) n in
  if eqs (nodeName n) (lit "#comment") then
    Ret (if removeComments cfg then None else Some self) st
  else
    match (if eqs (nodeName n) (lit "style") && is_not_false (lightningcss_minify cfg)
           then style_step absolutePath doc_src self st else StyleKept None st) with
    | StyleRemoved => Ret None st
    | StyleKept text st1 =>
        if eqs (nodeName n) (lit "script") then script_step self st1
        else
          match (if eqs (nodeName n) (lit "#text") && compressWhitespace cfg
                 then compress_text p (value self) else Some (value self)) with
          | None => Ret None st1
          | Some val' =>
              match visit_children (traverse_ov cfg absolutePath doc_src)
                      (nodeName n) (length (childNodes n)) 0 text (childNodes n) st1 with
              | Throw e st2 => Throw e st2
              | Ret kids' st2 =>
                  if eqs (nodeName n) (lit "template") then
                    match visit_children (traverse_ov cfg absolutePath doc_src)
                            (lit "#document-fragment")
                            (length (content n)) 0 None (content n) st2 with
                    | Throw e st3 => Throw e st3
                    | Ret tmpl' st3 =>
                        Ret (Some (Node (nodeName n) (tagName n) (attrs n)
                                        (namespaceURI n) val' kids' tmpl')) st3
                    end
                  else Ret (Some (Node (nodeName n) (tagName n) (attrs n)
                                       (namespaceURI n) val' kids' (content n))) st2
              end
          end
    end.
Proof. destruct n; reflexivity. Qed.

(** Visiting a node with a value to be written first is visiting the node
    with that value: the extra argument of [traverse_ov] stands for the
    assignment [node.childNodes[0].value = text] of [setTextContent], which
    the source performs before it visits the children of a style node. *)
Lemma traverse_ov_written p v n st :
  traverse_ov cfg absolutePath doc_src p (Some v) n st
  = traverse_ov cfg absolutePath doc_src p None (set_value v n) st.
Proof. rewrite !traverse_ov_unfold. destruct n; reflexivity. Qed.

Lemma visit_children_written pname len i v c rest st :
  visit_children (traverse_ov cfg absolutePath doc_src) pname len i (Some v)
                 (c :: rest) st
  = visit_children (traverse_ov cfg absolutePath doc_src) pname len i None
                   (set_value v c :: rest) st.
Proof. cbn [visit_children]. rewrite traverse_ov_written. reflexivity. Qed.

(** A script whose [src] attribute is a non-empty string makes [traverse]
    raise, whatever the rest of the node. *)
Lemma script_with_src_raises p n st :
  nodeName n = lit "script" ->
  truthy_str (attr_find (lit "src") (attrs n)) = true ->
  traverse cfg absolutePath doc_src p n st = Throw TYPE_ERROR_INCLUDES st.
Proof.
  intros Hn Hs. unfold traverse. rewrite traverse_ov_unfold. cbn zeta.
  rewrite Hn. cbn [default set_value]. 
  change (eqs (lit "script") (lit "#comment")) with false.
  change (eqs (lit "script") (lit "style")) with false.
  change (eqs (lit "script") (lit "script")) with true.
  cbn [andb]. unfold script_step. cbn [attrs set_value]. rewrite Hs. reflexivity.
Qed.

End ExtractionFacts.

(** C2. A script node with a local [src] is not registered and kept: the
    test [src && !src.value.includes('://')] reads [.value] of what is
    already the attribute's string, so [traverse] raises a TypeError.  On the
    document [<script type="module" src="./app.js">] the exception reaches
    the [catch] of the hook, which reports it through [this.error]: no
    entry is registered, no document is stored, and the hook raises. *)
Theorem local_src_script_raises :
  let n := Demo.script [("type", "module"); ("src", "./app.js")]%string "" in
  let st := {| rollupHtml := []; inlineModules := []; xlog := [] |} in
  let m := lit "Error processing HTML file index.html: " ++ TYPE_ERROR_INCLUDES in
  traverse (H := Demo.one_page) (make_config no_options)
           (lit "/work/index.html") (lit "index.html")
           (Some {| p_nodeName := lit "head"; p_length := 1; p_index := 0 |}) n st
  = Throw TYPE_ERROR_INCLUDES st
  /\ options (H := Demo.one_page) (make_config no_options) (InString (lit "index.html"))
     = (HookRaised m, {| htmlData := []; isWithDest := false |}, [CtxError m]).
Proof. split; vm_compute; reflexivity. Qed.

(** C1. The identifier of an inline module is built from the [src] attribute
    of the script node (absent, hence the text [undefined]) and not from
    the path of the document: the inline modules of [a.html] and of
    [sub/b.html] get the same identifier, the bundler receives one entry
    for both, [load] answers the code of the first document, and after
    bundling both documents refer to the one chunk made from it. *)
Theorem inline_ids_repeat_across_documents :
  let '(result, ps, log) :=
    options (H := Demo.two_pages) (make_config no_options)
            (InArray [JStr (lit "a.html"); JStr (lit "sub/b.html")]) in
  List.map (fun kv => (fst kv, List.map (fun m => (virtualId m, code m))
                                        (d_inlineModules (snd kv))))
           (htmlData ps)
  = [(lit "/work/a.html", [(Demo.ID0, lit "a()")]);
     (lit "/work/sub/b.html", [(Demo.ID0, lit "b()")])]
  /\ (exists key, result = HookInput [(key, JStr Demo.ID0)])
  /\ load ps Demo.ID0 = Loaded (lit "a()")
  /\ generateBundle (H := Demo.two_pages) (make_config no_options) ps
                    Demo.to_dist [Demo.a_chunk]
     = (None,
        [EmitFile (lit "a.html")
           (Demo.show
              (Demo.page
                 [Demo.script [("type", "module"); ("src", "./assets/a-1.js")]%string ""]
                 [text_node (lit "A")]));
         EmitFile (lit "b.html")
           (Demo.show
              (Demo.page
                 [Demo.script [("type", "module"); ("src", "./assets/a-1.js")]%string ""]
                 [text_node (lit "B")]))]).
Proof.
  vm_compute. split; [reflexivity|]. split; [eexists; reflexivity|].
  split; reflexivity.
Qed.

(** ** The name of the emitted document *)

Lemma is_true_spec (v : jsval) : is_true v = true <-> v = JBool true.
Proof.
  destruct v as [| |[|]| | |]; simpl; split; intros E;
    try discriminate; try reflexivity.
Qed.

Section OptionsFacts.
Context `{Host}.
Variable cfg : config.

(** [isWithDest] is set exactly when the input is an object. *)
Lemma options_isWithDest (input : rollup_input) :
  isWithDest (snd (fst (options cfg input)))
  = match input with InObject _ => true | _ => false end.
Proof.
  unfold options.
  destruct (normalize_input input) as [[normalizedInput withDest] log0] eqn:En.
  assert (Hw : withDest = match input with InObject _ => true | _ => false end).
  { destruct input as [s|l|o|v]; simpl in En; try (inversion En; reflexivity).
    destruct (truthy v); inversion En; reflexivity. }
  destruct (split_html normalizedInput) as [Html nonHtml].
  destruct (is_empty_list Html); [exact Hw|].
  destruct (process_all cfg Html _) as [e st|st]; [exact Hw|].
  destruct (build_rollups nonHtml (o_rollupHtml st) (o_log st)) as [[rollups k] log1].
  destruct (add_noop Html rollups log1) as [rollups' log2].
  destruct (return_input rollups' log2) as [result log3]. exact Hw.
Qed.

End OptionsFacts.

(** C10. With an input that is a string or an array, the name under which a
    document is emitted is the basename of its source path unless the option
    [preserveStructure] is the boolean [true]; only then is it the source
    path itself (made relative to the working directory when absolute).
    The name is the one given to [emitFile]. *)
Theorem flattened_unless_preserveStructure_true `{Host}
        (o : plugin_options) (input : rollup_input)
        (outputDir : jstr) (bundle : list bundle_item)
        (absolutePath : jstr) (data : doc_record) (st : gstate) :
  (forall entries, input <> InObject entries) ->
  let cfg := make_config o in
  let ps := snd (fst (options cfg input)) in
  (opt_preserveStructure o <> JBool true ->
   output_name cfg ps absolutePath data = path_basename (d_src data))
  /\ (opt_preserveStructure o = JBool true ->
      output_name cfg ps absolutePath data
      = if path_isAbsolute (d_src data)
        then path_relative process_cwd absolutePath else d_src data)
  /\ (set_has (output_name cfg ps absolutePath data) (emitted st) = false ->
      exists w source,
        emit_document cfg ps outputDir bundle (absolutePath, data) st
        = GWent {| emitted := set_add (output_name cfg ps absolutePath data) (emitted st);
                   glog := glog st ++ List.map CtxWarn w
                           ++ [EmitFile (output_name cfg ps absolutePath data) source] |}).
Proof.
  intros Hin cfg ps.
  assert (Hd : isWithDest ps = false).
  { unfold ps. rewrite options_isWithDest.
    destruct input; try reflexivity. exfalso. eapply Hin. reflexivity. }
  repeat split.
  - intros Hp. unfold output_name. rewrite Hd. unfold cfg. cbn [preserveStructure make_config].
    destruct (is_true (opt_preserveStructure o)) eqn:E; [|reflexivity].
    apply is_true_spec in E. contradiction.
  - intros Hp. unfold output_name. rewrite Hd. unfold cfg. cbn [preserveStructure make_config].
    rewrite Hp. reflexivity.
  - intros Hfresh. unfold emit_document.
    destruct (finish_document cfg ps outputDir bundle absolutePath data) as [ast w].
    rewrite Hfresh. eexists; eexists; reflexivity.
Qed.

Lemma flattened_unless_preserveStructure_true_witness :
  output_name (H := Demo.two_pages) (make_config no_options)
              (snd (fst (options (H := Demo.two_pages) (make_config no_options)
                                 (InArray [JStr (lit "a.html"); JStr (lit "sub/b.html")]))))
              (lit "/work/sub/b.html")
              {| d_src := lit "sub/b.html"; d_dest := lit "sub/b.html";
                 d_ast := Demo.b_html; d_inlineModules := [] |}
  = lit "b.html".
Proof.
  refine (proj1 (flattened_unless_preserveStructure_true
                   (H := Demo.two_pages) no_options
                   (InArray [JStr (lit "a.html"); JStr (lit "sub/b.html")])
                   (lit "dist") [] (lit "/work/sub/b.html")
                   {| d_src := lit "sub/b.html"; d_dest := lit "sub/b.html";
                      d_ast := Demo.b_html; d_inlineModules := [] |}
                   {| emitted := []; glog := [] |} _) _).
  - intros entries E. discriminate E.
  - intros E. discriminate E.
Defined.

(** ** The entries given to the bundler are never none *)

Lemma is_empty_list_spec {A : Type} (l : list A) : is_empty_list l = true <-> l = [].
Proof. destruct l; simpl; split; intros E; try discriminate; reflexivity. Qed.

(** C8. When some input was accepted by the filter, the hook either raises
    (a document could not be processed) or hands the bundler an input object
    that is not empty; and when the documents yielded no entry point and no
    other input was given, that object is exactly the no-op entry. *)
Theorem noop_entry_keeps_input_non_empty `{Host} (cfg : config) (input : rollup_input) :
  let Html := fst (split_html (fst (fst (normalize_input input)))) in
  let nonHtml := snd (split_html (fst (fst (normalize_input input)))) in
  Html <> [] ->
  match fst (fst (options cfg input)) with
  | HookInput rollups =>
      rollups <> []
      /\ exists st,
          process_all cfg Html {| o_htmlData := []; o_rollupHtml := [];
                                  o_processed := [];
                                  o_log := snd (normalize_input input) |} = Went st
          /\ (o_rollupHtml st = [] -> nonHtml = [] ->
              rollups = [(lit "_html_noop_entry", JStr NOOP_IMPORT_ID)])
  | HookRaised e =>
      exists st,
        process_all cfg Html {| o_htmlData := []; o_rollupHtml := [];
                                o_processed := [];
                                o_log := snd (normalize_input input) |} = Raised e st
  | HookNull | HookSame => False
  end.
Proof.
  intros Html nonHtml Hne. unfold options.
  destruct (normalize_input input) as [[normalizedInput withDest] log0] eqn:En.
  cbn [fst snd] in Html, nonHtml |- *.
  destruct (split_html normalizedInput) as [Html' nonHtml'] eqn:Es.
  cbn [fst snd] in Html, nonHtml. subst Html nonHtml.
  destruct (is_empty_list Html') eqn:Ee.
  { apply is_empty_list_spec in Ee. contradiction. }
  destruct (process_all cfg Html' _) as [e st|st] eqn:Ep; cbn [fst].
  { exists st. reflexivity. }
  destruct (build_rollups nonHtml' (o_rollupHtml st) (o_log st))
    as [[rollups k] log1] eqn:Eb.
  unfold add_noop. rewrite Ee. cbn [negb]. rewrite andb_true_r.
  destruct (is_empty_list rollups) eqn:Er.
  - apply is_empty_list_spec in Er. subst rollups.
    unfold return_input. cbn. split; [discriminate|].
    exists st. split; [reflexivity|]. intros _ _. reflexivity.
  - unfold return_input. rewrite Er. cbn [fst]. split.
    + intros E. subst rollups. discriminate Er.
    + exists st. split; [reflexivity|]. intros Hr Hn.
      rewrite Hr, Hn in Eb. cbn in Eb. inversion Eb; subst. discriminate Er.
Qed.

Lemma noop_entry_keeps_input_non_empty_witness :
  fst (fst (options (H := Demo.plain_page) (make_config no_options)
                    (InString (lit "index.html"))))
  = HookInput [(lit "_html_noop_entry", JStr NOOP_IMPORT_ID)].
Proof.
  pose proof (noop_entry_keeps_input_non_empty
                (H := Demo.plain_page) (make_config no_options)
                (InString (lit "index.html"))) as P.
  cbv zeta in P.
  destruct (fst (fst (options (H := Demo.plain_page) (make_config no_options)
                              (InString (lit "index.html"))))) as [e| | |rollups] eqn:E.
  - vm_compute in E. discriminate E.
  - vm_compute in E. discriminate E.
  - vm_compute in E. discriminate E.
  - destruct P as [_ [st [Hp Hn]]].
    + vm_compute. discriminate.
    + f_equal. apply Hn.
      * vm_compute in Hp. inversion Hp. reflexivity.
      * reflexivity.
Defined.

(** ** Emission and the collision of names *)

Lemma set_has_In (x : jstr) (l : list jstr) : set_has x l = true <-> List.In x l.
Proof.
  unfold set_has. rewrite existsb_exists. split.
  - intros [y [Hy E]]. apply eqs_spec in E. subst. exact Hy.
  - intros Hx. exists x. split; [exact Hx|apply eqs_refl].
Qed.

Lemma set_has_not_In (x : jstr) (l : list jstr) :
  set_has x l = false <-> ~ List.In x l.
Proof.
  rewrite <- set_has_In. destruct (set_has x l); split; intros E;
    try discriminate; try reflexivity; try (intros E'; discriminate).
  exfalso. apply E. reflexivity.
Qed.

Lemma emitted_files_app (a b : list event) :
  emitted_files (a ++ b) = emitted_files a ++ emitted_files b.
Proof.
  induction a as [|e a IH]; [reflexivity|].
  destruct e; simpl; rewrite IH; reflexivity.
Qed.

Lemma emitted_files_warnings (w : list jstr) :
  emitted_files (List.map CtxWarn w) = [].
Proof. induction w as [|m w IH]; [reflexivity|exact IH]. Qed.

Lemma startsWith_app (x b : jstr) : startsWith x (x ++ b) = true.
Proof.
  induction x as [|c x IH]; [reflexivity|].
  simpl. rewrite N.eqb_refl. exact IH.
Qed.

Lemma includes_app (x a b : jstr) : includes x (a ++ x ++ b) = true.
Proof.
  induction a as [|c a IH].
  - simpl. destruct (x ++ b) eqn:E; simpl; rewrite <- ?E;
      rewrite startsWith_app; reflexivity.
  - simpl. rewrite IH. apply orb_true_r.
Qed.

Lemma includes_here (x b : jstr) : includes x (x ++ b) = true.
Proof. apply (includes_app x [] b). Qed.

Lemma includes_skip (x a s : jstr) :
  includes x s = true -> includes x (a ++ s) = true.
Proof.
  intros E. induction a as [|c a IH]; [exact E|].
  simpl. rewrite IH. apply orb_true_r.
Qed.

Lemma NoDup_keys_unique {A B : Type} (l : list (A * B)) (a b : A * B) :
  List.NoDup (List.map fst l) ->
  List.In a l -> List.In b l -> fst a = fst b -> a = b.
Proof.
  induction l as [|x l IH]; intros Hn Ha Hb E; [destruct Ha|].
  cbn [List.map] in Hn. apply NoDup_cons_iff in Hn as [Hx Hn].
  destruct Ha as [Ha|Ha], Hb as [Hb|Hb].
  - congruence.
  - subst x. exfalso. apply Hx. rewrite E. apply in_map. exact Hb.
  - subst x. exfalso. apply Hx. rewrite <- E. apply in_map. exact Ha.
  - apply IH; assumption.
Qed.

Section EmissionFacts.
Context `{Host}.
Variable cfg : config.
Variable ps : plugin_state.
Variable outputDir : jstr.
Variable bundle : list bundle_item.

Local Abbreviation name := (document_name cfg ps).
Local Abbreviation file := (document_file cfg ps outputDir bundle).

Lemma emit_document_fresh d st :
  set_has (name d) (emitted st) = false ->
  exists w,
    emit_document cfg ps outputDir bundle d st
    = GWent {| emitted := emitted st ++ [name d];
               glog := glog st ++ List.map CtxWarn w
                       ++ [EmitFile (name d) (snd (file d))] |}.
Proof.
  intros Hf. unfold emit_document. destruct d as [absolutePath data].
  unfold document_file, document_name in *. cbn [fst snd] in *.
  destruct (finish_document cfg ps outputDir bundle absolutePath data) as [ast w].
  rewrite Hf. unfold set_add. rewrite Hf. exists w. reflexivity.
Qed.

Lemma emit_document_taken d st :
  set_has (name d) (emitted st) = true ->
  exists w,
    let st' := {| emitted := emitted st;
                  glog := glog st ++ List.map CtxWarn w
                          ++ [CtxError (collision_message outputDir (name d))] |} in
    emit_document cfg ps outputDir bundle d st
    = if error_raises
      then GRaised (collision_message outputDir (name d)) st'
      else GWent st'.
Proof.
  intros Hf. unfold emit_document. destruct d as [absolutePath data].
  unfold document_name in *. cbn [fst snd] in *.
  destruct (finish_document cfg ps outputDir bundle absolutePath data) as [ast w].
  rewrite Hf. exists w. reflexivity.
Qed.

Lemma emit_document_keeps d st :
  emitted_agrees st ->
  emitted_agrees (gstate_of (emit_document cfg ps outputDir bundle d st))
  /\ exists more, glog (gstate_of (emit_document cfg ps outputDir bundle d st))
                  = glog st ++ more.
Proof.
  intros [Hm Hn]. destruct (set_has (name d) (emitted st)) eqn:Hf.
  - destruct (emit_document_taken d st Hf) as [w E]. cbv zeta in E. rewrite E.
    unfold emitted_agrees.
    destruct error_raises; cbn [gstate_of glog emitted];
      (split;
       [split;
        [rewrite !emitted_files_app, emitted_files_warnings; simpl;
         rewrite app_nil_r; exact Hm
        |exact Hn]
       |eexists; reflexivity]).
  - destruct (emit_document_fresh d st Hf) as [w E]. rewrite E.
    unfold emitted_agrees. cbn [gstate_of glog emitted]. split; [split|].
    + rewrite !emitted_files_app, emitted_files_warnings. simpl.
      rewrite List.map_app. simpl. rewrite Hm. reflexivity.
    + apply set_has_not_In in Hf.
      apply NoDup_rev in Hn. rewrite <- (rev_involutive (emitted st ++ [name d])).
      apply NoDup_rev. rewrite rev_app_distr. simpl. constructor.
      * rewrite <- in_rev. exact Hf.
      * exact Hn.
    + eexists; reflexivity.
Qed.

Lemma emit_all_keeps docs st :
  emitted_agrees st ->
  emitted_agrees (gstate_of (emit_all cfg ps outputDir bundle docs st))
  /\ exists more, glog (gstate_of (emit_all cfg ps outputDir bundle docs st))
                  = glog st ++ more.
Proof.
  revert st. induction docs as [|d docs IH]; intros st Hi.
  - simpl. split; [exact Hi|]. exists []. symmetry. apply app_nil_r.
  - simpl. destruct (emit_document_keeps d st Hi) as [Hi' [more Hm]].
    destruct (emit_document cfg ps outputDir bundle d st) as [e st'|st'].
    + cbn [gstate_of] in *. split; [exact Hi'|]. exists more. exact Hm.
    + cbn [gstate_of] in Hi', Hm. destruct (IH st' Hi') as [Hi'' [more' Hm']].
      split; [exact Hi''|]. exists (more ++ more'). rewrite Hm', Hm.
      symmetry. apply app_assoc.
Qed.

(** Documents whose names are new are all emitted, in order. *)
Lemma emit_all_distinct docs rest st :
  List.NoDup (emitted st ++ List.map name docs) ->
  exists st',
    emit_all cfg ps outputDir bundle (docs ++ rest) st
    = emit_all cfg ps outputDir bundle rest st'
    /\ emitted st' = emitted st ++ List.map name docs
    /\ emitted_files (glog st') = emitted_files (glog st) ++ List.map file docs
    /\ exists more, glog st' = glog st ++ more.
Proof.
  revert st. induction docs as [|d docs IH]; intros st Hn.
  - exists st. simpl. rewrite !app_nil_r. repeat split; try reflexivity.
    exists []. symmetry. apply app_nil_r.
  - simpl in Hn.
    assert (Hf : set_has (name d) (emitted st) = false).
    { apply set_has_not_In. intros Hin.
      apply NoDup_remove_2 in Hn. apply Hn. apply in_or_app. left. exact Hin. }
    destruct (emit_document_fresh d st Hf) as [w E].
    simpl. rewrite E.
    destruct (IH {| emitted := emitted st ++ [name d];
                    glog := glog st ++ List.map CtxWarn w
                            ++ [EmitFile (name d) (snd (file d))] |})
      as [st' [E1 [E2 [E3 [more E4]]]]].
    { cbn [emitted]. rewrite <- app_assoc. simpl. exact Hn. }
    exists st'. cbn [emitted glog] in *. repeat split.
    + exact E1.
    + rewrite E2, <- app_assoc. reflexivity.
    + rewrite E3, !emitted_files_app, emitted_files_warnings. simpl.
      rewrite <- app_assoc. reflexivity.
    + eexists. rewrite E4, <- app_assoc. reflexivity.
Qed.

End EmissionFacts.

(** C3. Let the second of two documents with the same output name be the
    first document of the build whose name was already taken.  Then every
    document before it, the first of the two among them, is given to
    [emitFile] with its serialized tree, in order; no name is emitted twice,
    so the second document is not written; the collision is reported through
    [this.error] with a message that contains the name (the same for both
    documents) and the output directory; and when [this.error] raises, as the
    bundler's does, the hook ends there with exactly those files emitted. *)
Theorem collision_stops_second_document `{Host}
        (cfg : config) (ps : plugin_state) (oo : output_options)
        (outputDir : jstr) (bundle : list bundle_item)
        (pre mid post : list (jstr * doc_record)) (d1 d2 : jstr * doc_record) :
  let name := document_name cfg ps in
  let file := document_file cfg ps outputDir bundle in
  let message := collision_message outputDir (name d2) in
  output_dir oo = Some outputDir ->
  outputDir <> [] ->
  htmlData ps = pre ++ d1 :: mid ++ d2 :: post ->
  List.NoDup (List.map name (pre ++ d1 :: mid)) ->
  name d2 = name d1 ->
  let result := generateBundle cfg ps oo bundle in
  (exists later,
      emitted_files (snd result) = List.map file (pre ++ d1 :: mid) ++ later)
  /\ List.NoDup (List.map fst (emitted_files (snd result)))
  /\ (forall f, List.In f (emitted_files (snd result)) ->
                fst f = name d2 -> f = file d1)
  /\ List.In (CtxError message) (snd result)
  /\ includes (name d1) message = true
  /\ includes (name d2) message = true
  /\ includes outputDir message = true
  /\ (error_raises = true ->
      fst result = Some message
      /\ emitted_files (snd result) = List.map file (pre ++ d1 :: mid)).
Proof.
  intros name file message Hdir Hne Hdocs Hnd Hsame result.
  assert (Hmsg1 : includes (name d2) message = true).
  { unfold message, collision_message.
    do 2 apply includes_skip. apply includes_here. }
  assert (Hmsg2 : includes outputDir message = true).
  { unfold message, collision_message.
    do 6 apply includes_skip. apply includes_here. }
  unfold result, generateBundle. rewrite Hdir.
  assert (Ht : truthy_str (Some outputDir) = true).
  { destruct outputDir; [contradiction|reflexivity]. }
  rewrite Ht. cbn [to_template]. rewrite Hdocs.
  replace (pre ++ d1 :: mid ++ d2 :: post)
    with ((pre ++ d1 :: mid) ++ d2 :: post)
    by (rewrite <- app_assoc; reflexivity).
  set (st0 := {| emitted := []; glog := [] |}).
  destruct (emit_all_distinct cfg ps outputDir bundle (pre ++ d1 :: mid) (d2 :: post) st0)
    as [st1 [E1 [E2 [E3 [more1 E4]]]]].
  { exact Hnd. }
  cbn [emitted glog st0 app emitted_files] in E2, E3, E4.
  change (emitted_files (glog st1) = List.map file (pre ++ d1 :: mid)) in E3.
  change (emitted st1 = List.map name (pre ++ d1 :: mid)) in E2.
  rewrite E1. cbn [emit_all].
  assert (Hi1 : emitted_agrees st1).
  { split.
    - rewrite E3, E2. rewrite List.map_map. apply List.map_ext. reflexivity.
    - rewrite E2. exact Hnd. }
  assert (Htaken : set_has (document_name cfg ps d2) (emitted st1) = true).
  { apply set_has_In. rewrite E2. change (document_name cfg ps d2) with (name d2).
    rewrite Hsame. apply in_map. apply in_or_app. right. left. reflexivity. }
  destruct (emit_document_taken cfg ps outputDir bundle d2 st1 Htaken) as [w E].
  cbv zeta in E. change (document_name cfg ps d2) with (name d2) in E.
  fold message in E. rewrite E.
  set (st2 := {| emitted := emitted st1;
                 glog := glog st1 ++ List.map CtxWarn w ++ [CtxError message] |}).
  assert (Hi2 : emitted_agrees st2).
  { destruct Hi1 as [Ha Hb]. split; cbn [st2 emitted glog]; [|exact Hb].
    rewrite !emitted_files_app, emitted_files_warnings. simpl.
    rewrite app_nil_r. exact Ha. }
  assert (Hf2 : emitted_files (glog st2) = List.map file (pre ++ d1 :: mid)).
  { cbn [st2 glog]. rewrite !emitted_files_app, emitted_files_warnings. simpl.
    rewrite app_nil_r. exact E3. }
  assert (Hin2 : List.In (CtxError message) (glog st2)).
  { cbn [st2 glog]. apply in_or_app. right. apply in_or_app. right. left. reflexivity. }
  assert (Hd1 : List.In (file d1) (List.map file (pre ++ d1 :: mid))).
  { apply in_map. apply in_or_app. right. left. reflexivity. }
  assert (Only : forall files : list (jstr * jstr),
             List.NoDup (List.map fst files) ->
             List.In (file d1) files ->
             forall f, List.In f files -> fst f = name d2 -> f = file d1).
  { intros files Hn Hin f Hf Ef.
    apply (NoDup_keys_unique files f (file d1) Hn Hf Hin).
    rewrite Ef, Hsame. reflexivity. }
  destruct error_raises eqn:Er.
  - cbn [fst snd]. destruct Hi2 as [Ha Hb].
    split; [exists []; rewrite app_nil_r; exact Hf2|].
    split; [rewrite Ha; exact Hb|].
    split; [apply Only; [rewrite Ha; exact Hb|rewrite Hf2; exact Hd1]|].
    split; [exact Hin2|].
    split; [rewrite <- Hsame; exact Hmsg1|].
    split; [exact Hmsg1|].
    split; [exact Hmsg2|].
    intros _. split; [reflexivity|exact Hf2].
  - destruct (emit_all_keeps cfg ps outputDir bundle post st2 Hi2) as [[Ha Hb] [more Hm]].
    assert (Hsnd : snd (match emit_all cfg ps outputDir bundle post st2 with
                        | GRaised e st => (Some e, glog st)
                        | GWent st => (None, glog st)
                        end)
                   = glog (gstate_of (emit_all cfg ps outputDir bundle post st2))).
    { destruct (emit_all cfg ps outputDir bundle post st2); reflexivity. }
    rewrite Hsnd.
    assert (Hfiles : emitted_files
                       (glog (gstate_of (emit_all cfg ps outputDir bundle post st2)))
                     = List.map file (pre ++ d1 :: mid) ++ emitted_files more).
    { rewrite Hm, emitted_files_app, Hf2. reflexivity. }
    split; [exists (emitted_files more); exact Hfiles|].
    split; [rewrite Ha; exact Hb|].
    split; [apply Only; [rewrite Ha; exact Hb|
                         rewrite Hfiles; apply in_or_app; left; exact Hd1]|].
    split; [rewrite Hm; apply in_or_app; left; exact Hin2|].
    split; [rewrite <- Hsame; exact Hmsg1|].
    split; [exact Hmsg1|].
    split; [exact Hmsg2|].
    intros Habs. discriminate Habs.
Qed.

Example two_indexes_extracted :
  snd (fst (options (H := Demo.two_indexes) (make_config no_options)
                    (InArray [JStr (lit "a/index.html"); JStr (lit "b/index.html")])))
  = {| htmlData := [Demo.index_a; Demo.index_b]; isWithDest := false |}.
Proof. vm_compute. reflexivity. Qed.

Lemma collision_stops_second_document_witness :
  let result :=
    generateBundle (H := Demo.two_indexes) (make_config no_options)
                   {| htmlData := [Demo.index_a; Demo.index_b]; isWithDest := false |}
                   Demo.to_dist [] in
  fst result
  = Some (lit "HTML output filename collision: " ++ DQ ++ lit "index.html" ++ DQ
          ++ lit " in " ++ DQ ++ lit "dist" ++ DQ
          ++ lit ". Use unique input keys or 'preserveStructure: true'.")
  /\ emitted_files (snd result)
     = [(lit "index.html", lit "<html><head></head><body>Hello</body></html>")].
Proof.
  pose proof (collision_stops_second_document
                (H := Demo.two_indexes) (make_config no_options)
                {| htmlData := [Demo.index_a; Demo.index_b]; isWithDest := false |}
                Demo.to_dist (lit "dist") [] [] [] [] Demo.index_a Demo.index_b) as P.
  cbv zeta in P.
  destruct P as [_ [_ [_ [_ [_ [_ [_ P]]]]]]].
  - reflexivity.
  - discriminate.
  - reflexivity.
  - constructor; [intros []|constructor].
  - vm_compute. reflexivity.
  - destruct P as [P1 P2]; [reflexivity|].
    split; [rewrite P1|rewrite P2]; vm_compute; reflexivity.
Defined.

(** ** The rewrite pass *)

Lemma split_on_parts (c : N) (s : jstr) :
  Forall (fun w => ~ List.In c w) (split_on c s).
Proof.
  induction s as [|x s IH]; simpl.
  - constructor; [intros []|constructor].
  - destruct (N.eqb x c) eqn:E.
    + constructor; [intros []|exact IH].
    + destruct (split_on c s) as [|w ws].
      * constructor; [|constructor]. intros [E'|[]]. subst.
        rewrite N.eqb_refl in E. discriminate E.
      * inversion IH as [|? ? Hw Hws]; subst. constructor; [|exact Hws].
        intros [E'|Hin]; [|exact (Hw Hin)]. subst.
        rewrite N.eqb_refl in E. discriminate E.
Qed.

Lemma join_avoids (c : N) (sep : jstr) (parts : list jstr) :
  ~ List.In c sep ->
  Forall (fun w => ~ List.In c w) parts ->
  ~ List.In c (join sep parts).
Proof.
  intros Hs Hp. induction Hp as [|w ws Hw Hws IH]; simpl; [intros []|].
  destruct ws as [|w' ws']; [exact Hw|].
  intros Hin. apply in_app_or in Hin as [Hin|Hin]; [exact (Hw Hin)|].
  apply in_app_or in Hin as [Hin|Hin]; [exact (Hs Hin)|exact (IH Hin)].
Qed.

Section RewriteFacts.
Context `{Host}.
Variable cfg : config.
Variable ps : plugin_state.
Variable outputDir : jstr.
Variable bundle : list bundle_item.
Variable absolutePath : jstr.
Variable data : doc_record.

Lemma chunk_rel_path_relative (chunkName : jstr) :
  startsWith (lit ".") (chunk_rel_path cfg ps outputDir absolutePath data chunkName)
  || startsWith (lit "/") (chunk_rel_path cfg ps outputDir absolutePath data chunkName)
  = true.
Proof.
  unfold chunk_rel_path. cbv zeta.
  match goal with |- context [join ?a ?b] => set (rel := join a b) end.
  destruct (startsWith (lit ".") rel) eqn:E1; cbn [negb andb].
  { rewrite E1. reflexivity. }
  destruct (startsWith (lit "/") rel) eqn:E2; cbn [negb].
  { rewrite E1, E2. reflexivity. }
  reflexivity.
Qed.

Lemma rewrite_list_app visit (l1 l2 : list node) :
  fst (rewrite_list cfg ps outputDir bundle absolutePath data visit (l1 ++ l2))
  = fst (rewrite_list cfg ps outputDir bundle absolutePath data visit l1)
    ++ fst (rewrite_list cfg ps outputDir bundle absolutePath data visit l2).
Proof.
  induction l1 as [|c l1 IH]; [reflexivity|].
  simpl. destruct (visit c) as [c' below].
  destruct (rewrite_list cfg ps outputDir bundle absolutePath data visit (l1 ++ l2))
    as [rs ws].
  destruct (rewrite_list cfg ps outputDir bundle absolutePath data visit l1)
    as [rs1 ws1].
  cbn [fst] in IH. subst rs.
  destruct (is_reference c); [|reflexivity].
  destruct (resolve_reference cfg ps outputDir bundle absolutePath data c) as [[n'| |] w];
    reflexivity.
Qed.

End RewriteFacts.

(** C5. A reference node whose module identifier is found in the bundle, in
    a chunk with a file name, is replaced in the list of its siblings by a
    script node with [type="module"], no children, and as [src] the path of
    the chunk relative to the directory of the emitted document, with [/]
    for the separator of the platform and [./] in front unless it starts with
    [.] or [/].  On a POSIX host the inline module of [sub/page.html], bundled
    as [assets/a-1.js], is replaced by a script with [src="../assets/a-1.js"]
    in the document emitted as [sub/page.html]. *)
Theorem reference_replaced_by_chunk_script :
  (forall (H : Host) (cfg : config) (ps : plugin_state) (outputDir : jstr)
          (bundle : list bundle_item) (absolutePath : jstr) (data : doc_record)
          (n : node) (moduleId desc : jstr) (w : list jstr) (chunk : bundle_item),
      is_reference n = true ->
      reference_id absolutePath data n = (Some (moduleId, desc), w) ->
      moduleId <> [] ->
      find_chunk bundle moduleId = Some chunk ->
      b_fileName chunk <> [] ->
      let htmlDir :=
        path_dirname (path_resolve [outputDir; output_name cfg ps absolutePath data]) in
      let chunkPath := path_resolve [outputDir; b_fileName chunk] in
      let rel := join (lit "/") (split_on path_sep (path_relative htmlDir chunkPath)) in
      let src := if startsWith (lit ".") rel || startsWith (lit "/") rel
                 then rel else lit "./" ++ rel in
      let new := Node (lit "script") (lit "script")
                      [Attr (lit "type") (lit "module"); Attr (lit "src") src]
                      (if is_empty (namespaceURI n) then XHTML else namespaceURI n)
                      [] [] [] in
      resolve_reference cfg ps outputDir bundle absolutePath data n = (Replace new, w)
      /\ (forall visit pre post,
             fst (rewrite_list cfg ps outputDir bundle absolutePath data visit
                               (pre ++ n :: post))
             = fst (rewrite_list cfg ps outputDir bundle absolutePath data visit pre)
               ++ new
               :: fst (rewrite_list cfg ps outputDir bundle absolutePath data visit post))
      /\ startsWith (lit ".") src || startsWith (lit "/") src = true
      /\ (path_sep <> 47%N -> ~ List.In path_sep rel))
  /\ (let '(_, ps, _) :=
        options (H := Demo.sub_page) (make_config Demo.keep_structure)
                (InArray [JStr (lit "sub/page.html")]) in
      generateBundle (H := Demo.sub_page) (make_config Demo.keep_structure) ps
                     Demo.to_dist [Demo.a_chunk]
      = (None,
         [EmitFile (lit "sub/page.html")
            (Demo.show
               (Demo.page
                  [Demo.script [("type", "module"); ("src", "../assets/a-1.js")]%string ""]
                  [text_node (lit "P")]))])).
Proof.
  split; [|vm_compute; reflexivity].
  intros H cfg ps outputDir bundle absolutePath data n moduleId desc w chunk
         Href Hid Hne Hfind Hfile htmlDir chunkPath rel src new.
  assert (Hsrc : chunk_rel_path cfg ps outputDir absolutePath data (b_fileName chunk) = src).
  { unfold chunk_rel_path, src, rel, htmlDir, chunkPath. cbv zeta.
    match goal with |- context [join ?a ?b] => generalize (join a b) end.
    intros r. destruct (startsWith (lit ".") r), (startsWith (lit "/") r); reflexivity. }
  clearbody src.
  assert (Hres : resolve_reference cfg ps outputDir bundle absolutePath data n
                 = (Replace new, w)).
  { unfold resolve_reference. rewrite Hid.
    destruct moduleId as [|c m]; [contradiction|]. cbn [is_empty].
    rewrite Hfind.
    destruct (b_fileName chunk) as [|c' f] eqn:Ef; [contradiction|]. cbn [is_empty].
    unfold new_script_node. rewrite Hsrc. reflexivity. }
  split; [exact Hres|]. split; [|split].
  - intros visit pre post. rewrite rewrite_list_app. f_equal.
    simpl. destruct (visit n) as [c' below].
    destruct (rewrite_list cfg ps outputDir bundle absolutePath data visit post)
      as [rs ws].
    rewrite Href, Hres. reflexivity.
  - rewrite <- Hsrc. apply chunk_rel_path_relative.
  - intros Hsep. apply join_avoids.
    + intros [E|[]]. apply Hsep. symmetry. exact E.
    + apply split_on_parts.
Qed.

Example sub_page_extracted :
  snd (fst (options (H := Demo.sub_page) (make_config Demo.keep_structure)
                    (InArray [JStr (lit "sub/page.html")])))
  = Demo.sub_state.
Proof. vm_compute. reflexivity. Qed.

Lemma reference_replaced_by_chunk_script_witness :
  resolve_reference (H := Demo.sub_page) (make_config Demo.keep_structure)
                    Demo.sub_state (lit "dist") [Demo.a_chunk]
                    (lit "/work/sub/page.html") Demo.sub_record
                    (comment_node (placeholder_of Demo.ID0))
  = (Replace (Demo.script [("type", "module"); ("src", "../assets/a-1.js")]%string ""),
     []).
Proof.
  destruct reference_replaced_by_chunk_script as [G _].
  destruct (G Demo.sub_page (make_config Demo.keep_structure) Demo.sub_state
              (lit "dist") [Demo.a_chunk] (lit "/work/sub/page.html")
              Demo.sub_record (comment_node (placeholder_of Demo.ID0))
              Demo.ID0 (lit "inline module (index 0)") [] Demo.a_chunk) as [R _].
  - vm_compute. reflexivity.
  - vm_compute. reflexivity.
  - discriminate.
  - vm_compute. reflexivity.
  - discriminate.
  - rewrite R. vm_compute. reflexivity.
Defined.

(** ** Whitespace compression *)



Lemma collapse_true_head (s : jstr) : starts_ws (collapse_from true s) = false.
Proof.
  induction s as [|c s IH]; [reflexivity|]. simpl.
  destruct (is_space c) eqn:E; [exact IH|]. simpl. exact E.
Qed.





Lemma trimStart_head (s : jstr) : starts_ws (trimStart s) = false.
Proof.
  induction s as [|c s IH]; [reflexivity|]. simpl.
  destruct (is_space c) eqn:E; [exact IH|]. simpl. exact E.
Qed.

Lemma ends_ws_rev (s : jstr) : ends_ws s = starts_ws (rev s).
Proof.
  induction s as [|c s IH]; [reflexivity|].
  destruct s as [|d s']; [reflexivity|].
  change (ends_ws (c :: d :: s')) with (ends_ws (d :: s')). rewrite IH.
  change (rev (c :: d :: s')) with (rev (d :: s') ++ [c]).
  destruct (rev (d :: s')) eqn:Er; [|reflexivity].
  apply (f_equal (@length N)) in Er. rewrite length_rev in Er. discriminate Er.
Qed.

Lemma trimEnd_last (s : jstr) : ends_ws (trimEnd s) = false.
Proof.
  unfold trimEnd. rewrite ends_ws_rev, rev_involutive. apply trimStart_head.
Qed.

(** [trimStart] removes a prefix and [trimEnd] a suffix. *)
Lemma trimStart_suffix (s : jstr) : exists pre, s = pre ++ trimStart s.
Proof.
  induction s as [|c s [pre IH]]; [exists []; reflexivity|]. simpl.
  destruct (is_space c); [|exists []; reflexivity].
  exists (c :: pre). simpl. f_equal. exact IH.
Qed.

Lemma trimEnd_prefix (s : jstr) : exists suf, s = trimEnd s ++ suf.
Proof.
  unfold trimEnd. destruct (trimStart_suffix (rev s)) as [pre E].
  exists (rev pre). rewrite <- rev_app_distr, <- E, rev_involutive. reflexivity.
Qed.

Lemma trimEnd_starts (s : jstr) :
  trimEnd s <> [] -> starts_ws (trimEnd s) = starts_ws s.
Proof.
  intros Hn. destruct (trimEnd_prefix s) as [suf E].
  destruct (trimEnd s) as [|c r]; [contradiction|].
  rewrite E. reflexivity.
Qed.



Section TextFacts.
Context `{Host}.
Variable cfg : config.
Variable absolutePath doc_src : jstr.


Lemma traverse_text (p : pctx) (n : node) (st : xstate) :
  compressWhitespace cfg = true ->
  nodeName n = lit "#text" ->
  childNodes n = [] ->
  traverse cfg absolutePath doc_src (Some p) n st
  = match compress_text (Some p) (value n) with
    | None => Ret None st
    | Some t => Ret (Some (set_value t n)) st
    end.
Proof.
  intros Hc Hn Hk. unfold traverse. rewrite traverse_ov_unfold. cbv zeta.
  rewrite Hn, Hc, Hk. cbn [default set_value value].
  change (eqs (lit "#text") (lit "#comment")) with false.
  change (eqs (lit "#text") (lit "style")) with false.
  change (eqs (lit "#text") (lit "script")) with false.
  change (eqs (lit "#text") (lit "#text")) with true.
  change (eqs (lit "#text") (lit "template")) with false.
  cbn [andb]. destruct (compress_text (Some p) (value n)) as [t|]; [|reflexivity].
  cbn [visit_children length]. unfold set_value. rewrite Hn, Hk. reflexivity.
Qed.

End TextFacts.



(** ** Style nodes *)

Lemma set_value_same (n : node) : set_value (value n) n = n.
Proof. destruct n; reflexivity. Qed.

Section StyleFacts.
Context `{Host}.
Variable cfg : config.
Variable absolutePath doc_src : jstr.

Lemma text_leaf_under_style (c : node) (ov : option jstr) (len i : nat) (st : xstate) :
  is_text_leaf c = true ->
  traverse_ov cfg absolutePath doc_src
              (Some {| p_nodeName := lit "style"; p_length := len; p_index := i |})
              ov c st
  = Ret (Some (set_value (default (value c) ov) c)) st.
Proof.
  intros Hl. apply andb_true_iff in Hl as [Hn Hk].
  apply eqs_spec in Hn. apply is_empty_list_spec in Hk.
  rewrite traverse_ov_unfold. cbv zeta. rewrite Hn, Hk.
  change (eqs (lit "#text") (lit "#comment")) with false.
  change (eqs (lit "#text") (lit "style")) with false.
  change (eqs (lit "#text") (lit "script")) with false.
  change (eqs (lit "#text") (lit "#text")) with true.
  change (eqs (lit "#text") (lit "template")) with false.
  cbn [andb].
  assert (E : (if compressWhitespace cfg
               then compress_text
                      (Some {| p_nodeName := lit "style"; p_length := len; p_index := i |})
                      (value (set_value (default (value c) ov) c))
               else Some (value (set_value (default (value c) ov) c)))
              = Some (default (value c) ov)).
  { destruct (compressWhitespace cfg); reflexivity. }
  rewrite E. cbn [visit_children length]. unfold set_value. rewrite Hn, Hk.
  reflexivity.
Qed.

Lemma visit_text_leaves (kids : list node) (len i : nat) (st : xstate) :
  forallb is_text_leaf kids = true ->
  visit_children (traverse_ov cfg absolutePath doc_src) (lit "style") len i None kids st
  = Ret kids st.
Proof.
  revert i. induction kids as [|c kids IH]; intros i Hl; [reflexivity|].
  cbn [forallb] in Hl. apply andb_true_iff in Hl as [Hc Hr].
  cbn [visit_children]. rewrite text_leaf_under_style by exact Hc.
  rewrite IH by exact Hr. cbn [default]. rewrite set_value_same. reflexivity.
Qed.

Lemma traverse_style (p : option pctx) (n : node) (st : xstate) :
  nodeName n = lit "style" ->
  forallb is_text_leaf (childNodes n) = true ->
  traverse cfg absolutePath doc_src p n st
  = if is_not_false (lightningcss_minify cfg) then
      if is_empty (getTextContent n) then Ret None st
      else match lightningTransform absolutePath (getTextContent n) with
           | Returned out => Ret (Some (setTextContent n out)) st
           | Thrown e =>
               Ret (Some n)
                   (say (ConsoleError
                           (LOG_TAG ++ lit "LightningCSS error in inline style ("
                            ++ doc_src ++ lit "): " ++ e)) st)
           end
    else Ret (Some n) st.
Proof.
  intros Hn Hl. unfold traverse. rewrite traverse_ov_unfold. cbv zeta.
  rewrite Hn. cbn [default].
  change (eqs (lit "style") (lit "#comment")) with false.
  change (eqs (lit "style") (lit "style")) with true.
  change (eqs (lit "style") (lit "script")) with false.
  change (eqs (lit "style") (lit "#text")) with false.
  change (eqs (lit "style") (lit "template")) with false.
  cbn [andb]. rewrite set_value_same.
  destruct (is_not_false (lightningcss_minify cfg)).
  - unfold style_step.
    destruct (is_empty (getTextContent n)) eqn:Ee; [reflexivity|].
    destruct (lightningTransform absolutePath (getTextContent n)) as [out|e].
    + unfold getTextContent in Ee. unfold setTextContent.
      destruct (childNodes n) as [|c rest] eqn:Ek; [discriminate Ee|].
      destruct (eqs (nodeName c) (lit "#text")) eqn:Ec; [|discriminate Ee].
      cbn [forallb] in Hl. apply andb_true_iff in Hl as [Hc Hr].
      cbn [visit_children]. rewrite text_leaf_under_style by exact Hc.
      rewrite visit_text_leaves by exact Hr. cbn [default].
      unfold set_childNodes. rewrite Hn. reflexivity.
    + rewrite visit_text_leaves by exact Hl.
      rewrite <- Hn. destruct n; reflexivity.
  - rewrite visit_text_leaves by exact Hl.
    rewrite <- Hn. destruct n; reflexivity.
Qed.

Lemma getTextContent_set (n : node) (out : jstr) :
  getTextContent (setTextContent n out) = out.
Proof.
  unfold setTextContent. destruct (childNodes n) as [|c rest] eqn:Ek.
  - destruct n; reflexivity.
  - destruct (eqs (nodeName c) (lit "#text")) eqn:Ec.
    + unfold getTextContent, set_childNodes. cbn [childNodes set_value nodeName value].
      rewrite Ec. reflexivity.
    + destruct n; reflexivity.
Qed.

End StyleFacts.

Lemma minify_enabled (o : plugin_options) :
  is_not_false (lightningcss_minify (make_config o)) = false
  <-> opt_lightningcss_minify o = Some (JBool false).
Proof.
  cbn [make_config lightningcss_minify].
  destruct (opt_lightningcss_minify o) as [[| |[|]| | |]|]; simpl; split; intros E;
    try discriminate; try reflexivity.
Qed.

(** C7, as the source has it.  The branch of a style node is entered only
    when [config.lightningcss.minify] is not [false].  Then a style node
    without text is removed; one with text gets the text returned by the
    style transform; and when the transform raises, the node stays as it was,
    the error goes to the console and the traversal goes on.  When the option
    is [false], a style node stays as it was, with or without text. *)
Theorem style_nodes_unless_minify_is_false `{Host}
        (o : plugin_options) (absolutePath doc_src : jstr)
        (p : option pctx) (n : node) (st : xstate) :
  nodeName n = lit "style" ->
  forallb is_text_leaf (childNodes n) = true ->
  let cfg := make_config o in
  let css := getTextContent n in
  (opt_lightningcss_minify o <> Some (JBool false) ->
   (css = [] -> traverse cfg absolutePath doc_src p n st = Ret None st)
   /\ (forall out,
         css <> [] -> lightningTransform absolutePath css = Returned out ->
         traverse cfg absolutePath doc_src p n st = Ret (Some (setTextContent n out)) st
         /\ getTextContent (setTextContent n out) = out)
   /\ (forall e,
         css <> [] -> lightningTransform absolutePath css = Thrown e ->
         traverse cfg absolutePath doc_src p n st
         = Ret (Some n)
               (say (ConsoleError (LOG_TAG ++ lit "LightningCSS error in inline style ("
                                   ++ doc_src ++ lit "): " ++ e)) st)))
  /\ (opt_lightningcss_minify o = Some (JBool false) ->
      traverse cfg absolutePath doc_src p n st = Ret (Some n) st).
Proof.
  intros Hn Hl cfg css.
  pose proof (traverse_style cfg absolutePath doc_src p n st Hn Hl) as T.
  fold css in T. split.
  - intros Hon.
    assert (E : is_not_false (lightningcss_minify cfg) = true).
    { destruct (is_not_false (lightningcss_minify cfg)) eqn:E; [reflexivity|].
      apply minify_enabled in E. contradiction. }
    rewrite E in T. split; [|split].
    + intros Hc. rewrite T, Hc. reflexivity.
    + intros out Hc Ht. split; [|apply getTextContent_set].
      rewrite T, Ht. destruct css; [contradiction|reflexivity].
    + intros e Hc Ht. rewrite T, Ht. destruct css; [contradiction|reflexivity].
  - intros Hoff. apply minify_enabled in Hoff. fold cfg in Hoff.
    rewrite Hoff in T. exact T.
Qed.

Lemma style_nodes_unless_minify_is_false_witness :
  traverse (H := Demo.styled_page) (make_config no_options)
           (lit "/work/index.html") (lit "index.html")
           (Some {| p_nodeName := lit "head"; p_length := 1; p_index := 0 |})
           (Demo.style "a { color: red }")
           {| rollupHtml := []; inlineModules := []; xlog := [] |}
  = Ret (Some (Demo.style "a{color:red}"))
        {| rollupHtml := []; inlineModules := []; xlog := [] |}.
Proof.
  destruct (style_nodes_unless_minify_is_false
              (H := Demo.styled_page) no_options
              (lit "/work/index.html") (lit "index.html")
              (Some {| p_nodeName := lit "head"; p_length := 1; p_index := 0 |})
              (Demo.style "a { color: red }")
              {| rollupHtml := []; inlineModules := []; xlog := [] |})
    as [P _].
  - reflexivity.
  - reflexivity.
  - destruct P as [_ [P _]]; [discriminate|].
    destruct (P (lit "a{color:red}")) as [P1 _].
    + discriminate.
    + reflexivity.
    + rewrite P1. reflexivity.
Defined.

(** The claim C7 as it was stated fails when the option is [false]: a style
    node without text is kept, and one with text keeps its text although the
    transform would have returned another. *)
Lemma style_kept_when_minify_is_false :
  let cfg := make_config Demo.no_css_minify in
  let p := Some {| p_nodeName := lit "head"; p_length := 1; p_index := 0 |} in
  let st := {| rollupHtml := []; inlineModules := []; xlog := [] |} in
  getTextContent (Demo.style "") = []
  /\ traverse (H := Demo.styled_page) cfg (lit "/work/index.html") (lit "index.html")
              p (Demo.style "") st
     = Ret (Some (Demo.style "")) st
  /\ Demo.squeeze (getTextContent (Demo.style "a { color: red }"))
     = Returned (lit "a{color:red}")
  /\ traverse (H := Demo.styled_page) cfg (lit "/work/index.html") (lit "index.html")
              p (Demo.style "a { color: red }") st
     = Ret (Some (Demo.style "a { color: red }")) st.
Proof. vm_compute. repeat split; reflexivity. Qed.

(** ** The keys of the entries *)

Lemma obj_has_In {V : Type} (k : jstr) (o : list (jstr * V)) :
  obj_has k o = true <-> List.In k (List.map fst o).
Proof.
  unfold obj_has. rewrite existsb_exists. split.
  - intros [[k' v] [Hin E]]. apply eqs_spec in E. cbn in E. subst.
    apply in_map_iff. exists (k, v). split; [reflexivity|exact Hin].
  - intros Hin. apply in_map_iff in Hin as [[k' v] [E Hin]]. cbn in E. subst.
    exists (k, v). split; [exact Hin|apply eqs_refl].
Qed.

Lemma obj_set_fresh {V : Type} (k : jstr) (v : V) (o : list (jstr * V)) :
  obj_has k o = false -> obj_set k v o = o ++ [(k, v)].
Proof.
  induction o as [|[k' v'] o IH]; intros Hf; [reflexivity|].
  cbn in Hf. apply orb_false_iff in Hf as [Hk Ho].
  simpl. rewrite Hk. f_equal. apply IH. exact Ho.
Qed.

Lemma obj_set_keys {V : Type} (k : jstr) (v : V) (o : list (jstr * V)) :
  List.map fst (obj_set k v o)
  = if obj_has k o then List.map fst o else List.map fst o ++ [k].
Proof.
  induction o as [|[k' v'] o IH]; [reflexivity|].
  simpl. unfold obj_has. cbn [existsb fst]. destruct (eqs k' k) eqn:E; [reflexivity|].
  simpl. rewrite IH. unfold obj_has. destruct (existsb _ o); reflexivity.
Qed.

Lemma NoDup_snoc {A : Type} (l : list A) (x : A) :
  List.NoDup l -> ~ List.In x l -> List.NoDup (l ++ [x]).
Proof.
  intros Hn Hx. rewrite <- (rev_involutive (l ++ [x])). apply NoDup_rev.
  rewrite rev_app_distr. simpl. constructor.
  - rewrite <- in_rev. exact Hx.
  - apply NoDup_rev. exact Hn.
Qed.

Lemma obj_set_NoDup {V : Type} (k : jstr) (v : V) (o : list (jstr * V)) :
  List.NoDup (List.map fst o) -> List.NoDup (List.map fst (obj_set k v o)).
Proof.
  intros Hn. rewrite obj_set_keys. destruct (obj_has k o) eqn:E; [exact Hn|].
  apply NoDup_snoc; [exact Hn|]. intros Hin. apply obj_has_In in Hin. congruence.
Qed.

Lemma obj_spread_NoDup {V : Type} (o : list (jstr * V)) :
  List.NoDup (List.map fst (obj_spread o)).
Proof.
  unfold obj_spread.
  assert (G : forall acc : list (jstr * V),
             List.NoDup (List.map fst acc) ->
             List.NoDup (List.map fst
               (fold_left (fun acc kv => obj_set (fst kv) (snd kv) acc) o acc))).
  { induction o as [|kv o IH]; intros acc Ha; [exact Ha|].
    simpl. apply IH. apply obj_set_NoDup. exact Ha. }
  apply G. constructor.
Qed.



Section KeyFacts.
Context `{Host}.

Lemma entry_hash_alnum (entry : jstr) : Forall (fun c => is_alnum c = true) (entry_hash entry).
Proof.
  unfold entry_hash. apply List.Forall_forall. intros c Hin.
  assert (Hin' : List.In c (List.filter is_alnum (sha256_base64url entry))).
  { rewrite <- (firstn_skipn 20 (List.filter is_alnum (sha256_base64url entry))).
    apply in_or_app. left. exact Hin. }
  apply filter_In in Hin' as [_ Hc]. exact Hc.
Qed.




End KeyFacts.





(** ** Inline modules *)

Lemma node_induction (P : node -> Prop) :
  (forall name tag ats ns val kids tmpl,
      Forall P kids -> Forall P tmpl -> P (Node name tag ats ns val kids tmpl)) ->
  forall n, P n.
Proof.
  intros HP. fix IH 1. intros [name tag ats ns val kids tmpl]. apply HP.
  - induction kids as [|c kids IHk]; constructor; [apply IH|exact IHk].
  - induction tmpl as [|c tmpl IHt]; constructor; [apply IH|exact IHt].
Qed.

Lemma findNodes_unfold (pred : node -> bool) (n : node) :
  findNodes pred n
  = (if pred n then [n] else [])
    ++ flat_map (findNodes pred) (childNodes n)
    ++ (if eqs (nodeName n) (lit "template")
        then flat_map (findNodes pred) (content n) else []).
Proof. destruct n; reflexivity. Qed.

Lemma findNodes_text_leaves (pred : node -> bool) (kids : list node) :
  (forall c, nodeName c = lit "#text" -> pred c = false) ->
  forallb is_text_leaf kids = true ->
  flat_map (findNodes pred) kids = [].
Proof.
  intros Hp. induction kids as [|c kids IH]; intros Hl; [reflexivity|].
  cbn [forallb] in Hl. apply andb_true_iff in Hl as [Hc Hr].
  cbn [flat_map]. rewrite IH by exact Hr. rewrite app_nil_r.
  apply andb_true_iff in Hc as [Hn Hk].
  apply eqs_spec in Hn. apply is_empty_list_spec in Hk.
  rewrite findNodes_unfold, Hk, Hn, (Hp c Hn). reflexivity.
Qed.



Section ModuleFacts.
Context `{Host}.
Variable cfg : config.
Variable absolutePath doc_src : jstr.


Lemma findNodes_nil_parts (pred : node -> bool) (n : node) :
  findNodes pred n = [] ->
  pred n = false
  /\ flat_map (findNodes pred) (childNodes n) = []
  /\ (eqs (nodeName n) (lit "template") = true ->
      flat_map (findNodes pred) (content n) = []).
Proof.
  rewrite findNodes_unfold. intros E.
  apply app_eq_nil in E as [E0 E]. apply app_eq_nil in E as [Ek Et].
  split; [destruct (pred n); [discriminate E0|reflexivity]|].
  split; [exact Ek|]. intros Hn. rewrite Hn in Et. exact Et.
Qed.

Lemma holds_text_only_not_template (name : jstr) :
  holds_text_only name = true -> eqs name (lit "template") = false.
Proof.
  unfold holds_text_only. cbn [existsb]. intros E.
  destruct (eqs name (lit "template")) eqn:Et; [|reflexivity].
  apply eqs_spec in Et. subst name. discriminate E.
Qed.

Lemma findNodes_skipped (pred : node -> bool) (n : node) :
  holds_text_only (nodeName n) = true ->
  forallb is_text_leaf (childNodes n) = true ->
  (forall c, nodeName c = lit "#text" -> pred c = false) ->
  findNodes pred n = if pred n then [n] else [].
Proof.
  intros Hh Hl Hp. rewrite findNodes_unfold.
  rewrite (findNodes_text_leaves pred _ Hp Hl).
  rewrite (holds_text_only_not_template _ Hh). rewrite app_nil_r. reflexivity.
Qed.





End ModuleFacts.





(** ** The two loops of [generateBundle] act on the nodes that [findNodes] collects *)

Section LoopFacts.
Context `{Host}.
Variable cfg : config.
Variable ps : plugin_state.
Variable outputDir : jstr.
Variable bundle : list bundle_item.
Variable absolutePath : jstr.
Variable data : doc_record.

Lemma rewrite_list_idle (kids : list node) :
  Forall (fun n => findNodes is_reference n = [] ->
                   rewrite_node cfg ps outputDir bundle absolutePath data n = (n, []))
         kids ->
  flat_map (findNodes is_reference) kids = [] ->
  rewrite_list cfg ps outputDir bundle absolutePath data
               (rewrite_node cfg ps outputDir bundle absolutePath data) kids
  = (kids, []).
Proof.
  induction 1 as [|c kids Hc Hkids IH]; intros Hf; [reflexivity|].
  cbn [flat_map] in Hf. apply app_eq_nil in Hf as [Hf1 Hf2].
  cbn [rewrite_list]. rewrite (Hc Hf1), (IH Hf2).
  apply findNodes_nil_parts in Hf1 as [Hr _]. rewrite Hr. reflexivity.
Qed.

(** A document without reference nodes is left as it is, silently. *)
Lemma rewrite_node_idle (n : node) :
  findNodes is_reference n = [] ->
  rewrite_node cfg ps outputDir bundle absolutePath data n = (n, []).
Proof.
  induction n as [name tag ats ns val kids tmpl IHk IHt] using node_induction.
  intros Hf. apply findNodes_nil_parts in Hf as [_ [Hk Ht]].
  cbn [childNodes content nodeName] in Hk, Ht.
  cbn [rewrite_node]. rewrite (rewrite_list_idle kids IHk Hk).
  destruct (eqs name (lit "template")) eqn:E; [|reflexivity].
  rewrite (rewrite_list_idle tmpl IHt (Ht eq_refl)). reflexivity.
Qed.

Lemma rewrite_root_idle (ast : node) :
  findNodes is_reference ast = [] ->
  rewrite_root cfg ps outputDir bundle absolutePath data ast = (ast, []).
Proof.
  intros Hf. unfold rewrite_root. rewrite (rewrite_node_idle ast Hf).
  apply findNodes_nil_parts in Hf as [Hr _]. rewrite Hr. reflexivity.
Qed.

Lemma minify_list_idle (kids : list node) :
  Forall (fun n => findNodes is_inline_script n = [] -> minify_node data n = (n, []))
         kids ->
  flat_map (findNodes is_inline_script) kids = [] ->
  minify_list (minify_node data) kids = (kids, []).
Proof.
  induction 1 as [|c kids Hc Hkids IH]; intros Hf; [reflexivity|].
  cbn [flat_map] in Hf. apply app_eq_nil in Hf as [Hf1 Hf2].
  cbn [minify_list]. rewrite (Hc Hf1), (IH Hf2). reflexivity.
Qed.

(** A document without inline classic scripts is not touched by the
    minifier. *)
Lemma minify_node_idle (n : node) :
  findNodes is_inline_script n = [] -> minify_node data n = (n, []).
Proof.
  induction n as [name tag ats ns val kids tmpl IHk IHt] using node_induction.
  intros Hf. apply findNodes_nil_parts in Hf as [Hs [Hk Ht]].
  cbn [childNodes content nodeName] in Hk, Ht.
  cbn [minify_node]. rewrite Hs. cbn [andb].
  rewrite (minify_list_idle kids IHk Hk).
  destruct (eqs name (lit "template")) eqn:E; [|reflexivity].
  rewrite (minify_list_idle tmpl IHt (Ht eq_refl)). reflexivity.
Qed.

End LoopFacts.

(** ** The token of a placeholder is read back by the rewrite pass *)

Lemma dec_fuel_digits (fuel : nat) (n : N) (acc : jstr) :
  Forall (fun c => is_digit c = true) acc ->
  Forall (fun c => is_digit c = true) (dec_fuel fuel n acc).
Proof.
  revert n acc. induction fuel as [|fuel IH]; intros n acc Ha; [exact Ha|].
  cbn [dec_fuel].
  assert (Hd : is_digit (digit (n mod 10)) = true).
  { pose proof (N.mod_upper_bound n 10 ltac:(discriminate)) as Hb.
    unfold is_digit, digit. revert Hb. generalize (n mod 10)%N. intros m Hb.
    apply andb_true_iff. split; apply N.leb_le; lia. }
  destruct (n <? 10)%N; [|apply IH]; constructor; assumption.
Qed.

Lemma dec_digits (n : N) : Forall (fun c => is_digit c = true) (dec n).
Proof. apply dec_fuel_digits. constructor. Qed.

Lemma dec_fuel_not_nil (fuel : nat) (n : N) (acc : jstr) :
  acc <> [] -> dec_fuel fuel n acc <> [].
Proof.
  revert n acc. induction fuel as [|fuel IH]; intros n acc Ha; [exact Ha|].
  cbn [dec_fuel]. destruct (n <? 10)%N; [discriminate|]. apply IH. discriminate.
Qed.

Lemma dec_not_nil (n : N) : dec n <> [].
Proof.
  unfold dec. cbn [dec_fuel]. destruct (n <? 10)%N; [discriminate|].
  apply dec_fuel_not_nil. discriminate.
Qed.

Lemma span_app (f : N -> bool) (a b : jstr) :
  Forall (fun c => f c = true) a ->
  starts_with_none f b ->
  span f (a ++ b) = (a, b).
Proof.
  intros Ha Hb. induction Ha as [|c a Hc Ha IH]; cbn [app span].
  - destruct b as [|d b]; [reflexivity|]. cbn in Hb. cbn [span]. rewrite Hb.
    reflexivity.
  - rewrite Hc, IH. reflexivity.
Qed.

(** The comment left for the i-th inline module of a document (a script
    without [src] attribute) is parsed back to the identifier of the
    module. *)
Lemma placeholder_round_trip (i : nat) :
  match_placeholder (placeholder_of (virtual_id None i)) = Some (virtual_id None i).
Proof.
  assert (E : match_here (placeholder_of (virtual_id None i))
              = Some (virtual_id None i)).
  { unfold match_here, placeholder_of, virtual_id. cbn [to_template].
    set (d := dec (N.of_nat i)).
    set (head := PLACEHOLDER_PREFIX ++ INLINE_MODULE_PREFIX).
    replace (PLACEHOLDER_PREFIX
             ++ (INLINE_MODULE_PREFIX ++ lit "undefined" ++ lit "?index=" ++ d)
             ++ lit "__")
      with (head ++ lit "undefined" ++ lit "?index=" ++ d ++ lit "__")
      by (unfold head; rewrite <- !app_assoc; reflexivity).
    rewrite startsWith_app. rewrite drop_app_length.
    change (span (fun c => negb (N.eqb c 63))
                 (lit "undefined" ++ lit "?index=" ++ d ++ lit "__"))
      with (lit "undefined", lit "?index=" ++ d ++ lit "__").
    cbn [is_empty lit]. rewrite startsWith_app.
    change (drop 7 (lit "?index=" ++ d ++ lit "__")) with (d ++ lit "__").
    rewrite (span_app is_digit d (lit "__") (dec_digits _)) by reflexivity.
    pose proof (dec_not_nil (N.of_nat i)) as Hn. fold d in Hn.
    destruct d as [|c d']; [contradiction|]. reflexivity. }
  destruct (placeholder_of (virtual_id None i)) eqn:Ev; cbn [match_placeholder];
    rewrite E; reflexivity.
Qed.

(** * Further properties of the code *)

(** ** The tree utilities *)

Lemma in_flat_map_findNodes (pred : node -> bool) (kids : list node) (x : node) :
  List.In x (flat_map (findNodes pred) kids)
  <-> exists c, List.In c kids /\ List.In x (findNodes pred c).
Proof. apply in_flat_map. Qed.

Lemma findNodes_sound (pred : node -> bool) (n : node) :
  forall x, List.In x (findNodes pred n) -> within n x /\ pred x = true.
Proof.
  induction n as [name tag ats ns val kids tmpl IHk IHt] using node_induction.
  intros x Hin. rewrite findNodes_unfold in Hin.
  cbn [nodeName childNodes content] in Hin.
  apply in_app_or in Hin as [Hin|Hin].
  - destruct (pred (Node name tag ats ns val kids tmpl)) eqn:Ep; [|destruct Hin].
    destruct Hin as [E|[]]. subst x. split; [apply within_self|exact Ep].
  - apply in_app_or in Hin as [Hin|Hin].
    + apply in_flat_map in Hin as [c [Hc Hx]].
      rewrite List.Forall_forall in IHk. destruct (IHk c Hc x Hx) as [Hw Hp].
      split; [|exact Hp]. apply (within_child _ c); [exact Hc|exact Hw].
    + destruct (eqs name (lit "template")) eqn:Et; [|destruct Hin].
      apply eqs_spec in Et.
      apply in_flat_map in Hin as [c [Hc Hx]].
      rewrite List.Forall_forall in IHt. destruct (IHt c Hc x Hx) as [Hw Hp].
      split; [|exact Hp]. apply (within_content _ c); [exact Et|exact Hc|exact Hw].
Qed.

Lemma findNodes_complete (pred : node -> bool) (n x : node) :
  within n x -> pred x = true -> List.In x (findNodes pred n).
Proof.
  intros Hw Hp. induction Hw as [n|n c x Hc Hw IH|n c x Hn Hc Hw IH];
    rewrite findNodes_unfold.
  - rewrite Hp. left. reflexivity.
  - apply in_or_app. right. apply in_or_app. left.
    apply in_flat_map. exists c. split; [exact Hc|exact (IH Hp)].
  - apply in_or_app. right. apply in_or_app. right.
    rewrite Hn. change (eqs (lit "template") (lit "template")) with true.
    apply in_flat_map. exists c. split; [exact Hc|exact (IH Hp)].
Qed.

(** X1. [findNodes] returns exactly the nodes that satisfy the predicate
    among the root and everything below it (children, and the content of
    templates, but not the content of other nodes); and when the root
    satisfies the predicate it comes first. *)
Theorem findNodes_finds_exactly (pred : node -> bool) (n x : node) :
  (List.In x (findNodes pred n) <-> within n x /\ pred x = true)
  /\ (pred n = true -> exists rest, findNodes pred n = n :: rest).
Proof.
  split.
  - split; [apply findNodes_sound|].
    intros [Hw Hp]. apply findNodes_complete; assumption.
  - intros Hp. rewrite findNodes_unfold, Hp. eexists. reflexivity.
Qed.

Lemma findNodes_finds_exactly_witness :
  List.In (text_node (lit "Hello"))
          (findNodes (fun n => eqs (nodeName n) (lit "#text")) Demo.plain_html).
Proof.
  apply (proj1 (findNodes_finds_exactly
                  (fun n => eqs (nodeName n) (lit "#text"))
                  Demo.plain_html (text_node (lit "Hello")))).
  split; [|reflexivity].
  apply (within_child _ (element (lit "html") []
                           [element (lit "head") [] [];
                            element (lit "body") [] [text_node (lit "Hello")]]));
    [left; reflexivity|].
  apply (within_child _ (element (lit "body") [] [text_node (lit "Hello")]));
    [right; left; reflexivity|].
  apply (within_child _ (text_node (lit "Hello"))); [left; reflexivity|].
  apply within_self.
Defined.

(** X2. [setTextContent] and [getTextContent] agree: the text that was set is
    the text that is read; setting twice is setting the last text; the name
    and the attributes of the node stay; and the children that were there
    stay behind the text, all of them when the first was not a text node,
    all but the first when it was. *)
Theorem setTextContent_then_getTextContent (n : node) (a b : jstr) :
  getTextContent (setTextContent n a) = a
  /\ setTextContent (setTextContent n a) b = setTextContent n b
  /\ nodeName (setTextContent n a) = nodeName n
  /\ attrs (setTextContent n a) = attrs n
  /\ tl (childNodes (setTextContent n a))
     = match childNodes n with
       | c :: rest => if eqs (nodeName c) (lit "#text") then rest else c :: rest
       | [] => []
       end.
Proof.
  destruct n as [name tag ats ns val kids tmpl].
  unfold setTextContent, getTextContent. cbn [childNodes].
  destruct kids as [|c rest].
  - repeat split; reflexivity.
  - destruct (eqs (nodeName c) (lit "#text")) eqn:Ec.
    + unfold set_childNodes. cbn [childNodes nodeName tagName attrs namespaceURI
                                   value content set_value tl].
      rewrite Ec. repeat split; reflexivity.
    + repeat split; reflexivity.
Qed.

(** ** The [resolveId] and [load] hooks *)

Lemma find_module_some (id : jstr) (docs : list (jstr * doc_record)) (m : inline_module) :
  find_module id docs = Some m ->
  virtualId m = id
  /\ exists abs data, List.In (abs, data) docs /\ List.In m (d_inlineModules data).
Proof.
  induction docs as [|[abs data] docs IH]; [discriminate|].
  cbn [find_module].
  destruct (List.find (fun m => eqs (virtualId m) id) (d_inlineModules data))
    as [m'|] eqn:Ef.
  - intros E. inversion E; subst m'. apply find_some in Ef as [Hin He].
    apply eqs_spec in He. split; [exact He|].
    exists abs, data. split; [left; reflexivity|exact Hin].
  - intros E. destruct (IH E) as [He [abs' [data' [Hd Hm]]]].
    split; [exact He|]. exists abs', data'. split; [right; exact Hd|exact Hm].
Qed.

Lemma find_module_none (id : jstr) (docs : list (jstr * doc_record)) :
  find_module id docs = None ->
  forall abs data m,
    List.In (abs, data) docs -> List.In m (d_inlineModules data) -> virtualId m <> id.
Proof.
  induction docs as [|[abs0 data0] docs IH]; intros E abs data m Hd Hm; [destruct Hd|].
  cbn [find_module] in E.
  destruct (List.find (fun m => eqs (virtualId m) id) (d_inlineModules data0))
    as [m'|] eqn:Ef; [discriminate E|].
  destruct Hd as [Hd|Hd].
  - inversion Hd; subst. intros He.
    pose proof (find_none _ _ Ef m Hm) as Hn. cbn in Hn.
    rewrite He, eqs_refl in Hn. discriminate Hn.
  - exact (IH E abs data m Hd Hm).
Qed.

(** X3. [load] and [resolveId] agree.  An identifier that [resolveId] does not
    claim gets no content; a claimed one is returned as it is and gets
    content or the internal error.  The content is the constant of the
    no-op entry or the code of a record with that identifier in some stored
    document; every stored record whose identifier has the inline prefix can
    be loaded; and the internal error is reported only for an identifier with
    the prefix that no stored record has. *)
Theorem load_answers_what_resolveId_claims (ps : plugin_state) (id : jstr) :
  (resolveId id = None -> load ps id = LoadNull)
  /\ (forall r, resolveId id = Some r -> r = id /\ load ps id <> LoadNull)
  /\ (forall c, load ps id = Loaded c ->
                (id = NOOP_IMPORT_ID /\ c = lit "/* Rollup Plugin HTML: NOOP */")
                \/ exists abs data m,
                    List.In (abs, data) (htmlData ps)
                    /\ List.In m (d_inlineModules data)
                    /\ virtualId m = id /\ code m = c)
  /\ (forall abs data m,
         List.In (abs, data) (htmlData ps) ->
         List.In m (d_inlineModules data) ->
         startsWith INLINE_MODULE_PREFIX (virtualId m) = true ->
         exists c, load ps (virtualId m) = Loaded c)
  /\ (forall msg, load ps id = LoadError msg ->
                  startsWith INLINE_MODULE_PREFIX id = true
                  /\ forall abs data m,
                      List.In (abs, data) (htmlData ps) ->
                      List.In m (d_inlineModules data) -> virtualId m <> id).
Proof.
  unfold resolveId, load. split; [|split; [|split; [|split]]].
  - destruct (eqs id NOOP_IMPORT_ID); [discriminate|].
    destruct (startsWith INLINE_MODULE_PREFIX id); [discriminate|reflexivity].
  - intros r E. destruct (eqs id NOOP_IMPORT_ID); cbn [orb] in E |- *.
    + inversion E. split; [reflexivity|intros Hn; discriminate Hn].
    + destruct (startsWith INLINE_MODULE_PREFIX id); [|discriminate E].
      inversion E. split; [reflexivity|].
      destruct (find_module r (htmlData ps)); intros Hn; discriminate Hn.
  - intros c E. destruct (eqs id NOOP_IMPORT_ID) eqn:En.
    + left. apply eqs_spec in En. inversion E. split; [exact En|reflexivity].
    + destruct (startsWith INLINE_MODULE_PREFIX id); [|discriminate E].
      destruct (find_module id (htmlData ps)) as [m|] eqn:Ef; [|discriminate E].
      inversion E; subst c. right.
      destruct (find_module_some _ _ _ Ef) as [He [abs [data [Hd Hm]]]].
      exists abs, data, m. repeat split; assumption.
  - intros abs data m Hd Hm Hp. rewrite Hp.
    destruct (eqs (virtualId m) NOOP_IMPORT_ID); [eexists; reflexivity|].
    destruct (find_module (virtualId m) (htmlData ps)) as [m'|] eqn:Ef;
      [eexists; reflexivity|].
    exfalso. exact (find_module_none _ _ Ef abs data m Hd Hm eq_refl).
  - intros msg E. destruct (eqs id NOOP_IMPORT_ID); [discriminate E|].
    destruct (startsWith INLINE_MODULE_PREFIX id); [|discriminate E].
    split; [reflexivity|].
    destruct (find_module id (htmlData ps)) as [m'|] eqn:Ef; [discriminate E|].
    exact (find_module_none _ _ Ef).
Qed.

Lemma load_answers_what_resolveId_claims_witness :
  exists c, load Demo.sub_state Demo.ID0 = Loaded c.
Proof.
  destruct (load_answers_what_resolveId_claims Demo.sub_state Demo.ID0)
    as [_ [_ [_ [P _]]]].
  apply (P (lit "/work/sub/page.html") Demo.sub_record
           {| virtualId := Demo.ID0; code := lit "a()";
              placeholder := placeholder_of Demo.ID0 |}).
  - left. reflexivity.
  - left. reflexivity.
  - reflexivity.
Defined.

(** ** What [traverse] does outside the tree *)

Section TraverseSteps.
Context `{Host}.
Variable cfg : config.
Variable absolutePath doc_src : jstr.

(** A relation between states that holds across the two writes of
    [traverse] and is reflexive and transitive holds across [traverse]. *)
Variable P : xstate -> xstate -> Prop.
Hypothesis P_refl : forall st, P st st.
Hypothesis P_trans : forall a b c, P a b -> P b c -> P a c.
Hypothesis P_say : forall st m, P st (say (ConsoleError (LOG_TAG ++ m)) st).
Hypothesis P_module :
  forall st src text,
    src = None \/ src = Some [] ->
    trim text <> [] ->
    let vid := virtual_id src (length (inlineModules st)) in
    P st {| rollupHtml := set_add vid (rollupHtml st);
            inlineModules := inlineModules st
              ++ [{| virtualId := vid; code := text; placeholder := placeholder_of vid |}];
            xlog := xlog st |}.

Lemma script_step_steps (n : node) (st : xstate) :
  P st (state_of (script_step n st)).
Proof.
  unfold script_step.
  destruct (attr_find (lit "src") (attrs n)) as [[|c s]|] eqn:Es; cbn [truthy_str negb andb].
  - destruct (is_empty (trim (getTextContent n))) eqn:Ee; [apply P_refl|].
    destruct (is_str (lit "module") (attr_find (lit "type") (attrs n)));
      cbn [andb state_of]; [|apply P_refl].
    apply P_module; [right; reflexivity|].
    intros E. rewrite E in Ee. discriminate Ee.
  - apply P_refl.
  - destruct (is_empty (trim (getTextContent n))) eqn:Ee; [apply P_refl|].
    destruct (is_str (lit "module") (attr_find (lit "type") (attrs n)));
      cbn [andb state_of]; [|apply P_refl].
    apply P_module; [left; reflexivity|].
    intros E. rewrite E in Ee. discriminate Ee.
Qed.

Lemma visit_children_steps (kids : list node) :
  Forall (fun c => forall p ov st,
              P st (state_of (traverse_ov cfg absolutePath doc_src p ov c st))) kids ->
  forall pname len i ov st,
    P st (state_of (visit_children (traverse_ov cfg absolutePath doc_src)
                                   pname len i ov kids st)).
Proof.
  induction 1 as [|c kids Hc _ IH]; intros pname len i ov st; cbn [visit_children].
  - apply P_refl.
  - pose proof (Hc (Some {| p_nodeName := pname; p_length := len; p_index := i |})
                   ov st) as H1.
    destruct (traverse_ov cfg absolutePath doc_src _ ov c st) as [e st1|r st1];
      cbn [state_of] in H1 |- *; [exact H1|].
    pose proof (IH pname len (S i) None st1) as H2.
    destruct (visit_children _ pname len (S i) None kids st1) as [e st2|rs st2];
      cbn [state_of] in H2 |- *; exact (P_trans _ _ _ H1 H2).
Qed.

Lemma traverse_ov_steps (n : node) :
  forall p ov st, P st (state_of (traverse_ov cfg absolutePath doc_src p ov n st)).
Proof.
  induction n as [name tag ats ns val kids tmpl IHk IHt] using node_induction.
  intros p ov st. rewrite traverse_ov_unfold.
  cbn [nodeName tagName attrs namespaceURI value childNodes content set_value].
  cbv zeta.
  destruct (eqs name (lit "#comment")); [apply P_refl|].
  set (self := set_value _ _).
  assert (Hstyle :
            forall (K : option jstr -> xstate -> res (option node)),
              (forall t st1, P st1 (state_of (K t st1))) ->
              P st (state_of
                      match (if eqs name (lit "style")
                                && is_not_false (lightningcss_minify cfg)
                             then style_step absolutePath doc_src self st
                             else StyleKept None st) with
                      | StyleRemoved => Ret None st
                      | StyleKept text st1 => K text st1
                      end)).
  { intros K HK.
    destruct (eqs name (lit "style") && is_not_false (lightningcss_minify cfg));
      [|apply HK].
    unfold style_step. destruct (is_empty (getTextContent self)); [apply P_refl|].
    destruct (lightningTransform absolutePath (getTextContent self)) as [out|e];
      [apply HK|].
    eapply P_trans; [|apply HK].
    apply P_say. }
  apply (Hstyle (fun text st1 => _)). clear Hstyle. intros text st1.
  destruct (eqs name (lit "script")); [apply script_step_steps|].
  destruct (if eqs name (lit "#text") && compressWhitespace cfg
            then compress_text p (default val ov) else Some (default val ov))
    as [val'|]; [|apply P_refl].
  pose proof (visit_children_steps kids IHk name (length kids) 0 text st1) as H1.
  destruct (visit_children _ name (length kids) 0 text kids st1) as [e st2|kids' st2];
    cbn [state_of] in H1 |- *; [exact H1|].
  destruct (eqs name (lit "template")); [|exact H1].
  pose proof (visit_children_steps tmpl IHt (lit "#document-fragment")
                                   (length tmpl) 0 None st2) as H2.
  destruct (visit_children _ (lit "#document-fragment") (length tmpl) 0 None tmpl st2)
    as [e st3|tmpl' st3]; cbn [state_of] in H2 |- *; exact (P_trans _ _ _ H1 H2).
Qed.

End TraverseSteps.

Lemma set_add_spec (x : jstr) (l : list jstr) :
  set_add x l = l ++ (if set_has x l then [] else [x]) /\ List.In x (set_add x l).
Proof.
  unfold set_add. destruct (set_has x l) eqn:E.
  - rewrite app_nil_r. split; [reflexivity|]. apply set_has_In. exact E.
  - split; [reflexivity|]. apply in_or_app. right. left. reflexivity.
Qed.

Lemma numbered_from_app (k : nat) (a b : list inline_module) :
  numbered_from k a -> numbered_from (k + length a) b -> numbered_from k (a ++ b).
Proof.
  intros Ha Hb i m Hi. apply lookup_app_Some in Hi as [Hi|[Hle Hi]].
  - exact (Ha i m Hi).
  - replace (k + i) with (k + length a + (i - length a)) by lia.
    exact (Hb _ m Hi).
Qed.

Lemma grew_refl (st : xstate) : grew st st.
Proof.
  exists [], [], []. rewrite !app_nil_r.
  split; [reflexivity|]. split; [intros i m Hi; discriminate Hi|].
  split; [reflexivity|]. split; [intros x []|]. split; [intros m []|].
  split; [reflexivity|constructor].
Qed.

Lemma grew_trans (a b c : xstate) : grew a b -> grew b c -> grew a c.
Proof.
  intros (ms1 & en1 & es1 & Hm1 & Hn1 & Hr1 & He1 & Hi1 & Hl1 & Hc1)
         (ms2 & en2 & es2 & Hm2 & Hn2 & Hr2 & He2 & Hi2 & Hl2 & Hc2).
  exists (ms1 ++ ms2), (en1 ++ en2), (es1 ++ es2).
  split; [rewrite Hm2, Hm1, app_assoc; reflexivity|].
  split.
  { apply numbered_from_app; [exact Hn1|].
    rewrite Hm1, length_app in Hn2. exact Hn2. }
  split; [rewrite Hr2, Hr1, app_assoc; reflexivity|].
  split.
  { intros x Hx. apply in_app_or in Hx as [Hx|Hx].
    - destruct (He1 x Hx) as [m [Hm Hv]]. exists m.
      split; [apply in_or_app; left; exact Hm|exact Hv].
    - destruct (He2 x Hx) as [m [Hm Hv]]. exists m.
      split; [apply in_or_app; right; exact Hm|exact Hv]. }
  split.
  { intros m Hm. apply in_app_or in Hm as [Hm|Hm].
    - rewrite Hr2. apply in_or_app. left. exact (Hi1 m Hm).
    - exact (Hi2 m Hm). }
  split; [rewrite Hl2, Hl1, app_assoc; reflexivity|].
  apply Forall_app. split; assumption.
Qed.

Lemma grew_say (st : xstate) (m : jstr) :
  grew st (say (ConsoleError (LOG_TAG ++ m)) st).
Proof.
  exists [], [], [ConsoleError (LOG_TAG ++ m)]. cbn [say inlineModules rollupHtml xlog].
  rewrite !app_nil_r.
  split; [reflexivity|]. split; [intros i m' Hi; discriminate Hi|].
  split; [reflexivity|]. split; [intros x []|]. split; [intros m' []|].
  split; [reflexivity|]. constructor; [|constructor]. exists m. reflexivity.
Qed.

Lemma grew_module (st : xstate) (src : option jstr) (text : jstr) :
  src = None \/ src = Some [] ->
  trim text <> [] ->
  let vid := virtual_id src (length (inlineModules st)) in
  grew st {| rollupHtml := set_add vid (rollupHtml st);
             inlineModules := inlineModules st
               ++ [{| virtualId := vid; code := text; placeholder := placeholder_of vid |}];
             xlog := xlog st |}.
Proof.
  intros Hs Ht vid.
  destruct (set_add_spec vid (rollupHtml st)) as [Ea Hin].
  exists [{| virtualId := vid; code := text; placeholder := placeholder_of vid |}],
         (if set_has vid (rollupHtml st) then [] else [vid]), [].
  cbn [inlineModules rollupHtml xlog]. rewrite app_nil_r.
  split; [reflexivity|].
  split.
  { intros i m Hi. destruct i as [|i]; [|destruct i; discriminate Hi].
    inversion Hi; subst m. cbn [virtualId placeholder code].
    rewrite Nat.add_0_r. split; [|split; [reflexivity|exact Ht]].
    unfold vid. destruct Hs as [->| ->]; [left|right]; reflexivity. }
  split; [exact Ea|].
  split.
  { intros x Hx. destruct (set_has vid (rollupHtml st)); [destruct Hx|].
    destruct Hx as [<-|[]]. eexists. split; [left; reflexivity|reflexivity]. }
  split.
  { intros m [<-|[]]. exact Hin. }
  split; [reflexivity|constructor].
Qed.

(** X4. What [traverse] does outside the tree, whatever the tree and
    whether it returns or raises: it appends records to [inlineModules] and
    touches none that was there; the identifier of the record at position
    [i] is the inline prefix, the text of the [src] attribute (absent:
    [undefined]; present and empty: nothing), [?index=] and [i]; its token
    is built from its identifier; its code is not only white space; the
    entries it adds to [rollupHtml] are identifiers of records it appended,
    and every such identifier is in [rollupHtml] afterwards; and all it says
    are the errors of the style transform, on the console. *)
Theorem traverse_appends_numbered_records `{Host}
        (cfg : config) (absolutePath doc_src : jstr)
        (p : option pctx) (n : node) (st : xstate) :
  let st' := state_of (traverse cfg absolutePath doc_src p n st) in
  exists ms entries es,
    inlineModules st' = inlineModules st ++ ms
    /\ (forall i m,
           ms !! i = Some m ->
           (exists text,
               (text = lit "undefined" \/ text = [])
               /\ virtualId m
                  = INLINE_MODULE_PREFIX ++ text ++ lit "?index="
                    ++ dec (N.of_nat (length (inlineModules st) + i)))
           /\ placeholder m = PLACEHOLDER_PREFIX ++ virtualId m ++ lit "__"
           /\ trim (code m) <> [])
    /\ rollupHtml st' = rollupHtml st ++ entries
    /\ (forall x, List.In x entries -> exists m, List.In m ms /\ virtualId m = x)
    /\ (forall m, List.In m ms -> List.In (virtualId m) (rollupHtml st'))
    /\ xlog st' = xlog st ++ es
    /\ Forall (fun e => exists m, e = ConsoleError (LOG_TAG ++ m)) es.
Proof.
  intros st'.
  destruct (traverse_ov_steps cfg absolutePath doc_src grew grew_refl grew_trans
                              grew_say grew_module n p None st)
    as (ms & entries & es & Hm & Hn & Hr & He & Hi & Hl & Hc).
  exists ms, entries, es. repeat (split; [assumption|]).
  split; [|repeat (split; [assumption|]); assumption].
  intros i m Hi'. destruct (Hn i m Hi') as [[Hv|Hv] [Hp Ht]].
  - split; [|split; assumption]. exists (lit "undefined").
    split; [left; reflexivity|exact Hv].
  - split; [|split; assumption]. exists [].
    split; [right; reflexivity|exact Hv].
Qed.

(** ** When [traverse] raises *)

Lemma flat_map_not_nil {A B : Type} (f : A -> list B) (l : list A) (c : A) :
  List.In c l -> f c <> [] -> flat_map f l <> [].
Proof.
  intros Hin Hc E. apply Hc.
  assert (Hall : forall y, List.In y (f c) -> False).
  { intros y Hy. assert (Hf : List.In y (flat_map f l)).
    { apply in_flat_map. exists c. split; assumption. }
    rewrite E in Hf. exact Hf. }
  destruct (f c) as [|y ys]; [reflexivity|]. destruct (Hall y). left. reflexivity.
Qed.

Section TraverseRaises.
Context `{Host}.
Variable cfg : config.
Variable absolutePath doc_src : jstr.

Local Abbreviation raises_on c :=
  (forall p ov st e st',
      traverse_ov cfg absolutePath doc_src p ov c st = Throw e st' ->
      e = TYPE_ERROR_INCLUDES /\ findNodes is_src_script c <> []).

Lemma visit_children_raises (kids : list node) :
  Forall (fun c => raises_on c) kids ->
  forall pname len i ov st e st',
    visit_children (traverse_ov cfg absolutePath doc_src) pname len i ov kids st
    = Throw e st' ->
    e = TYPE_ERROR_INCLUDES /\ flat_map (findNodes is_src_script) kids <> [].
Proof.
  induction 1 as [|c kids Hc _ IH]; intros pname len i ov st e st';
    cbn [visit_children]; [discriminate|].
  destruct (traverse_ov cfg absolutePath doc_src _ ov c st) as [e1 st1|r st1] eqn:E1.
  - intros E. inversion E; subst e1 st1.
    destruct (Hc _ _ _ _ _ E1) as [He Hf]. split; [exact He|].
    cbn [flat_map]. intros Habs. apply app_eq_nil in Habs as [Habs _]. exact (Hf Habs).
  - destruct (visit_children _ pname len (S i) None kids st1) as [e2 st2|rs st2] eqn:E2;
      [|discriminate].
    intros E. inversion E; subst e2 st2.
    destruct (IH _ _ _ _ _ _ _ E2) as [He Hf]. split; [exact He|].
    cbn [flat_map]. intros Habs. apply app_eq_nil in Habs as [_ Habs]. exact (Hf Habs).
Qed.

Lemma traverse_ov_raises (n : node) : raises_on n.
Proof.
  induction n as [name tag ats ns val kids tmpl IHk IHt] using node_induction.
  intros p ov st e st'. rewrite traverse_ov_unfold, findNodes_unfold.
  unfold set_value.
  cbn [nodeName tagName attrs namespaceURI value childNodes content].
  cbv zeta.
  destruct (eqs name (lit "#comment")); [discriminate|].
  destruct (if eqs name (lit "style") && is_not_false (lightningcss_minify cfg)
            then style_step absolutePath doc_src _ st else StyleKept None st)
    as [|text st1]; [discriminate|].
  destruct (eqs name (lit "script")) eqn:En.
  - unfold script_step. cbn [attrs].
    destruct (truthy_str (attr_find (lit "src") ats)) eqn:Es.
    + intros E. inversion E. split; [reflexivity|].
      unfold is_src_script. cbn [nodeName attrs]. rewrite En, Es. discriminate.
    + cbn [negb andb]. destruct (is_empty _); [discriminate|].
      destruct (is_str _ _); discriminate.
  - destruct (if eqs name (lit "#text") && compressWhitespace cfg
              then compress_text p (default val ov) else Some (default val ov))
      as [val'|]; [|discriminate].
    destruct (visit_children _ name (length kids) 0 text kids st1)
      as [e1 st2|kids' st2] eqn:E1.
    + intros E. inversion E; subst e1 st2.
      destruct (visit_children_raises kids IHk _ _ _ _ _ _ _ E1) as [He Hf].
      split; [exact He|]. intros Habs.
      apply app_eq_nil in Habs as [_ Habs]. apply app_eq_nil in Habs as [Habs _].
      exact (Hf Habs).
    + destruct (eqs name (lit "template")); [|discriminate].
      destruct (visit_children _ (lit "#document-fragment") (length tmpl) 0 None tmpl st2)
        as [e2 st3|tmpl' st3] eqn:E2; [|discriminate].
      intros E. inversion E; subst e2 st3.
      destruct (visit_children_raises tmpl IHt _ _ _ _ _ _ _ E2) as [He Hf].
      split; [exact He|]. intros Habs.
      apply app_eq_nil in Habs as [_ Habs]. apply app_eq_nil in Habs as [_ Habs].
      exact (Hf Habs).
Qed.

End TraverseRaises.

(** X5. [traverse] raises nothing but the TypeError of the test of [src],
    and only on a tree that holds a script whose [src] is a non-empty
    string; on every other tree it returns.  No shape of the tree is
    assumed. *)
Theorem traverse_raises_only_on_src_script `{Host}
        (cfg : config) (absolutePath doc_src : jstr)
        (p : option pctx) (n : node) (st : xstate) :
  (forall e st',
      traverse cfg absolutePath doc_src p n st = Throw e st' ->
      e = TYPE_ERROR_INCLUDES
      /\ exists x, within n x
                   /\ nodeName x = lit "script"
                   /\ exists c s, attr_find (lit "src") (attrs x) = Some (c :: s))
  /\ ((forall x, within n x -> nodeName x = lit "script" ->
                 attr_find (lit "src") (attrs x) = None
                 \/ attr_find (lit "src") (attrs x) = Some []) ->
      exists r st', traverse cfg absolutePath doc_src p n st = Ret r st').
Proof.
  assert (Hfind : findNodes is_src_script n <> [] ->
                  exists x, within n x
                            /\ nodeName x = lit "script"
                            /\ exists c s, attr_find (lit "src") (attrs x) = Some (c :: s)).
  { intros Hne. destruct (findNodes is_src_script n) as [|x xs] eqn:Ef;
      [destruct (Hne eq_refl)|].
    assert (Hx : List.In x (findNodes is_src_script n)) by (rewrite Ef; left; reflexivity).
    apply findNodes_sound in Hx as [Hw Hp]. exists x. split; [exact Hw|].
    unfold is_src_script in Hp. apply andb_true_iff in Hp as [Hn Hs].
    apply eqs_spec in Hn. split; [exact Hn|].
    destruct (attr_find (lit "src") (attrs x)) as [[|c s]|]; try discriminate Hs.
    exists c, s. reflexivity. }
  split.
  - intros e st' E. destruct (traverse_ov_raises cfg absolutePath doc_src n _ _ _ _ _ E)
      as [He Hf].
    split; [exact He|exact (Hfind Hf)].
  - intros Hno.
    destruct (traverse cfg absolutePath doc_src p n st) as [e st'|r st'] eqn:E;
      [|exists r, st'; reflexivity].
    exfalso. destruct (traverse_ov_raises cfg absolutePath doc_src n _ _ _ _ _ E)
      as [_ Hf].
    destruct (Hfind Hf) as (x & Hw & Hn & c & s & Hs).
    destruct (Hno x Hw Hn) as [Hx|Hx]; rewrite Hx in Hs; discriminate Hs.
Qed.

Lemma traverse_raises_only_on_src_script_witness :
  exists r st',
    traverse (H := Demo.plain_page) (make_config no_options)
             (lit "/work/index.html") (lit "index.html") None
             (element (lit "body") [] [text_node (lit "Hello")])
             {| rollupHtml := []; inlineModules := []; xlog := [] |}
    = Ret r st'.
Proof.
  apply (proj2 (traverse_raises_only_on_src_script
                  (H := Demo.plain_page) (make_config no_options)
                  (lit "/work/index.html") (lit "index.html") None
                  (element (lit "body") [] [text_node (lit "Hello")])
                  {| rollupHtml := []; inlineModules := []; xlog := [] |})).
  intros x Hw Hn. exfalso.
  inversion Hw as [n0 E0|n0 c x0 Hc Hw' E0 E1|n0 c x0 Hn0 Hc Hw' E0 E1]; subst.
  - discriminate Hn.
  - destruct Hc as [<-|[]].
    inversion Hw' as [n1 E2|n1 c1 x1 Hc1 Hw1 E2 E3|n1 c1 x1 Hn1 Hc1 Hw1 E2 E3]; subst.
    + discriminate Hn.
    + destruct Hc1.
    + discriminate Hn1.
  - discriminate Hn0.
Defined.

(** ** What the [options] hook stores *)

Section StoredFacts.
Context `{Host}.
Variable cfg : config.

Lemma stored_from_more (done more : list (jstr * jstr)) abs data :
  stored_from cfg done abs data -> stored_from cfg (done ++ more) abs data.
Proof.
  intros (Ha & (pre & post & Hd & Hp) & Hc & Ht).
  split; [exact Ha|]. split; [|split; [exact Hc|exact Ht]].
  exists pre, (post ++ more). split; [|exact Hp].
  rewrite Hd, <- app_assoc. reflexivity.
Qed.

Lemma kept_start (log : list event) :
  kept cfg [] {| o_htmlData := []; o_rollupHtml := [];
                 o_processed := []; o_log := log |}.
Proof.
  split; [constructor|]. split.
  - intros abs. split; [intros []|intros [e [[] _]]].
  - intros abs data [].
Qed.

Lemma processed_more (done : list (jstr * jstr)) st (dest src : jstr) :
  (forall abs, List.In abs (o_processed st)
               <-> exists e, List.In e done /\ path_resolve [snd e] = abs) ->
  forall abs, List.In abs (set_add (path_resolve [src]) (o_processed st))
              <-> exists e, List.In e (done ++ [(dest, src)])
                            /\ path_resolve [snd e] = abs.
Proof.
  intros Hp abs. destruct (set_add_spec (path_resolve [src]) (o_processed st))
    as [Ea Hin].
  split.
  - intros Hi. rewrite Ea in Hi. apply in_app_or in Hi as [Hi|Hi].
    + apply Hp in Hi as [e [He Hr]]. exists e.
      split; [apply in_or_app; left; exact He|exact Hr].
    + destruct (set_has _ _); [destruct Hi|]. destruct Hi as [<-|[]].
      exists (dest, src). split; [apply in_or_app; right; left; reflexivity|reflexivity].
  - intros [e [He Hr]]. apply in_app_or in He as [He|[<-|[]]].
    + rewrite Ea. apply in_or_app. left. apply Hp. exists e. split; assumption.
    + cbn [snd] in Hr. rewrite <- Hr. exact Hin.
Qed.

(** An entry that left [htmlData] as it was. *)
Lemma kept_skip done st dest src rollup log :
  kept cfg done st ->
  incl (o_rollupHtml st) rollup ->
  kept cfg (done ++ [(dest, src)])
       {| o_htmlData := o_htmlData st; o_rollupHtml := rollup;
          o_processed := set_add (path_resolve [src]) (o_processed st);
          o_log := log |}.
Proof.
  intros (Hn & Hp & Hs) Hi. cbn [kept o_htmlData o_rollupHtml o_processed].
  split; [exact Hn|]. split; [apply processed_more; exact Hp|].
  intros abs data Hd. destruct (Hs abs data Hd) as (H1 & H2 & H3).
  split; [|split].
  - destruct (set_add_spec (path_resolve [src]) (o_processed st)) as [Ea _].
    rewrite Ea. apply in_or_app. left. exact H1.
  - apply stored_from_more. exact H2.
  - intros m Hm. apply Hi. exact (H3 m Hm).
Qed.

(** An entry whose document was stored. *)
Lemma kept_store done st dest src rollup log t ms :
  kept cfg done st ->
  set_has (path_resolve [src]) (o_processed st) = false ->
  incl (o_rollupHtml st) rollup ->
  stored_from cfg (done ++ [(dest, src)]) (path_resolve [src])
              {| d_src := src; d_dest := dest; d_ast := t; d_inlineModules := ms |} ->
  (forall m, List.In m ms -> List.In (virtualId m) rollup) ->
  o_htmlData st ++ [(path_resolve [src],
                     {| d_src := src; d_dest := dest; d_ast := t;
                        d_inlineModules := ms |})]
  = obj_set (path_resolve [src])
            {| d_src := src; d_dest := dest; d_ast := t; d_inlineModules := ms |}
            (o_htmlData st)
  /\ kept cfg (done ++ [(dest, src)])
          {| o_htmlData :=
               obj_set (path_resolve [src])
                       {| d_src := src; d_dest := dest; d_ast := t;
                          d_inlineModules := ms |}
                       (o_htmlData st);
             o_rollupHtml := rollup;
             o_processed := set_add (path_resolve [src]) (o_processed st);
             o_log := log |}.
Proof.
  intros (Hn & Hp & Hs) Hf Hi Hst Hms.
  assert (Hfresh : obj_has (path_resolve [src]) (o_htmlData st) = false).
  { destruct (obj_has (path_resolve [src]) (o_htmlData st)) eqn:E; [|reflexivity].
    apply obj_has_In in E. apply in_map_iff in E as [[abs data] [Ek Hd]].
    cbn [fst] in Ek. subst abs. destruct (Hs _ _ Hd) as [Hin _].
    apply set_has_not_In in Hf. destruct (Hf Hin). }
  split; [symmetry; apply obj_set_fresh; exact Hfresh|].
  cbn [kept o_htmlData o_rollupHtml o_processed].
  split; [apply obj_set_NoDup; exact Hn|].
  split; [apply processed_more; exact Hp|].
  intros abs data Hd. rewrite (obj_set_fresh _ _ _ Hfresh) in Hd.
  destruct (set_add_spec (path_resolve [src]) (o_processed st)) as [Ea Hin].
  apply in_app_or in Hd as [Hd|[Hd|[]]].
  - destruct (Hs abs data Hd) as (H1 & H2 & H3). split; [|split].
    + rewrite Ea. apply in_or_app. left. exact H1.
    + apply stored_from_more. exact H2.
    + intros m Hm. apply Hi. exact (H3 m Hm).
  - inversion Hd; subst abs data. split; [exact Hin|]. split; [exact Hst|].
    cbn [d_inlineModules]. exact Hms.
Qed.

Lemma process_html_kept done dest src st :
  kept cfg done st ->
  kept cfg (done ++ [(dest, src)]) (ostate_of (process_html cfg dest src st)).
Proof.
  intros K. unfold process_html.
  destruct (set_has (path_resolve [src]) (o_processed st)) eqn:Eh.
  - cbn [ostate_of]. destruct K as (Hn & Hp & Hs).
    cbn [kept o_htmlData o_rollupHtml o_processed].
    split; [exact Hn|]. split.
    + intros abs. split.
      * intros Hi. apply Hp in Hi as [e [He Hr]]. exists e.
        split; [apply in_or_app; left; exact He|exact Hr].
      * intros [e [He Hr]]. apply in_app_or in He as [He|[<-|[]]].
        -- apply Hp. exists e. split; assumption.
        -- cbn [snd] in Hr. rewrite <- Hr. apply set_has_In. exact Eh.
    + intros abs data Hd. destruct (Hs abs data Hd) as (H1 & H2 & H3).
      split; [exact H1|]. split; [apply stored_from_more; exact H2|exact H3].
  - cbv zeta.
    destruct (read_and_parse (path_resolve [src])) as [ast|e] eqn:Er.
    + pose proof (traverse_ov_steps cfg (path_resolve [src]) src grew grew_refl
                    grew_trans grew_say grew_module ast None None
                    {| rollupHtml := o_rollupHtml st; inlineModules := [];
                       xlog := o_log st |}) as G.
      fold (traverse cfg (path_resolve [src]) src None ast
                     {| rollupHtml := o_rollupHtml st; inlineModules := [];
                        xlog := o_log st |}) in G.
      destruct (traverse cfg (path_resolve [src]) src None ast _) as [e xs|r xs] eqn:Et;
        cbn [state_of] in G;
        destruct G as (ms & entries & es & Hm & _ & Hr & _ & Hi & _);
        cbn [rollupHtml inlineModules] in Hm, Hr;
        assert (Hincl : incl (o_rollupHtml st) (rollupHtml xs))
          by (rewrite Hr; apply incl_appl, incl_refl).
      * destruct error_raises; cbn [ostate_of]; apply kept_skip; assumption.
      * destruct r as [t|]; [|cbn [ostate_of]; apply kept_skip; assumption].
        destruct (is_empty_list (childNodes t)) eqn:Ec;
          cbn [ostate_of]; [apply kept_skip; assumption|].
        apply kept_store; try assumption.
        -- split; [reflexivity|]. cbn [d_src d_dest d_ast d_inlineModules].
           split.
           { exists done, []. split; [reflexivity|].
             apply List.Forall_forall. intros e He Habs.
             destruct K as (_ & Hp & _).
             assert (Hin : List.In (path_resolve [src]) (o_processed st)).
             { apply Hp. exists e. split; assumption. }
             apply set_has_not_In in Eh. exact (Eh Hin). }
           split.
           { intros E. rewrite E in Ec. discriminate Ec. }
           exists ast, (o_rollupHtml st), (o_log st), xs.
           split; [exact Er|]. split; [exact Et|reflexivity].
        -- intros m Hm'. apply Hi. rewrite Hm in Hm'. exact Hm'.
    + destruct error_raises; cbn [ostate_of]; apply kept_skip;
        try assumption; apply incl_refl.
Qed.

Lemma process_all_kept html :
  forall done st,
    kept cfg done st ->
    exists done' rest,
      html = done' ++ rest
      /\ kept cfg (done ++ done') (ostate_of (process_all cfg html st))
      /\ (forall st', process_all cfg html st = Went st' -> rest = []).
Proof.
  induction html as [|[dest src] html IH]; intros done st K; cbn [process_all].
  - exists [], []. rewrite (app_nil_r done). split; [reflexivity|].
    split; [exact K|reflexivity].
  - pose proof (process_html_kept done dest src st K) as K1.
    destruct (process_html cfg dest src st) as [e st1|st1]; cbn [ostate_of] in K1.
    + exists [(dest, src)], html. split; [reflexivity|].
      split; [exact K1|discriminate].
    + destruct (IH _ _ K1) as (done' & rest & Eh & K2 & Hw).
      exists ((dest, src) :: done'), rest. split; [rewrite Eh; reflexivity|].
      split; [|exact Hw].
      rewrite <- app_assoc in K2. exact K2.
Qed.

(** The documents that the hook leaves in [htmlData] come from a run of the
    loop over a first part of the HTML entries. *)
Lemma options_kept (input : rollup_input) :
  exists done rest st,
    fst (split_html (fst (fst (normalize_input input)))) = done ++ rest
    /\ kept cfg done st
    /\ o_htmlData st = htmlData (snd (fst (options cfg input))).
Proof.
  unfold options.
  destruct (normalize_input input) as [[normalizedInput withDest] log0].
  cbn [fst snd].
  destruct (split_html normalizedInput) as [Html nonHtml]. cbn [fst].
  destruct (is_empty_list Html) eqn:Ee.
  - exists [], Html, {| o_htmlData := []; o_rollupHtml := [];
                        o_processed := []; o_log := log0 |}.
    split; [reflexivity|]. split; [apply kept_start|reflexivity].
  - destruct (process_all_kept Html [] _ (kept_start log0))
      as (done & rest & Eh & K & _).
    cbn [app] in K. exists done, rest, (ostate_of (process_all cfg Html
      {| o_htmlData := []; o_rollupHtml := []; o_processed := []; o_log := log0 |})).
    split; [exact Eh|]. split; [exact K|].
    destruct (process_all cfg Html _) as [e st|st]; cbn [ostate_of]; [reflexivity|].
    destruct (build_rollups nonHtml (o_rollupHtml st) (o_log st)) as [[rollups k] log1].
    destruct (add_noop Html rollups log1) as [rollups' log2].
    destruct (return_input rollups' log2) as [result log3]. reflexivity.
Qed.

End StoredFacts.

(** X6. What the [options] hook leaves in [htmlData], for every input and
    whether it returns or raises.  No path is stored twice.  Every record
    sits under the resolved path of its [src]; its [dest] and [src] are
    those of the first HTML entry of the input that resolves to this path
    (a later one is skipped); the file under the path was parsed and
    [traverse] returned the stored tree from it, which has children; and
    the stored records of the inline modules are the ones this call of
    [traverse] collected, numbered from 0. *)
Theorem options_stores_first_entry_of_a_path `{Host}
        (cfg : config) (input : rollup_input) :
  let Html := fst (split_html (fst (fst (normalize_input input)))) in
  let ps := snd (fst (options cfg input)) in
  List.NoDup (List.map fst (htmlData ps))
  /\ forall abs data,
      List.In (abs, data) (htmlData ps) ->
      abs = path_resolve [d_src data]
      /\ (exists pre post,
             Html = pre ++ (d_dest data, d_src data) :: post
             /\ Forall (fun e => path_resolve [snd e] <> abs) pre)
      /\ childNodes (d_ast data) <> []
      /\ (exists ast0 rollup log st',
             read_and_parse abs = Returned ast0
             /\ traverse cfg abs (d_src data) None ast0
                         {| rollupHtml := rollup; inlineModules := []; xlog := log |}
                = Ret (Some (d_ast data)) st'
             /\ d_inlineModules data = inlineModules st')
      /\ forall i m,
          d_inlineModules data !! i = Some m ->
          (virtualId m = virtual_id None i \/ virtualId m = virtual_id (Some []) i)
          /\ placeholder m = placeholder_of (virtualId m)
          /\ trim (code m) <> [].
Proof.
  intros Html ps.
  destruct (options_kept cfg input) as (done & rest & st & Eh & (Hn & _ & Hs) & Ed).
  fold Html in Eh. fold ps in Ed. rewrite <- Ed.
  split; [exact Hn|].
  intros abs data Hd. destruct (Hs abs data Hd) as (_ & Hst & _).
  apply (stored_from_more cfg done rest) in Hst. rewrite <- Eh in Hst.
  destruct Hst as (Ha & Hp & Hc & Ht).
  split; [exact Ha|]. split; [exact Hp|]. split; [exact Hc|]. split; [exact Ht|].
  destruct Ht as (ast0 & rollup & log & st' & _ & Et & Em).
  pose proof (traverse_ov_steps cfg abs (d_src data) grew grew_refl grew_trans
                grew_say grew_module ast0 None None
                {| rollupHtml := rollup; inlineModules := []; xlog := log |}) as G.
  unfold traverse in Et. rewrite Et in G. cbn [state_of] in G.
  destruct G as (ms & _ & _ & Hm & Hnum & _). cbn [inlineModules app length] in Hm, Hnum.
  rewrite Em, Hm. intros i m Hi. destruct (Hnum i m Hi) as (Hv & Hpl & Hcode).
  split; [exact Hv|]. split; [exact Hpl|exact Hcode].
Qed.

(** ** Identifiers within a document *)

Lemma size_nat_bound (n : N) : (n < 2 ^ N.of_nat (N.size_nat n))%N.
Proof.
  destruct n as [|p]; [reflexivity|]. cbn [N.size_nat].
  induction p as [p IH|p IH|]; cbn [Pos.size_nat].
  - rewrite Nat2N.inj_succ, N.pow_succ_r by lia.
    change (N.pos p~1) with (2 * N.pos p + 1)%N. lia.
  - rewrite Nat2N.inj_succ, N.pow_succ_r by lia.
    change (N.pos p~0) with (2 * N.pos p)%N. lia.
  - reflexivity.
Qed.

Lemma dec_fuel_value (fuel : nat) :
  forall (n : N) (acc : jstr),
    (n < 2 ^ N.of_nat fuel)%N ->
    exists ds, dec_fuel (S fuel) n acc = ds ++ acc
               /\ forall a, fold_left (fun a c => (10 * a + (c - 48))%N) ds a
                            = (a * 10 ^ N.of_nat (length ds) + n)%N.
Proof.
  induction fuel as [|fuel IH]; intros n acc Hn.
  - cbn in Hn. assert (n = 0%N) by lia. subst n.
    exists [digit 0]. split; [reflexivity|]. intros a.
    cbn [fold_left length]. unfold digit.
    change (10 ^ N.of_nat 1)%N with 10%N. lia.
  - cbn [dec_fuel]. destruct (n <? 10)%N eqn:El.
    + apply N.ltb_lt in El. exists [digit (n mod 10)]. split; [reflexivity|].
      intros a. cbn [fold_left length]. unfold digit.
      rewrite (N.mod_small n 10) by exact El.
      change (10 ^ N.of_nat 1)%N with 10%N. lia.
    + apply N.ltb_ge in El.
      assert (Hq : (n / 10 < 2 ^ N.of_nat fuel)%N).
      { apply N.Div0.div_lt_upper_bound.
        rewrite Nat2N.inj_succ, N.pow_succ_r in Hn by lia. lia. }
      destruct (IH (n / 10)%N (digit (n mod 10) :: acc) Hq) as [ds [Ed Hv]].
      change (if (n / 10 <? 10)%N
              then digit ((n / 10) mod 10) :: digit (n mod 10) :: acc
              else dec_fuel fuel (n / 10 / 10)
                            (digit ((n / 10) mod 10) :: digit (n mod 10) :: acc))
        with (dec_fuel (S fuel) (n / 10) (digit (n mod 10) :: acc)).
      exists (ds ++ [digit (n mod 10)]). rewrite Ed, <- app_assoc.
      split; [reflexivity|]. intros a.
      rewrite fold_left_app, Hv. cbn [fold_left]. rewrite length_app.
      cbn [length]. rewrite Nat.add_1_r, Nat2N.inj_succ, N.pow_succ_r by lia.
      unfold digit. pose proof (N.div_mod n 10) as Hdm.
      revert Hdm. generalize (n mod 10)%N, (n / 10)%N, (10 ^ N.of_nat (length ds))%N.
      intros r q t Hdm. nia.
Qed.

Lemma undec_dec (n : N) : undec (dec n) = n.
Proof.
  unfold dec, undec.
  destruct (dec_fuel_value (N.size_nat n) n [] (size_nat_bound n)) as [ds [Ed Hv]].
  rewrite Ed, app_nil_r, Hv. reflexivity.
Qed.

Lemma dec_inj (a b : N) : dec a = dec b -> a = b.
Proof. intros E. rewrite <- (undec_dec a), <- (undec_dec b), E. reflexivity. Qed.

Lemma virtual_id_inj (s1 s2 : option jstr) (i j : nat) :
  s1 = None \/ s1 = Some [] -> s2 = None \/ s2 = Some [] ->
  virtual_id s1 i = virtual_id s2 j -> s1 = s2 /\ i = j.
Proof.
  unfold virtual_id. intros H1 H2 E. apply app_inv_head in E.
  destruct H1 as [->| ->], H2 as [->| ->]; cbn [to_template] in E;
    try discriminate E.
  - apply app_inv_head in E. apply app_inv_head in E.
    apply dec_inj, Nat2N.inj in E. split; [reflexivity|exact E].
  - cbn [app] in E. apply app_inv_head in E.
    apply dec_inj, Nat2N.inj in E. split; [reflexivity|exact E].
Qed.

Lemma numbered_from_distinct (k : nat) (ms : list inline_module) (i j : nat)
      (a b : inline_module) :
  numbered_from k ms ->
  ms !! i = Some a -> ms !! j = Some b -> virtualId a = virtualId b -> i = j.
Proof.
  intros Hn Hi Hj E.
  destruct (Hn i a Hi) as [Ha _], (Hn j b Hj) as [Hb _].
  assert (Hs : forall s x, x = virtual_id None s \/ x = virtual_id (Some []) s ->
                           exists o, (o = None \/ o = Some []) /\ x = virtual_id o s).
  { intros s x [->| ->]; eexists; split; try reflexivity; [left|right]; reflexivity. }
  destruct (Hs _ _ Ha) as (o1 & Ho1 & E1), (Hs _ _ Hb) as (o2 & Ho2 & E2).
  rewrite E1, E2 in E. destruct (virtual_id_inj _ _ _ _ Ho1 Ho2 E) as [_ Hij]. lia.
Qed.

Lemma find_numbered (k : nat) (ms : list inline_module) (m : inline_module) :
  numbered_from k ms -> List.In m ms ->
  List.find (fun x => eqs (virtualId x) (virtualId m)) ms = Some m.
Proof.
  intros Hn Hin.
  destruct (List.find (fun x => eqs (virtualId x) (virtualId m)) ms) as [m'|] eqn:Ef.
  - apply find_some in Ef as [Hin' He]. apply eqs_spec in He.
    apply list_elem_of_In, list_elem_of_lookup in Hin as [i Hi].
    apply list_elem_of_In, list_elem_of_lookup in Hin' as [j Hj].
    pose proof (numbered_from_distinct k ms j i m' m Hn Hj Hi He) as Hij.
    subst j. rewrite Hi in Hj. exact (eq_sym Hj).
  - pose proof (find_none _ _ Ef m Hin) as Hf. cbn in Hf.
    rewrite eqs_refl in Hf. discriminate Hf.
Qed.

Lemma stored_numbered `{Host} (cfg : config) done abs data :
  stored_from cfg done abs data -> numbered_from 0 (d_inlineModules data).
Proof.
  intros (_ & _ & _ & ast0 & rollup & log & st' & _ & Et & Em).
  pose proof (traverse_ov_steps cfg abs (d_src data) grew grew_refl grew_trans
                grew_say grew_module ast0 None None
                {| rollupHtml := rollup; inlineModules := []; xlog := log |}) as G.
  unfold traverse in Et. rewrite Et in G. cbn [state_of] in G.
  destruct G as (ms & _ & _ & Hm & Hnum & _). cbn [inlineModules app length] in Hm, Hnum.
  rewrite Em, Hm. exact Hnum.
Qed.

Lemma numbered_prefix (k : nat) (ms : list inline_module) (m : inline_module) :
  numbered_from k ms -> List.In m ms ->
  startsWith INLINE_MODULE_PREFIX (virtualId m) = true.
Proof.
  intros Hn Hin. apply list_elem_of_In, list_elem_of_lookup in Hin as [i Hi].
  destruct (Hn i m Hi) as [[E|E] _]; rewrite E; apply startsWith_app.
Qed.

(** X7. The inline modules that the [options] hook stored are served by
    the two other hooks: [resolveId] claims the identifier of every stored
    record, and [load] answers it with the code of a stored record that
    has this identifier.  For a record of the document stored first this is
    its own code: within a document no two records share an identifier. *)
Theorem stored_modules_are_loaded `{Host}
        (cfg : config) (input : rollup_input)
        (abs : jstr) (data : doc_record) (m : inline_module) :
  let ps := snd (fst (options cfg input)) in
  List.In (abs, data) (htmlData ps) ->
  List.In m (d_inlineModules data) ->
  resolveId (virtualId m) = Some (virtualId m)
  /\ (exists abs' data' m',
         List.In (abs', data') (htmlData ps)
         /\ List.In m' (d_inlineModules data')
         /\ virtualId m' = virtualId m
         /\ load ps (virtualId m) = Loaded (code m'))
  /\ (forall i j a b,
         d_inlineModules data !! i = Some a -> d_inlineModules data !! j = Some b ->
         virtualId a = virtualId b -> i = j)
  /\ (hd_error (htmlData ps) = Some (abs, data) ->
      load ps (virtualId m) = Loaded (code m)).
Proof.
  intros ps Hd Hm.
  destruct (options_kept cfg input) as (done & rest & st & _ & (_ & _ & Hs) & Ed).
  fold ps in Ed. rewrite <- Ed in Hd.
  destruct (Hs abs data Hd) as (_ & Hst & _).
  pose proof (stored_numbered cfg _ _ _ Hst) as Hn.
  pose proof (numbered_prefix 0 _ m Hn Hm) as Hp.
  assert (Hnoop : eqs (virtualId m) NOOP_IMPORT_ID = false).
  { apply eqs_false. intros E. rewrite E in Hp. discriminate Hp. }
  split; [unfold resolveId; rewrite Hp, orb_true_r; reflexivity|].
  split; [|split].
  - unfold load. rewrite Hnoop, Hp.
    destruct (find_module (virtualId m) (htmlData ps)) as [m'|] eqn:Ef.
    + destruct (find_module_some _ _ _ Ef) as (Hv & abs' & data' & Hd' & Hm').
      exists abs', data', m'. repeat split; assumption.
    + exfalso. rewrite <- Ed in Ef.
      exact (find_module_none _ _ Ef abs data m Hd Hm eq_refl).
  - intros i j a b Hi Hj E.
    exact (numbered_from_distinct 0 _ i j a b Hn Hi Hj E).
  - intros Hh. unfold load. rewrite Hnoop, Hp.
    destruct (htmlData ps) as [|[abs0 data0] docs]; [discriminate Hh|].
    inversion Hh; subst abs0 data0. cbn [find_module].
    rewrite (find_numbered 0 _ m Hn Hm). reflexivity.
Qed.

Lemma stored_modules_are_loaded_witness :
  load (snd (fst (options (H := Demo.sub_page) (make_config no_options)
                          (InString (lit "sub/page.html")))))
       Demo.ID0
  = Loaded (lit "a()").
Proof.
  apply (stored_modules_are_loaded
           (H := Demo.sub_page) (make_config no_options)
           (InString (lit "sub/page.html"))
           (lit "/work/sub/page.html") Demo.sub_record
           {| virtualId := Demo.ID0; code := lit "a()";
              placeholder := placeholder_of Demo.ID0 |}).
  - vm_compute. left. reflexivity.
  - left. reflexivity.
  - vm_compute. reflexivity.
Defined.

(** ** The tokens of the extraction pass, read by the rewrite pass *)

Lemma split_by_digits (d : jstr) :
  Forall (fun c => is_digit c = true) d ->
  split_by_from (lit "index=") 0 d = [d].
Proof.
  induction 1 as [|c d Hc _ IH]; [reflexivity|].
  cbn [split_by_from]. rewrite IH.
  assert (E : startsWith (lit "index=") (c :: d) = false).
  { change (lit "index=") with (105%N :: lit "ndex="). cbn [startsWith].
    unfold is_digit in Hc. apply andb_true_iff in Hc as [_ Hc].
    apply N.leb_le in Hc. destruct (N.eqb_spec 105 c) as [E|_]; [lia|reflexivity]. }
  rewrite E. reflexivity.
Qed.

Lemma index_of_virtual_id (i : nat) :
  split_by (lit "index=") (virtual_id None i) !! 1 = Some (dec (N.of_nat i)).
Proof.
  unfold split_by, virtual_id. cbn [to_template].
  pose proof (split_by_digits _ (dec_digits (N.of_nat i))) as Hd.
  revert Hd. generalize (dec (N.of_nat i)). intros d Hd.
  rewrite !app_assoc.
  let v := eval vm_compute in ((INLINE_MODULE_PREFIX ++ lit "undefined") ++ lit "?index=")
  in change ((INLINE_MODULE_PREFIX ++ lit "undefined") ++ lit "?index=") with v.
  let s := eval vm_compute in (lit "index=") in change (lit "index=") with s in Hd |- *.
  cbn [app split_by_from startsWith N.eqb Pos.eqb andb length Nat.sub].
  rewrite Hd. reflexivity.
Qed.

Lemma placeholder_is_reference (vid : jstr) :
  is_reference (comment_node (placeholder_of vid)) = true.
Proof.
  unfold is_reference, comment_node, placeholder_of. cbn [nodeName value].
  rewrite startsWith_app. reflexivity.
Qed.

(** X8. The token that the extraction pass leaves for the inline module
    number [i] of a document (a script without [src] attribute) is read
    back by the rewrite pass: the comment is one of the nodes to replace,
    the identifier parsed from it is the identifier that was registered,
    and the index in the description is [i].  With a chunk for this
    identifier the comment is replaced by the script node of the chunk,
    without a warning; without one it is removed, with the two warnings. *)
Theorem placeholder_is_read_back `{Host}
        (cfg : config) (ps : plugin_state) (outputDir : jstr)
        (bundle : list bundle_item) (absolutePath : jstr) (data : doc_record)
        (i : nat) :
  let id := virtual_id None i in
  let n := comment_node (placeholder_of id) in
  let desc := lit "inline module (index " ++ dec (N.of_nat i) ++ lit ")" in
  is_reference n = true
  /\ reference_id absolutePath data n = (Some (id, desc), [])
  /\ (forall chunk,
         find_chunk bundle id = Some chunk -> b_fileName chunk <> [] ->
         resolve_reference cfg ps outputDir bundle absolutePath data n
         = (Replace (new_script_node cfg ps outputDir absolutePath data n
                                     (b_fileName chunk)), []))
  /\ (find_chunk bundle id = None ->
      resolve_reference cfg ps outputDir bundle absolutePath data n
      = (Remove,
         [lit "Could not find output chunk for " ++ desc ++ lit " (ID: " ++ id
          ++ lit ") referenced in " ++ d_src data ++ lit ".";
          lit "Removing node for " ++ desc ++ lit " in " ++ d_src data
          ++ lit " as its output chunk was not found."])).
Proof.
  intros id n desc.
  assert (Er : reference_id absolutePath data n = (Some (id, desc), [])).
  { unfold reference_id, n, comment_node. cbn [nodeName value].
    change (eqs (lit "#comment") (lit "#comment")) with true. cbv iota.
    unfold id. rewrite placeholder_round_trip, index_of_virtual_id. reflexivity. }
  split; [apply placeholder_is_reference|]. split; [exact Er|].
  assert (Hne : is_empty id = false) by reflexivity.
  split.
  - intros chunk Hc Hf. unfold resolve_reference. rewrite Er, Hne, Hc.
    destruct (b_fileName chunk); [contradiction|reflexivity].
  - intros Hc. unfold resolve_reference. rewrite Er, Hne, Hc. reflexivity.
Qed.

Lemma placeholder_is_read_back_witness :
  resolve_reference (H := Demo.sub_page) (make_config Demo.keep_structure)
                    Demo.sub_state (lit "dist") [Demo.a_chunk]
                    (lit "/work/sub/page.html") Demo.sub_record
                    (comment_node (placeholder_of (virtual_id None 0)))
  = (Replace (new_script_node (H := Demo.sub_page) (make_config Demo.keep_structure)
                              Demo.sub_state (lit "dist")
                              (lit "/work/sub/page.html") Demo.sub_record
                              (comment_node (placeholder_of (virtual_id None 0)))
                              (lit "assets/a-1.js")), []).
Proof.
  destruct (placeholder_is_read_back
              (H := Demo.sub_page) (make_config Demo.keep_structure)
              Demo.sub_state (lit "dist") [Demo.a_chunk]
              (lit "/work/sub/page.html") Demo.sub_record 0) as (_ & _ & P & _).
  apply (P Demo.a_chunk); [reflexivity|discriminate].
Defined.

Lemma match_here_miss (v : jstr) :
  startsWith (PLACEHOLDER_PREFIX ++ INLINE_MODULE_PREFIX) v = false ->
  match_here v = None.
Proof. intros E. unfold match_here. rewrite E. reflexivity. Qed.

Lemma match_placeholder_miss (c : N) (v : jstr) :
  startsWith (PLACEHOLDER_PREFIX ++ INLINE_MODULE_PREFIX) (c :: v) = false ->
  match_placeholder (c :: v) = match_placeholder v.
Proof. intros E. cbn [match_placeholder]. rewrite (match_here_miss _ E). reflexivity. Qed.

Lemma match_placeholder_digits (d : jstr) :
  Forall (fun c => is_digit c = true) d ->
  match_placeholder (d ++ lit "__") = None.
Proof.
  induction 1 as [|c d Hc _ IH]; [reflexivity|].
  cbn [app]. rewrite match_placeholder_miss; [exact IH|].
  change (PLACEHOLDER_PREFIX ++ INLINE_MODULE_PREFIX)
    with (95%N :: tl (PLACEHOLDER_PREFIX ++ INLINE_MODULE_PREFIX)).
  cbn [startsWith]. unfold is_digit in Hc. apply andb_true_iff in Hc as [_ Hc].
  apply N.leb_le in Hc. destruct (N.eqb_spec 95 c) as [E|_]; [lia|reflexivity].
Qed.

(** The token of a module script whose [src] attribute is empty: the
    regular expression wants a character between the prefix and [?index=]
    and finds none. *)
Lemma empty_src_token_unparsed (i : nat) :
  match_placeholder (placeholder_of (virtual_id (Some []) i)) = None.
Proof.
  unfold placeholder_of, virtual_id. cbn [to_template app].
  pose proof (match_placeholder_digits _ (dec_digits (N.of_nat i))) as Hd.
  revert Hd. generalize (dec (N.of_nat i)). intros d Hd.
  assert (E0 : match_here (PLACEHOLDER_PREFIX
                           ++ (INLINE_MODULE_PREFIX ++ lit "?index=" ++ d) ++ lit "__")
               = None).
  { unfold match_here.
    replace (PLACEHOLDER_PREFIX ++ (INLINE_MODULE_PREFIX ++ lit "?index=" ++ d) ++ lit "__")
      with ((PLACEHOLDER_PREFIX ++ INLINE_MODULE_PREFIX)
            ++ lit "?index=" ++ d ++ lit "__")
      by (rewrite <- !app_assoc; reflexivity).
    rewrite startsWith_app, drop_app_length. reflexivity. }
  replace (PLACEHOLDER_PREFIX ++ (INLINE_MODULE_PREFIX ++ lit "?index=" ++ d) ++ lit "__")
    with (((PLACEHOLDER_PREFIX ++ INLINE_MODULE_PREFIX) ++ lit "?index=")
          ++ d ++ lit "__") in E0 |- *
    by (rewrite <- !app_assoc; reflexivity).
  revert E0.
  let v := eval vm_compute in ((PLACEHOLDER_PREFIX ++ INLINE_MODULE_PREFIX) ++ lit "?index=")
  in change ((PLACEHOLDER_PREFIX ++ INLINE_MODULE_PREFIX) ++ lit "?index=") with v.
  cbn [app]. intros E0. cbn [match_placeholder]. rewrite E0.
  repeat (rewrite match_placeholder_miss by reflexivity).
  exact Hd.
Qed.

(** X9. A module script whose [src] attribute is present and empty is
    taken for an inline module by the extraction pass: its code is
    registered under an identifier without a name between the prefix and
    [?index=], and a comment with the token takes its place.  The rewrite
    pass finds the comment but cannot parse the identifier back, so it
    removes the comment with two warnings, whatever the bundle holds: the
    module is bundled and the document does not refer to it. *)
Theorem empty_src_module_loses_its_script `{Host}
        (cfg : config) (absolutePath doc_src : jstr) (p : option pctx)
        (n : node) (st : xstate)
        (ps : plugin_state) (outputDir : jstr) (bundle : list bundle_item)
        (data : doc_record) :
  nodeName n = lit "script" ->
  attr_find (lit "type") (attrs n) = Some (lit "module") ->
  attr_find (lit "src") (attrs n) = Some [] ->
  trim (getTextContent n) <> [] ->
  let id := INLINE_MODULE_PREFIX ++ lit "?index="
            ++ dec (N.of_nat (length (inlineModules st))) in
  let token := PLACEHOLDER_PREFIX ++ id ++ lit "__" in
  traverse cfg absolutePath doc_src p n st
  = Ret (Some (comment_node token))
        {| rollupHtml := set_add id (rollupHtml st);
           inlineModules := inlineModules st
             ++ [{| virtualId := id; code := getTextContent n; placeholder := token |}];
           xlog := xlog st |}
  /\ resolveId id = Some id
  /\ is_reference (comment_node token) = true
  /\ resolve_reference cfg ps outputDir bundle absolutePath data (comment_node token)
     = (Remove,
        [lit "Could not parse virtual ID from placeholder in " ++ d_src data
         ++ lit ": " ++ token;
         lit "Removing unparsed placeholder comment in " ++ d_src data ++ lit "."]).
Proof.
  intros Hn Ht Hs Hc id token.
  assert (Eid : id = virtual_id (Some []) (length (inlineModules st))) by reflexivity.
  assert (Etok : token = placeholder_of id) by reflexivity.
  split; [|split; [|split]].
  - unfold traverse. rewrite traverse_ov_unfold. cbv zeta. cbn [default].
    rewrite set_value_same, Hn.
    change (eqs (lit "script") (lit "#comment")) with false.
    change (eqs (lit "script") (lit "style")) with false.
    change (eqs (lit "script") (lit "script")) with true.
    cbn [andb]. unfold script_step. rewrite Hs, Ht. cbn [truthy_str negb andb is_str].
    change (eqs (lit "module") (lit "module")) with true.
    destruct (trim (getTextContent n)) as [|c t]; [contradiction|].
    cbn [is_empty]. reflexivity.
  - unfold resolveId. rewrite Eid. unfold virtual_id.
    rewrite startsWith_app, orb_true_r. reflexivity.
  - rewrite Etok. apply placeholder_is_reference.
  - unfold resolve_reference, reference_id, comment_node. cbn [nodeName value].
    change (eqs (lit "#comment") (lit "#comment")) with true. cbv iota.
    rewrite Etok, Eid, empty_src_token_unparsed. reflexivity.
Qed.

Lemma empty_src_module_loses_its_script_witness :
  resolve_reference (H := Demo.sub_page) (make_config no_options)
                    Demo.sub_state (lit "dist") [Demo.a_chunk]
                    (lit "/work/sub/page.html") Demo.sub_record
                    (comment_node (PLACEHOLDER_PREFIX
                                   ++ (INLINE_MODULE_PREFIX ++ lit "?index=" ++ dec 0)
                                   ++ lit "__"))
  = (Remove,
     [lit "Could not parse virtual ID from placeholder in sub/page.html: "
      ++ PLACEHOLDER_PREFIX ++ (INLINE_MODULE_PREFIX ++ lit "?index=" ++ dec 0)
      ++ lit "__";
      lit "Removing unparsed placeholder comment in sub/page.html."]).
Proof.
  apply (empty_src_module_loses_its_script
           (H := Demo.sub_page) (make_config no_options)
           (lit "/work/sub/page.html") (lit "sub/page.html") None
           (Demo.script [("type", "module"); ("src", "")]%string "a()")
           {| rollupHtml := []; inlineModules := []; xlog := [] |}
           Demo.sub_state (lit "dist") [Demo.a_chunk] Demo.sub_record).
  - reflexivity.
  - reflexivity.
  - reflexivity.
  - vm_compute. discriminate.
Defined.

(** ** What the rewrite pass leaves in the tree *)

Section NoPlaceholderLeft.
Context `{Host}.
Variable cfg : config.
Variable ps : plugin_state.
Variable outputDir : jstr.
Variable bundle : list bundle_item.
Variable absolutePath : jstr.
Variable data : doc_record.

Local Abbreviation rewrite := (rewrite_node cfg ps outputDir bundle absolutePath data).
Local Abbreviation resolve :=
  (resolve_reference cfg ps outputDir bundle absolutePath data).



Lemma rewrite_node_root (n : node) :
  nodeName (fst (rewrite n)) = nodeName n /\ value (fst (rewrite n)) = value n.
Proof.
  destruct n as [name tag ats ns val kids tmpl]. cbn [rewrite_node].
  destruct (rewrite_list _ _ _ _ _ _ _ kids) as [kids' w1].
  destruct (eqs name (lit "template")); [|split; reflexivity].
  destruct (rewrite_list _ _ _ _ _ _ _ tmpl) as [tmpl' w2]. split; reflexivity.
Qed.



Lemma minify_node_root (n : node) :
  nodeName (fst (minify_node data n)) = nodeName n
  /\ attrs (fst (minify_node data n)) = attrs n
  /\ value (fst (minify_node data n)) = value n.
Proof.
  destruct n as [name tag ats ns val kids tmpl]. cbn [minify_node].
  destruct (minify_list _ kids) as [kids' w1].
  destruct (if eqs name (lit "template") then minify_list _ tmpl else (tmpl, []))
    as [tmpl' w2].
  set (n' := Node name tag ats ns val kids' tmpl').
  assert (Hs : forall out, nodeName (setTextContent n' out) = name
                           /\ attrs (setTextContent n' out) = ats
                           /\ value (setTextContent n' out) = val).
  { intros out. unfold setTextContent, n'. cbn [childNodes].
    destruct kids' as [|c rest]; [repeat split|].
    destruct (eqs (nodeName c) (lit "#text")); repeat split. }
  destruct (is_inline_script _ && negb (is_empty (trim (getTextContent _))));
    [|repeat split].
  destruct (terserMinify _) as [[out|]|e]; [apply Hs|repeat split..].
Qed.

End NoPlaceholderLeft.



(** ** The loop over the inline scripts *)

Lemma flat_map_flat_map {A B C : Type} (f : A -> list B) (g : B -> list C)
      (l : list A) :
  flat_map g (flat_map f l) = flat_map (fun x => flat_map g (f x)) l.
Proof.
  induction l as [|x l IH]; [reflexivity|].
  cbn [flat_map]. rewrite flat_map_app, IH. reflexivity.
Qed.

Lemma map_flat_map {A B C : Type} (f : A -> list B) (g : B -> C) (l : list A) :
  List.map g (flat_map f l) = flat_map (fun x => List.map g (f x)) l.
Proof.
  induction l as [|x l IH]; [reflexivity|].
  cbn [flat_map]. rewrite List.map_app, IH. reflexivity.
Qed.

Lemma flat_map_of_map {A B C : Type} (f : A -> B) (g : B -> list C) (l : list A) :
  flat_map g (List.map f l) = flat_map (fun x => g (f x)) l.
Proof.
  induction l as [|x l IH]; [reflexivity|].
  cbn [flat_map List.map]. rewrite IH. reflexivity.
Qed.

Lemma flat_map_Forall {A B : Type} (f g : A -> list B) (l : list A) :
  Forall (fun x => f x = g x) l -> flat_map f l = flat_map g l.
Proof.
  induction 1 as [|x l Hx _ IH]; [reflexivity|].
  cbn [flat_map]. rewrite Hx, IH. reflexivity.
Qed.

Section MinifyFacts.
Context `{Host}.
Variable data : doc_record.

Local Abbreviation minify := (minify_node data).

Lemma minify_list_map (l : list node) :
  minify_list minify l
  = (List.map (fun c => fst (minify c)) l, flat_map (fun c => snd (minify c)) l).
Proof.
  induction l as [|c l IH]; [reflexivity|].
  cbn [minify_list List.map flat_map]. rewrite IH.
  destruct (minify c) as [c' w]. reflexivity.
Qed.

Lemma minify_node_unfold (n : node) :
  minify n
  = let kids' := List.map (fun c => fst (minify c)) (childNodes n) in
    let tmpl' := if eqs (nodeName n) (lit "template")
                 then List.map (fun c => fst (minify c)) (content n)
                 else content n in
    let w := flat_map (fun c => snd (minify c)) (childNodes n)
             ++ (if eqs (nodeName n) (lit "template")
                 then flat_map (fun c => snd (minify c)) (content n) else []) in
    let n0 := Node (nodeName n) (tagName n) (attrs n) (namespaceURI n) (value n)
                   kids' tmpl' in
    if is_inline_script n && negb (is_empty (trim (getTextContent n))) then
      match terserMinify (getTextContent n) with
      | Returned (Some out) => (setTextContent n0 out, w)
      | Returned None =>
          (n0, (lit "Terser returned undefined code for inline script in "
                ++ d_src data) :: w)
      | Thrown e =>
          (n0, (lit "Terser failed for inline script in " ++ d_src data
                ++ lit ": " ++ e ++ lit ". Keeping original.") :: w)
      end
    else (n0, w).
Proof.
  destruct n as [name tag ats ns val kids tmpl].
  cbn [minify_node nodeName tagName attrs namespaceURI value childNodes content].
  rewrite minify_list_map.
  destruct (eqs name (lit "template")); [rewrite minify_list_map|];
    cbv zeta;
    destruct (is_inline_script _ && negb (is_empty (trim (getTextContent _))));
    try reflexivity;
    destruct (terserMinify _) as [[out|]|e]; reflexivity.
Qed.

(** The text of a node is read from the name and the value of its first
    child, which the loop keeps. *)
Lemma getTextContent_minified_children (name tag : jstr) (ats : list attr)
      (ns val : jstr) (kids tmpl : list node) (n : node) :
  childNodes n = kids ->
  getTextContent (Node name tag ats ns val
                       (List.map (fun c => fst (minify c)) kids) tmpl)
  = getTextContent n.
Proof.
  intros <-. unfold getTextContent. cbn [childNodes].
  destruct (childNodes n) as [|c rest]; [reflexivity|]. cbn [List.map].
  destruct (minify_node_root data c) as (E1 & _ & E2). rewrite E1, E2. reflexivity.
Qed.

Lemma findNodes_set_value (pred : node -> bool) (v : jstr) (c : node) :
  pred c = false -> pred (set_value v c) = false ->
  findNodes pred (set_value v c) = findNodes pred c.
Proof.
  intros H1 H2. rewrite (findNodes_unfold pred (set_value v c)), (findNodes_unfold pred c).
  rewrite H1, H2. reflexivity.
Qed.

Lemma text_is_no_inline_script (c : node) :
  eqs (nodeName c) (lit "#text") = true -> is_inline_script c = false.
Proof.
  intros E. apply eqs_spec in E. unfold is_inline_script. rewrite E. reflexivity.
Qed.

(** A script whose text is not blank starts with a text node. *)
Lemma nonblank_text_head (n : node) :
  is_empty (trim (getTextContent n)) = false ->
  exists c rest, childNodes n = c :: rest /\ eqs (nodeName c) (lit "#text") = true.
Proof.
  unfold getTextContent. destruct (childNodes n) as [|c rest]; [discriminate|].
  destruct (eqs (nodeName c) (lit "#text")) eqn:E; [|discriminate].
  intros _. exists c, rest. split; [reflexivity|exact E].
Qed.

Lemma minify_node_follows (n : node) :
  snd (minify n) = flat_map (minify_warning data) (findNodes is_inline_script n)
  /\ List.map getTextContent (findNodes is_inline_script (fst (minify n)))
     = List.map minified_text (findNodes is_inline_script n).
Proof.
  induction n as [name tag ats ns val kids tmpl IHk IHt] using node_induction.
  assert (Hw : forall l,
             Forall (fun c =>
                       snd (minify c)
                       = flat_map (minify_warning data) (findNodes is_inline_script c)
                       /\ List.map getTextContent (findNodes is_inline_script (fst (minify c)))
                          = List.map minified_text (findNodes is_inline_script c)) l ->
             flat_map (fun c => snd (minify c)) l
             = flat_map (minify_warning data) (flat_map (findNodes is_inline_script) l)
             /\ List.map getTextContent
                  (flat_map (findNodes is_inline_script)
                            (List.map (fun c => fst (minify c)) l))
                = List.map minified_text (flat_map (findNodes is_inline_script) l)).
  { intros l Hl. rewrite flat_map_flat_map, flat_map_of_map, !map_flat_map.
    split; apply flat_map_Forall; revert Hl; apply List.Forall_impl;
      intros c [E1 E2]; assumption. }
  destruct (Hw kids IHk) as [Wk Tk]. destruct (Hw tmpl IHt) as [Wt Tt]. clear Hw.
  rewrite minify_node_unfold.
  cbn [nodeName tagName attrs namespaceURI value childNodes content]. cbv zeta.
  set (kids' := List.map (fun c => fst (minify c)) kids) in *.
  set (tmpl' := if eqs name (lit "template")
                then List.map (fun c => fst (minify c)) tmpl else tmpl).
  assert (Hs : is_inline_script (Node name tag ats ns val kids' tmpl')
               = is_inline_script (Node name tag ats ns val kids tmpl)) by reflexivity.
  assert (Hg : getTextContent (Node name tag ats ns val kids' tmpl')
               = getTextContent (Node name tag ats ns val kids tmpl))
    by (apply getTextContent_minified_children; reflexivity).
  assert (Hbelow :
            List.map getTextContent
              (flat_map (findNodes is_inline_script) kids'
               ++ (if eqs name (lit "template")
                   then flat_map (findNodes is_inline_script) tmpl' else []))
            = List.map minified_text
                (flat_map (findNodes is_inline_script) kids
                 ++ (if eqs name (lit "template")
                     then flat_map (findNodes is_inline_script) tmpl else []))).
  { rewrite !List.map_app, Tk. f_equal. unfold tmpl'.
    destruct (eqs name (lit "template")); [exact Tt|reflexivity]. }
  assert (Hwarn :
            flat_map (fun c => snd (minify c)) kids
            ++ (if eqs name (lit "template")
                then flat_map (fun c => snd (minify c)) tmpl else [])
            = flat_map (minify_warning data)
                (flat_map (findNodes is_inline_script) kids
                 ++ (if eqs name (lit "template")
                     then flat_map (findNodes is_inline_script) tmpl else []))).
  { rewrite flat_map_app, Wk. f_equal.
    destruct (eqs name (lit "template")); [exact Wt|reflexivity]. }
  rewrite (findNodes_unfold is_inline_script (Node name tag ats ns val kids tmpl)).
  cbn [nodeName childNodes content].
  destruct (is_inline_script (Node name tag ats ns val kids tmpl)) eqn:Es; cbn [andb].
  - destruct (is_empty (trim (getTextContent (Node name tag ats ns val kids tmpl)))) eqn:Eb; cbn [negb].
    + cbn [fst snd]. rewrite findNodes_unfold, Hs.
      cbn [nodeName childNodes content app List.map flat_map].
      unfold minify_warning at 1, minified_text at 1. rewrite Eb. cbn [negb app].
      rewrite Hg, Hbelow, Hwarn. split; reflexivity.
    + destruct (terserMinify (getTextContent (Node name tag ats ns val kids tmpl))) as [[out|]|e] eqn:Et; cbn [fst snd].
      * destruct (nonblank_text_head (Node name tag ats ns val kids tmpl) Eb) as (c & rest & Ek & Ec).
        cbn [childNodes] in Ek. subst kids.
        assert (Ec' : eqs (nodeName (fst (minify c))) (lit "#text") = true).
        { destruct (minify_node_root data c) as (E1 & _). rewrite E1. exact Ec. }
        unfold setTextContent. cbn [childNodes]. unfold kids'. cbn [List.map].
        rewrite Ec'. unfold set_childNodes.
        cbn [nodeName tagName attrs namespaceURI value content].
        rewrite findNodes_unfold. cbn [nodeName childNodes content].
        change (is_inline_script (Node name tag ats ns val _ tmpl'))
          with (is_inline_script (Node name tag ats ns val (c :: rest) tmpl)).
        rewrite Es.
        cbn [flat_map]. rewrite findNodes_set_value;
          [|apply text_is_no_inline_script; exact Ec'
           |apply text_is_no_inline_script; exact Ec'].
        cbn [app List.map flat_map].
        assert (Ew : minify_warning data (Node name tag ats ns val (c :: rest) tmpl) = []).
        { unfold minify_warning. cbv zeta. rewrite Eb, Et. reflexivity. }
        assert (Em : minified_text (Node name tag ats ns val (c :: rest) tmpl) = out).
        { unfold minified_text. cbv zeta. rewrite Eb, Et. reflexivity. }
        assert (Eg : getTextContent
                       (Node name tag ats ns val
                             (set_value out (fst (minify c))
                              :: List.map (fun c => fst (minify c)) rest) tmpl')
                     = out).
        { unfold getTextContent, set_value. cbn [childNodes nodeName value].
          rewrite Ec'. reflexivity. }
        rewrite Ew, Em, Eg. cbn [app].
        unfold kids' in Hbelow. cbn [flat_map List.map] in Hbelow, Hwarn.
        rewrite Hbelow, Hwarn. split; reflexivity.
      * rewrite findNodes_unfold, Hs.
        cbn [nodeName childNodes content app List.map flat_map].
        unfold minify_warning at 1, minified_text at 1. rewrite Eb, Et. cbn [negb app].
        rewrite Hg, Hbelow, Hwarn. split; reflexivity.
      * rewrite findNodes_unfold, Hs.
        cbn [nodeName childNodes content app List.map flat_map].
        unfold minify_warning at 1, minified_text at 1. rewrite Eb, Et. cbn [negb app].
        rewrite Hg, Hbelow, Hwarn. split; reflexivity.
  - cbn [fst snd]. rewrite findNodes_unfold, Hs.
    cbn [nodeName childNodes content app]. rewrite Hbelow, Hwarn. split; reflexivity.
Qed.

Lemma shell_set_value (v : jstr) (c : node) :
  eqs (nodeName c) (lit "#text") = true ->
  List.map shell (findNodes (fun _ => true) (set_value v c))
  = List.map shell (findNodes (fun _ => true) c).
Proof.
  intros Ec. rewrite (findNodes_unfold _ (set_value v c)), (findNodes_unfold _ c).
  cbn [app List.map]. f_equal. unfold shell, set_value. cbn [nodeName attrs value].
  rewrite Ec. reflexivity.
Qed.

Lemma minify_node_shell (n : node) :
  List.map shell (findNodes (fun _ => true) (fst (minify n)))
  = List.map shell (findNodes (fun _ => true) n).
Proof.
  induction n as [name tag ats ns val kids tmpl IHk IHt] using node_induction.
  assert (Hl : forall l,
             Forall (fun c => List.map shell (findNodes (fun _ => true) (fst (minify c)))
                              = List.map shell (findNodes (fun _ => true) c)) l ->
             List.map shell (flat_map (findNodes (fun _ => true))
                                      (List.map (fun c => fst (minify c)) l))
             = List.map shell (flat_map (findNodes (fun _ => true)) l)).
  { intros l Hl. rewrite flat_map_of_map, !map_flat_map.
    apply flat_map_Forall. exact Hl. }
  pose proof (Hl kids IHk) as Sk. pose proof (Hl tmpl IHt) as St. clear Hl.
  rewrite minify_node_unfold.
  cbn [nodeName tagName attrs namespaceURI value childNodes content]. cbv zeta.
  set (kids' := List.map (fun c => fst (minify c)) kids) in *.
  set (tmpl' := if eqs name (lit "template")
                then List.map (fun c => fst (minify c)) tmpl else tmpl).
  assert (Hbelow :
            List.map shell
              (flat_map (findNodes (fun _ => true)) kids'
               ++ (if eqs name (lit "template")
                   then flat_map (findNodes (fun _ => true)) tmpl' else []))
            = List.map shell
                (flat_map (findNodes (fun _ => true)) kids
                 ++ (if eqs name (lit "template")
                     then flat_map (findNodes (fun _ => true)) tmpl else []))).
  { rewrite !List.map_app, Sk. f_equal. unfold tmpl'.
    destruct (eqs name (lit "template")); [exact St|reflexivity]. }
  assert (Hsame : List.map shell (findNodes (fun _ => true)
                                            (Node name tag ats ns val kids' tmpl'))
                  = List.map shell (findNodes (fun _ => true) (Node name tag ats ns val kids tmpl))).
  { rewrite (findNodes_unfold _ (Node name tag ats ns val kids' tmpl')),
            (findNodes_unfold _ (Node name tag ats ns val kids tmpl)).
    cbn [nodeName childNodes content app List.map]. rewrite Hbelow. reflexivity. }
  destruct (is_inline_script (Node name tag ats ns val kids tmpl) && negb (is_empty (trim (getTextContent (Node name tag ats ns val kids tmpl)))))
    eqn:Eown; [|exact Hsame].
  destruct (terserMinify (getTextContent (Node name tag ats ns val kids tmpl))) as [[out|]|e]; cbn [fst];
    [|exact Hsame..].
  apply andb_true_iff in Eown as [_ Eb]. apply negb_true_iff in Eb.
  destruct (nonblank_text_head (Node name tag ats ns val kids tmpl) Eb) as (c & rest & Ek & Ec).
  cbn [childNodes] in Ek. subst kids.
  assert (Ec' : eqs (nodeName (fst (minify c))) (lit "#text") = true).
  { destruct (minify_node_root data c) as (E1 & _). rewrite E1. exact Ec. }
  unfold setTextContent. cbn [childNodes]. unfold kids'. cbn [List.map].
  rewrite Ec'. unfold set_childNodes.
  cbn [nodeName tagName attrs namespaceURI value content].
  rewrite <- Hsame.
  rewrite (findNodes_unfold _ (Node name tag ats ns val (set_value out _ :: _) tmpl')),
          (findNodes_unfold _ (Node name tag ats ns val kids' tmpl')).
  unfold kids'.
  cbn [nodeName childNodes content app List.map flat_map].
  rewrite <- !app_assoc, !List.map_app, shell_set_value by exact Ec'. reflexivity.
Qed.

End MinifyFacts.

(** X11. The loop over the inline scripts of a document, run on any tree,
    is the loop of the source over [findNodes]: every script without a
    non-empty [src] that is not a module is looked at once, in the order of
    [findNodes]; a script whose text is not only white space is given to
    the minifier and gets the code it returns, or keeps its text with one
    warning when the minifier returns no code or raises; the other scripts
    keep their text, silently.  The loop adds no node and removes none, and
    it changes no name, no attribute and no value but that of a text
    node. *)
Theorem terser_loop_follows_findNodes `{Host} (data : doc_record) (ast : node) :
  let scripts := findNodes is_inline_script ast in
  let ast' := fst (minify_node data ast) in
  snd (minify_node data ast) = flat_map (minify_warning data) scripts
  /\ List.map getTextContent (findNodes is_inline_script ast')
     = List.map minified_text scripts
  /\ List.map shell (findNodes (fun _ => true) ast')
     = List.map shell (findNodes (fun _ => true) ast).
Proof.
  intros scripts ast'. destruct (minify_node_follows data ast) as [Hw Ht].
  split; [exact Hw|]. split; [exact Ht|apply minify_node_shell].
Qed.

(** ** What [generateBundle] emits *)

Section EmissionTrace.
Context `{Host}.
Variable cfg : config.
Variable ps : plugin_state.
Variable outputDir : jstr.
Variable bundle : list bundle_item.

Local Abbreviation name := (document_name cfg ps).
Local Abbreviation file := (document_file cfg ps outputDir bundle).

Lemma warnings_are_context_events (w : list jstr) (e : event) :
  Forall (fun e => is_context_event e = true) (List.map CtxWarn w ++ [e]) 
  <-> is_context_event e = true.
Proof.
  split.
  - intros Hf. apply Forall_app in Hf as [_ Hf]. inversion Hf. assumption.
  - intros He. apply Forall_app. split; [|constructor; [exact He|constructor]].
    apply List.Forall_forall. intros x Hx. apply in_map_iff in Hx as [m [<- _]].
    reflexivity.
Qed.

Lemma warnings_are_no_errors (w : list jstr) :
  Forall (fun e => is_error_event e = false) (List.map CtxWarn w).
Proof.
  apply List.Forall_forall. intros x Hx. apply in_map_iff in Hx as [m [<- _]].
  reflexivity.
Qed.

Lemma emit_all_trace (docs : list (jstr * doc_record)) :
  forall st,
  exists sel more,
    sublist sel docs
    /\ glog (gstate_of (emit_all cfg ps outputDir bundle docs st)) = glog st ++ more
    /\ emitted_files more = List.map file sel
    /\ Forall (fun e => is_context_event e = true) more
    /\ (forall e st',
           emit_all cfg ps outputDir bundle docs st = GRaised e st' ->
           error_raises = true /\ exists before, more = before ++ [CtxError e])
    /\ (List.NoDup (emitted st ++ List.map name docs) ->
        sel = docs
        /\ (exists st', emit_all cfg ps outputDir bundle docs st = GWent st')
        /\ Forall (fun e => is_error_event e = false) more).
Proof.
  induction docs as [|d docs IH]; intros st; cbn [emit_all].
  - exists [], []. cbn [gstate_of]. rewrite app_nil_r.
    split; [constructor|]. split; [reflexivity|]. split; [reflexivity|].
    split; [constructor|]. split; [discriminate|].
    intros _. split; [reflexivity|]. split; [exists st; reflexivity|constructor].
  - destruct (set_has (name d) (emitted st)) eqn:Hf.
    + destruct (emit_document_taken cfg ps outputDir bundle d st Hf) as [w E].
      cbv zeta in E. rewrite E. clear E.
      assert (Hdup : List.NoDup (emitted st ++ List.map name (d :: docs)) -> False).
      { cbn [List.map]. intros Hn. apply NoDup_remove_2 in Hn. apply Hn.
        apply in_or_app. left. apply set_has_In. exact Hf. }
      destruct error_raises eqn:Er.
      * exists [], (List.map CtxWarn w
                    ++ [CtxError (collision_message outputDir (name d))]).
        cbn [gstate_of glog].
        split; [apply sublist_nil_l|]. split; [reflexivity|].
        split; [rewrite emitted_files_app, emitted_files_warnings; reflexivity|].
        split; [apply warnings_are_context_events; reflexivity|].
        split; [|intros Hn; destruct (Hdup Hn)].
        intros e st' Ee. inversion Ee; subst. split; [reflexivity|].
        eexists. reflexivity.
      * destruct (IH {| emitted := emitted st;
                        glog := glog st ++ List.map CtxWarn w
                          ++ [CtxError (collision_message outputDir (name d))] |})
          as (sel & more & Hs & Hl & He & Hc & Hr & _).
        cbn [glog emitted] in *.
        exists sel, ((List.map CtxWarn w
                      ++ [CtxError (collision_message outputDir (name d))]) ++ more).
        split; [apply sublist_cons; exact Hs|].
        split; [rewrite Hl, <- !app_assoc; reflexivity|].
        split.
        { rewrite !emitted_files_app, emitted_files_warnings. exact He. }
        split.
        { apply Forall_app. split; [|exact Hc].
          apply warnings_are_context_events. reflexivity. }
        split; [|intros Hn; destruct (Hdup Hn)].
        intros e st' Ee. destruct (Hr e st' Ee) as [Hraise _]. congruence.
    + destruct (emit_document_fresh cfg ps outputDir bundle d st Hf) as [w E].
      rewrite E. clear E.
      destruct (IH {| emitted := emitted st ++ [name d];
                      glog := glog st ++ List.map CtxWarn w
                        ++ [EmitFile (name d) (snd (file d))] |})
        as (sel & more & Hs & Hl & He & Hc & Hr & Hd).
      cbn [glog emitted] in *.
      exists (d :: sel), ((List.map CtxWarn w
                           ++ [EmitFile (name d) (snd (file d))]) ++ more).
      split; [apply sublist_skip; exact Hs|].
      split; [rewrite Hl, <- !app_assoc; reflexivity|].
      split.
      { rewrite !emitted_files_app, emitted_files_warnings. cbn [app emitted_files List.map].
        rewrite He. reflexivity. }
      split.
      { apply Forall_app. split; [|exact Hc].
        apply warnings_are_context_events. reflexivity. }
      split.
      { intros e st' Ee. destruct (Hr e st' Ee) as [Hraise [before Eb]].
        split; [exact Hraise|]. exists ((List.map CtxWarn w
                           ++ [EmitFile (name d) (snd (file d))]) ++ before).
        rewrite Eb, <- !app_assoc. reflexivity. }
      intros Hn. cbn [List.map] in Hn.
      destruct Hd as (Hsel & Hw & Hne).
      { rewrite <- app_assoc. exact Hn. }
      split; [rewrite Hsel; reflexivity|]. split; [exact Hw|].
      apply Forall_app. split; [|exact Hne].
      apply Forall_app. split; [apply warnings_are_no_errors|].
      constructor; [reflexivity|constructor].
Qed.

End EmissionTrace.

(** X12. What [generateBundle] emits and says, for every state of the
    plugin, every bundle and every output options.  No two emitted files
    have one name.  The emitted files are the files of stored documents,
    in the order of [htmlData], each at most once.  Everything is said
    through the plugin context, nothing on the console.  The hook raises
    only where [this.error] raises, and then the error is the last thing
    said.  Without an output directory nothing is emitted and the one
    thing said is the error about it. *)
Theorem generateBundle_emits_each_name_once `{Host}
        (cfg : config) (ps : plugin_state) (oo : output_options)
        (bundle : list bundle_item) :
  let result := generateBundle cfg ps oo bundle in
  let outputDir := to_template (output_dir oo) in
  List.NoDup (List.map fst (emitted_files (snd result)))
  /\ (exists sel,
         sublist sel (htmlData ps)
         /\ emitted_files (snd result)
            = List.map (document_file cfg ps outputDir bundle) sel)
  /\ Forall (fun e => is_context_event e = true) (snd result)
  /\ (forall e, fst result = Some e ->
                error_raises = true
                /\ exists before, snd result = before ++ [CtxError e])
  /\ (truthy_str (output_dir oo) = false ->
      snd result
      = [CtxError (lit "Cannot determine output directory. Set `output.dir`.")]).
Proof.
  intros result outputDir. unfold result, generateBundle.
  destruct (truthy_str (output_dir oo)) eqn:Ed.
  - fold outputDir.
    destruct (emit_all_keeps cfg ps outputDir bundle (htmlData ps)
                {| emitted := []; glog := [] |}) as [[Hm Hn] _].
    { split; [reflexivity|constructor]. }
    destruct (emit_all_trace cfg ps outputDir bundle (htmlData ps)
                {| emitted := []; glog := [] |})
      as (sel & more & Hs & Hl & He & Hc & Hr & _).
    cbn [glog app] in Hl.
    assert (Elog : snd (match emit_all cfg ps outputDir bundle (htmlData ps)
                                       {| emitted := []; glog := [] |} with
                        | GRaised e st => (Some e, glog st)
                        | GWent st => (None, glog st)
                        end)
                   = glog (gstate_of (emit_all cfg ps outputDir bundle (htmlData ps)
                                               {| emitted := []; glog := [] |}))).
    { destruct (emit_all _ _ _ _ _ _); reflexivity. }
    rewrite Elog, Hl.
    split; [rewrite Hl in Hm; rewrite Hm; exact Hn|].
    split; [exists sel; split; assumption|].
    split; [exact Hc|].
    split; [|discriminate].
    intros e Ee.
    destruct (emit_all cfg ps outputDir bundle (htmlData ps) _) as [e' st'|st'] eqn:Ea;
      [|discriminate Ee].
    cbn [fst] in Ee. inversion Ee; subst e'. exact (Hr e st' eq_refl).
  - cbn [fst snd emitted_files List.map].
    split; [constructor|].
    split; [exists []; split; [apply sublist_nil_l|reflexivity]|].
    split; [constructor; [reflexivity|constructor]|].
    split; [|reflexivity].
    intros e Ee. destruct error_raises; [|discriminate Ee].
    inversion Ee. split; [reflexivity|]. exists []. reflexivity.
Qed.

(** X13. When the output directory is known and no two stored documents
    have the same output name, [generateBundle] emits every stored document,
    in the order of [htmlData], reports no error and does not raise. *)
Theorem distinct_names_are_all_emitted `{Host}
        (cfg : config) (ps : plugin_state) (oo : output_options)
        (bundle : list bundle_item) :
  truthy_str (output_dir oo) = true ->
  List.NoDup (List.map (document_name cfg ps) (htmlData ps)) ->
  let result := generateBundle cfg ps oo bundle in
  fst result = None
  /\ emitted_files (snd result)
     = List.map (document_file cfg ps (to_template (output_dir oo)) bundle)
                (htmlData ps)
  /\ Forall (fun e => is_error_event e = false) (snd result).
Proof.
  intros Ed Hn result. unfold result, generateBundle. rewrite Ed.
  destruct (emit_all_trace cfg ps (to_template (output_dir oo)) bundle (htmlData ps)
              {| emitted := []; glog := [] |})
    as (sel & more & _ & Hl & He & _ & _ & Hd).
  destruct (Hd Hn) as (Hsel & [st' Ew] & Hne). subst sel.
  rewrite Ew in Hl |- *. cbn [gstate_of glog app fst snd] in Hl |- *.
  rewrite Hl. split; [reflexivity|]. split; [exact He|exact Hne].
Qed.

Lemma distinct_names_are_all_emitted_witness :
  fst (generateBundle (H := Demo.sub_page) (make_config Demo.keep_structure)
                      Demo.sub_state Demo.to_dist [Demo.a_chunk])
  = None.
Proof.
  refine (proj1 (distinct_names_are_all_emitted
                   (H := Demo.sub_page) (make_config Demo.keep_structure)
                   Demo.sub_state Demo.to_dist [Demo.a_chunk] _ _)).
  - reflexivity.
  - vm_compute. constructor; [intros []|constructor].
Defined.

(** ** Compressing white space twice *)

Lemma collapse_length (b : bool) (s : jstr) :
  length (collapse_from b s) <= length s.
Proof.
  revert b. induction s as [|c s IH]; intros b; cbn [collapse_from length]; [lia|].
  destruct (is_space c); [destruct b|]; cbn [length];
    try (specialize (IH true); lia); specialize (IH false); lia.
Qed.

Lemma collapse_true_false (s : jstr) :
  starts_ws s = false -> collapse_from true s = collapse_from false s.
Proof.
  destruct s as [|c s]; [reflexivity|]. cbn [starts_ws collapse_from].
  intros ->. reflexivity.
Qed.

Lemma collapse_idem (b : bool) (s : jstr) :
  collapse_from false (collapse_from b s) = collapse_from b s.
Proof.
  revert b. induction s as [|c s IH]; intros b; [reflexivity|].
  cbn [collapse_from]. destruct (is_space c) eqn:Ec.
  - destruct b; [apply IH|].
    cbn [collapse_from]. change (is_space SP) with true. cbv iota.
    rewrite collapse_true_false by apply collapse_true_head.
    rewrite IH. reflexivity.
  - cbn [collapse_from]. rewrite Ec, IH. reflexivity.
Qed.

Lemma trimStart_collapse (b : bool) (s : jstr) :
  trimStart (collapse_from b s) = collapse_from false (trimStart s).
Proof.
  revert b. induction s as [|c s IH]; intros b; [reflexivity|].
  cbn [collapse_from trimStart]. destruct (is_space c) eqn:Ec.
  - destruct b; [apply IH|]. cbn [trimStart]. change (is_space SP) with true.
    cbv iota. apply IH.
  - cbn [trimStart collapse_from]. rewrite Ec. reflexivity.
Qed.

Lemma collapsed_prefix (b : bool) (a x : jstr) :
  collapse_from b (a ++ x) = a ++ x -> collapse_from b a = a.
Proof.
  revert b. induction a as [|c a IH]; intros b; [reflexivity|].
  cbn [app collapse_from]. destruct (is_space c) eqn:Ec.
  - destruct b.
    + intros E. pose proof (collapse_length true (a ++ x)) as Hl.
      rewrite E in Hl. cbn [length] in Hl. lia.
    + intros E. inversion E as [[E1 E2]]. rewrite (IH true E2). reflexivity.
  - intros E. inversion E as [E1]. rewrite (IH false E1). reflexivity.
Qed.

Lemma collapsed_trimStart (s : jstr) :
  collapse_ws s = s -> collapse_ws (trimStart s) = trimStart s.
Proof.
  intros E. unfold collapse_ws in *. rewrite <- (trimStart_collapse false), E. reflexivity.
Qed.

Lemma collapsed_trimEnd (s : jstr) :
  collapse_ws s = s -> collapse_ws (trimEnd s) = trimEnd s.
Proof.
  intros E. destruct (trimEnd_prefix s) as [suf Es].
  unfold collapse_ws in *. apply (collapsed_prefix false _ suf).
  rewrite <- Es. exact E.
Qed.

Lemma trimStart_fixed (t : jstr) : starts_ws t = false -> trimStart t = t.
Proof.
  destruct t as [|c t]; [reflexivity|]. cbn [starts_ws trimStart]. intros ->.
  reflexivity.
Qed.

Lemma trimEnd_fixed (t : jstr) : ends_ws t = false -> trimEnd t = t.
Proof.
  intros E. unfold trimEnd. rewrite trimStart_fixed, rev_involutive; [reflexivity|].
  rewrite <- ends_ws_rev. exact E.
Qed.

Lemma compress_text_fixed (p : option pctx) (v t : jstr) :
  compress_text p v = Some t -> compress_text p t = Some t.
Proof.
  destruct p as [p|]; [|intros _; reflexivity]. unfold compress_text.
  destruct (negb (existsb (eqs (p_nodeName p)) VERBATIM)); [|intros _; reflexivity].
  cbv zeta. pose proof (collapse_idem false v) as Hc. fold (collapse_ws v) in Hc.
  fold (collapse_ws (collapse_ws v)) in Hc.
  set (c := collapse_ws v) in *.
  destruct (1 <? p_length p).
  - set (c1 := if p_index p =? 0 then trimStart c else c).
    assert (Hc1 : collapse_ws c1 = c1).
    { unfold c1. destruct (p_index p =? 0); [apply collapsed_trimStart|]; exact Hc. }
    assert (Hs1 : (p_index p =? 0) = true -> starts_ws c1 = false).
    { unfold c1. intros ->. apply trimStart_head. }
    set (c2 := if p_index p =? p_length p - 1 then trimEnd c1 else c1).
    assert (Hc2 : collapse_ws c2 = c2).
    { unfold c2. destruct (p_index p =? p_length p - 1);
        [apply collapsed_trimEnd|]; exact Hc1. }
    destruct (is_empty c2) eqn:Ee; [discriminate|].
    intros E. inversion E; subst t. rewrite Hc2.
    assert (Hne : c2 <> []) by (intros E'; rewrite E' in Ee; discriminate Ee).
    assert (Hs2 : (p_index p =? 0) = true -> starts_ws c2 = false).
    { intros E0. unfold c2 in Hne |- *. destruct (p_index p =? p_length p - 1).
      - rewrite (trimEnd_starts _ Hne). exact (Hs1 E0).
      - exact (Hs1 E0). }
    assert (Ha : (if p_index p =? 0 then trimStart c2 else c2) = c2).
    { destruct (p_index p =? 0); [|reflexivity].
      apply trimStart_fixed, Hs2. reflexivity. }
    rewrite Ha.
    assert (He2 : (p_index p =? p_length p - 1) = true -> ends_ws c2 = false).
    { unfold c2. intros ->. apply trimEnd_last. }
    assert (Hb : (if p_index p =? p_length p - 1 then trimEnd c2 else c2) = c2).
    { destruct (p_index p =? p_length p - 1); [|reflexivity].
      apply trimEnd_fixed, He2. reflexivity. }
    rewrite Hb, Ee. reflexivity.
  - destruct (is_empty (trim c)) eqn:Ee; [discriminate|].
    intros E. inversion E; subst t.
    assert (Hne : trim c <> []) by (intros E'; rewrite E' in Ee; discriminate Ee).
    assert (Hct : collapse_ws (trim c) = trim c).
    { unfold trim. apply collapsed_trimEnd, collapsed_trimStart. exact Hc. }
    rewrite Hct.
    assert (Ht : trim (trim c) = trim c).
    { unfold trim at 1. rewrite (trimStart_fixed (trim c)).
      - apply trimEnd_fixed. unfold trim. apply trimEnd_last.
      - unfold trim in Hne |- *. rewrite (trimEnd_starts _ Hne). apply trimStart_head. }
    rewrite Ht, Ee. reflexivity.
Qed.

(** X14. Compressing white space is idempotent: the text node that
    [traverse] returns for a text node under [compressWhitespace] is
    returned as it is when [traverse] visits it again at the same place,
    and the state is the one it started from. *)
Theorem whitespace_compression_is_idempotent `{Host}
        (cfg : config) (absolutePath doc_src : jstr)
        (p : pctx) (n r : node) (st st' : xstate) :
  compressWhitespace cfg = true ->
  nodeName n = lit "#text" ->
  childNodes n = [] ->
  traverse cfg absolutePath doc_src (Some p) n st = Ret (Some r) st' ->
  st' = st
  /\ traverse cfg absolutePath doc_src (Some p) r st = Ret (Some r) st.
Proof.
  intros Hc Hn Hk E. rewrite (traverse_text cfg absolutePath doc_src p n st Hc Hn Hk) in E.
  destruct (compress_text (Some p) (value n)) as [t|] eqn:Et; [|discriminate E].
  inversion E; subst r st'. split; [reflexivity|].
  rewrite (traverse_text cfg absolutePath doc_src p (set_value t n) st Hc).
  - cbn [value set_value]. rewrite (compress_text_fixed _ _ _ Et). reflexivity.
  - exact Hn.
  - exact Hk.
Qed.

Lemma whitespace_compression_is_idempotent_witness :
  traverse (H := Demo.plain_page) (make_config Demo.compress)
           (lit "/work/index.html") (lit "index.html")
           (Some {| p_nodeName := lit "p"; p_length := 2; p_index := 0 |})
           (text_node (lit "hello world "))
           {| rollupHtml := []; inlineModules := []; xlog := [] |}
  = Ret (Some (text_node (lit "hello world ")))
        {| rollupHtml := []; inlineModules := []; xlog := [] |}.
Proof.
  refine (proj2 (whitespace_compression_is_idempotent
                   (H := Demo.plain_page) (make_config Demo.compress)
                   (lit "/work/index.html") (lit "index.html")
                   {| p_nodeName := lit "p"; p_length := 2; p_index := 0 |}
                   (text_node (lit "  hello   world  "))
                   (text_node (lit "hello world "))
                   {| rollupHtml := []; inlineModules := []; xlog := [] |}
                   {| rollupHtml := []; inlineModules := []; xlog := [] |}
                   _ _ _ _)); reflexivity.
Defined.

(** ** What [traverse] leaves alone *)

Section TraverseIdle.
Context `{Host}.
Variable cfg : config.
Variable absolutePath doc_src : jstr.

Lemma visit_children_idle (kids : list node) :
  Forall (fun c => findNodes (is_touched cfg) c = [] ->
                   forall p st,
                     traverse_ov cfg absolutePath doc_src p None c st
                     = Ret (Some c) st) kids ->
  flat_map (findNodes (is_touched cfg)) kids = [] ->
  forall pname len i st,
    visit_children (traverse_ov cfg absolutePath doc_src) pname len i None kids st
    = Ret kids st.
Proof.
  induction 1 as [|c kids Hc _ IH]; intros Hf pname len i st; [reflexivity|].
  cbn [flat_map] in Hf. apply app_eq_nil in Hf as [Hf1 Hf2].
  cbn [visit_children]. rewrite (Hc Hf1), (IH Hf2). reflexivity.
Qed.

Lemma traverse_ov_idle (n : node) :
  findNodes (is_touched cfg) n = [] ->
  forall p st,
    traverse_ov cfg absolutePath doc_src p None n st = Ret (Some n) st.
Proof.
  induction n as [name tag ats ns val kids tmpl IHk IHt] using node_induction.
  intros Hf p st. apply findNodes_nil_parts in Hf as (Hn & Hk & Ht).
  cbn [nodeName childNodes content] in Hk, Ht.
  unfold is_touched in Hn. cbn [nodeName] in Hn.
  apply orb_false_iff in Hn as [Hn Htext].
  apply orb_false_iff in Hn as [Hn Hscript].
  apply orb_false_iff in Hn as [Hcomment Hstyle].
  rewrite traverse_ov_unfold. unfold set_value.
  cbn [nodeName tagName attrs namespaceURI value childNodes content default].
  cbv zeta. rewrite Hstyle, Hscript, Htext.
  destruct (eqs name (lit "#comment")) eqn:Ec.
  - cbn [andb] in Hcomment. rewrite Hcomment. reflexivity.
  - rewrite (visit_children_idle kids IHk Hk).
    destruct (eqs name (lit "template")) eqn:Et; [|reflexivity].
    rewrite (visit_children_idle tmpl IHt (Ht eq_refl)). reflexivity.
Qed.

End TraverseIdle.

(** X15. [traverse] changes nothing else: a tree without a comment (when
    comments are removed), without a style (when styles are minified),
    without a script and without a text node (when white space is
    compressed) is returned as it is, and nothing is registered or said. *)
Theorem traverse_leaves_other_nodes `{Host}
        (cfg : config) (absolutePath doc_src : jstr)
        (p : option pctx) (n : node) (st : xstate) :
  (forall x, within n x ->
             (nodeName x = lit "#comment" -> removeComments cfg = false)
             /\ (nodeName x = lit "style" ->
                 lightningcss_minify cfg = JBool false)
             /\ nodeName x <> lit "script"
             /\ (nodeName x = lit "#text" -> compressWhitespace cfg = false)) ->
  traverse cfg absolutePath doc_src p n st = Ret (Some n) st.
Proof.
  intros Hall. apply traverse_ov_idle.
  destruct (findNodes (is_touched cfg) n) as [|x xs] eqn:Ef; [reflexivity|].
  exfalso.
  assert (Hx : List.In x (findNodes (is_touched cfg) n)) by (rewrite Ef; left; reflexivity).
  apply findNodes_sound in Hx as [Hw Ht].
  destruct (Hall x Hw) as (Hc & Hs & Hn & Hx).
  unfold is_touched in Ht.
  apply orb_true_iff in Ht as [Ht|Ht];
    [apply orb_true_iff in Ht as [Ht|Ht];
     [apply orb_true_iff in Ht as [Ht|Ht]|]|].
  - apply andb_true_iff in Ht as [E1 E2]. apply eqs_spec in E1.
    rewrite (Hc E1) in E2. discriminate E2.
  - apply andb_true_iff in Ht as [E1 E2]. apply eqs_spec in E1.
    rewrite (Hs E1) in E2. discriminate E2.
  - apply eqs_spec in Ht. exact (Hn Ht).
  - apply andb_true_iff in Ht as [E1 E2]. apply eqs_spec in E1.
    rewrite (Hx E1) in E2. discriminate E2.
Qed.

Lemma traverse_leaves_other_nodes_witness :
  traverse (H := Demo.plain_page) (make_config no_options)
           (lit "/work/index.html") (lit "index.html") None
           (element (lit "p") [] [text_node (lit " a  b ")])
           {| rollupHtml := []; inlineModules := []; xlog := [] |}
  = Ret (Some (element (lit "p") [] [text_node (lit " a  b ")]))
        {| rollupHtml := []; inlineModules := []; xlog := [] |}.
Proof.
  apply (traverse_leaves_other_nodes (H := Demo.plain_page)).
  intros x Hw.
  assert (Hx : x = element (lit "p") [] [text_node (lit " a  b ")]
               \/ x = text_node (lit " a  b ")).
  { inversion Hw as [n0 E0|n0 c x0 Hc Hw' E0 E1|n0 c x0 Hn0 Hc Hw' E0 E1]; subst.
    - left. reflexivity.
    - destruct Hc as [<-|[]]. right.
      inversion Hw' as [n1 E2|n1 c1 x1 Hc1 Hw1 E2 E3|n1 c1 x1 Hn1 Hc1 Hw1 E2 E3]; subst.
      + reflexivity.
      + destruct Hc1.
      + discriminate Hn1.
    - discriminate Hn0. }
  destruct Hx as [->| ->]; repeat split; try discriminate; reflexivity.
Defined.

(** ** The entries of the input *)

Lemma obj_set_not_nil {V : Type} (k : jstr) (v : V) (o : list (jstr * V)) :
  obj_set k v o <> [].
Proof.
  destruct o as [|[k' v'] o]; cbn [obj_set]; [discriminate|].
  destruct (eqs k' k); discriminate.
Qed.

Lemma obj_set_In {V : Type} (k : jstr) (v : V) (o : list (jstr * V)) (x : jstr * V) :
  List.In x (obj_set k v o) -> List.In x o \/ x = (k, v).
Proof.
  induction o as [|[k' v'] o IH]; cbn [obj_set].
  - intros [<-|[]]. right. reflexivity.
  - destruct (eqs k' k) eqn:E.
    + apply eqs_spec in E. subst k'. intros [<-|Hx].
      * right. reflexivity.
      * left. right. exact Hx.
    + intros [<-|Hx]; [left; left; reflexivity|].
      destruct (IH Hx) as [Ho|Ho]; [left; right; exact Ho|right; exact Ho].
Qed.

Lemma fold_obj_set_In {V : Type} (l acc : list (jstr * V)) (x : jstr * V) :
  List.In x (fold_left (fun acc kv => obj_set (fst kv) (snd kv) acc) l acc) ->
  List.In x acc \/ List.In x l.
Proof.
  revert acc. induction l as [|[k v] l IH]; intros acc; cbn [fold_left fst snd].
  - intros Hx. left. exact Hx.
  - intros Hx. destruct (IH _ Hx) as [Ha|Hl]; [|right; right; exact Hl].
    destruct (obj_set_In _ _ _ _ Ha) as [Ho| ->]; [left; exact Ho|right; left; reflexivity].
Qed.

Lemma fold_obj_set_nil {V : Type} (l acc : list (jstr * V)) :
  fold_left (fun acc kv => obj_set (fst kv) (snd kv) acc) l acc = [] ->
  l = [] /\ acc = [].
Proof.
  revert acc. induction l as [|[k v] l IH]; intros acc; cbn [fold_left fst snd].
  - intros ->. split; reflexivity.
  - intros E. destruct (IH _ E) as [_ Hs]. destruct (obj_set_not_nil _ _ _ Hs).
Qed.

Section SplitFacts.
Context `{Host}.

Lemma split_html_from (entries : list (jstr * jsval))
      (h : list (jstr * jstr)) (n : list (jstr * jsval)) :
  fold_left
    (fun (acc : list (jstr * jstr) * list (jstr * jsval)) (e : jstr * jsval) =>
       match snd e with
       | JStr s => if filter s then (fst acc ++ [(fst e, s)], snd acc)
                   else (fst acc, obj_set (fst e) (snd e) (snd acc))
       | _ => (fst acc, obj_set (fst e) (snd e) (snd acc))
       end)
    entries (h, n)
  = (h ++ flat_map html_entry (List.filter is_html_entry entries),
     fold_left (fun acc kv => obj_set (fst kv) (snd kv) acc)
               (List.filter (fun e => negb (is_html_entry e)) entries) n).
Proof.
  revert h n. induction entries as [|[k v] entries IH]; intros h n.
  - cbn. rewrite app_nil_r. reflexivity.
  - assert (Eh : is_html_entry (k, v)
                 = match v with JStr s => filter s | _ => false end) by reflexivity.
    cbn [fold_left List.filter fst snd]. rewrite Eh.
    destruct v as [| |b|m|s|]; cbn [negb fold_left fst snd]; try apply IH.
    destruct (filter s); cbn [negb fold_left flat_map html_entry fst snd app].
    + rewrite IH, <- app_assoc. reflexivity.
    + apply IH.
Qed.

Lemma split_html_spec (entries : list (jstr * jsval)) :
  split_html entries
  = (flat_map html_entry (List.filter is_html_entry entries),
     obj_spread (List.filter (fun e => negb (is_html_entry e)) entries)).
Proof. unfold split_html. rewrite split_html_from. reflexivity. Qed.

Lemma split_html_In (entries : list (jstr * jsval)) (dest src : jstr) :
  List.In (dest, src) (fst (split_html entries)) <->
  List.In (dest, JStr src) entries /\ filter src = true.
Proof.
  rewrite split_html_spec. cbn [fst]. rewrite in_flat_map. split.
  - intros [[k v] [He Hx]]. apply filter_In in He as [He Hf].
    unfold is_html_entry in Hf. unfold html_entry in Hx. cbn [fst snd] in Hf, Hx.
    destruct v as [| |b|m|s|]; try contradiction.
    destruct Hx as [Hx|[]]. inversion Hx; subst. split; assumption.
  - intros [He Hf]. exists (dest, JStr src). split; [|left; reflexivity].
    apply filter_In. split; [exact He|exact Hf].
Qed.

End SplitFacts.

Lemma filter_none {A : Type} (f : A -> bool) (l : list A) :
  (forall x, List.In x l -> f x = false) -> List.filter f l = [].
Proof.
  induction l as [|x l IH]; intros Hf; [reflexivity|]. cbn [List.filter].
  rewrite (Hf x) by (left; reflexivity). apply IH. intros y Hy. apply Hf.
  right. exact Hy.
Qed.

Lemma filter_all {A : Type} (f : A -> bool) (l : list A) :
  (forall x, List.In x l -> f x = true) -> List.filter f l = l.
Proof.
  induction l as [|x l IH]; intros Hf; [reflexivity|]. cbn [List.filter].
  rewrite (Hf x) by (left; reflexivity). f_equal. apply IH. intros y Hy. apply Hf.
  right. exact Hy.
Qed.

Lemma normalize_input_withDest (input : rollup_input) :
  snd (fst (normalize_input input))
  = match input with InObject _ => true | _ => false end.
Proof.
  destruct input as [s|l|o|v]; try reflexivity.
  cbn [normalize_input]. destruct (truthy v); reflexivity.
Qed.

(** X16. The second step of the [options] hook, and its early return.
    The HTML entries are the entries of the normalized input whose value
    is a string that the filter accepts, in the order of the input; the
    other entries are kept, spread into an object.  When the filter
    accepts no entry, the hook reads no file, stores nothing and says
    nothing more: it returns null for an input without entries and the
    options as they are otherwise. *)
Theorem options_without_html_entries `{Host} (cfg : config) (input : rollup_input) :
  let normalized := fst (fst (normalize_input input)) in
  split_html normalized
  = (flat_map html_entry (List.filter is_html_entry normalized),
     obj_spread (List.filter (fun e => negb (is_html_entry e)) normalized))
  /\ (forall dest src,
         List.In (dest, src) (fst (split_html normalized))
         <-> List.In (dest, JStr src) normalized /\ filter src = true)
  /\ ((forall e, List.In e normalized -> is_html_entry e = false) ->
      options cfg input
      = (if is_empty_list normalized then HookNull else HookSame,
         {| htmlData := [];
            isWithDest := match input with InObject _ => true | _ => false end |},
         snd (normalize_input input))).
Proof.
  intros normalized. split; [apply split_html_spec|].
  split; [intros dest src; apply split_html_In|].
  intros Hnone. unfold options.
  pose proof (normalize_input_withDest input) as Hw. unfold normalized in *.
  destruct (normalize_input input) as [[normalizedInput withDest] log0].
  cbn [fst snd] in *. subst withDest.
  rewrite split_html_spec, (filter_none _ _ Hnone).
  rewrite filter_all by (intros x Hx; rewrite (Hnone x Hx); reflexivity).
  cbn [flat_map is_empty_list].
  assert (He : is_empty_list (obj_spread normalizedInput)
               = is_empty_list normalizedInput).
  { destruct normalizedInput as [|e l]; [reflexivity|].
    destruct (obj_spread (e :: l)) as [|x xs] eqn:Eo; [|reflexivity].
    apply fold_obj_set_nil in Eo as [Eo _]. discriminate Eo. }
  rewrite He. reflexivity.
Qed.

Lemma options_without_html_entries_witness :
  options (H := Demo.plain_page) (make_config no_options)
          (InArray [JStr (lit "main.js"); JNum 3])
  = (HookSame, {| htmlData := []; isWithDest := false |}, []).
Proof.
  refine (proj2 (proj2 (options_without_html_entries
                          (H := Demo.plain_page) (make_config no_options)
                          (InArray [JStr (lit "main.js"); JNum 3]))) _).
  intros e [<-|[]]. reflexivity.
Defined.

(** ** The input that the [options] hook returns *)

Lemma alnum_keychar (c : N) : is_alnum c = true -> is_keychar c = true.
Proof. intros E. unfold is_keychar. rewrite E. reflexivity. Qed.

Lemma digit_keychar (c : N) : is_digit c = true -> is_keychar c = true.
Proof. intros E. apply alnum_keychar. unfold is_alnum. rewrite E. reflexivity. Qed.

Lemma sanitize_keychars (s : jstr) :
  Forall (fun c => is_keychar c = true) (sanitize s).
Proof.
  apply List.Forall_forall. intros c Hc. unfold sanitize in Hc.
  apply in_map_iff in Hc as [x [<- _]].
  destruct (is_keychar x) eqn:E; [exact E|reflexivity].
Qed.

Section InputFacts.
Context `{Host}.
Variable cfg : config.

Lemma entry_key_keychars (entry : jstr) :
  Forall (fun c => is_keychar c = true) (entry_key entry).
Proof.
  unfold entry_key, entry_keyBase. apply Forall_app. split; [apply sanitize_keychars|].
  apply Forall_app. split; [constructor; [reflexivity|constructor]|].
  pose proof (entry_hash_alnum entry) as Hh. revert Hh. apply List.Forall_impl.
  exact alnum_keychar.
Qed.

Lemma fallback_key_keychars (entry : jstr) (now : N) :
  Forall (fun c => is_keychar c = true) (entry_key entry ++ lit "_" ++ dec now).
Proof.
  apply Forall_app. split; [apply entry_key_keychars|].
  apply Forall_app. split; [constructor; [reflexivity|constructor]|].
  pose proof (dec_digits now) as Hd. revert Hd. apply List.Forall_impl.
  exact digit_keychar.
Qed.

Lemma add_entry_In (entry : jstr) (rollups : list (jstr * jsval)) (clock : nat)
      (log : list event) (x : jstr * jsval) :
  List.In x (fst (fst (add_entry entry (rollups, clock, log)))) ->
  List.In x rollups
  \/ (Forall (fun c => is_keychar c = true) (fst x) /\ snd x = JStr entry).
Proof.
  unfold add_entry. destruct (obj_has (entry_key entry) rollups); cbn [fst];
    intros Hx; destruct (obj_set_In _ _ _ _ Hx) as [Ho| ->];
    try (left; exact Ho); right; cbn [fst snd]; split; try reflexivity.
  - apply fallback_key_keychars.
  - apply entry_key_keychars.
Qed.

Lemma fold_add_entry_In (entries : list jstr) :
  forall (acc : list (jstr * jsval) * nat * list event) (x : jstr * jsval),
    List.In x (fst (fst (fold_left (fun acc entry => add_entry entry acc) entries acc))) ->
    List.In x (fst (fst acc))
    \/ (Forall (fun c => is_keychar c = true) (fst x)
        /\ exists e, List.In e entries /\ snd x = JStr e).
Proof.
  induction entries as [|e entries IH]; intros [[rollups clock] log] x;
    cbn [fold_left fst].
  - intros Hx. left. exact Hx.
  - intros Hx. destruct (IH _ _ Hx) as [Ha|(Hk & e' & He' & Hv)].
    + destruct (add_entry_In _ _ _ _ _ Ha) as [Ho|[Hk Hv]]; [left; exact Ho|].
      right. split; [exact Hk|]. exists e. split; [left; reflexivity|exact Hv].
    + right. split; [exact Hk|]. exists e'. split; [right; exact He'|exact Hv].
Qed.

Lemma process_html_entries (P : jstr -> Prop) dest src st :
  (forall s i, s = None \/ s = Some [] -> P (virtual_id s i)) ->
  Forall P (o_rollupHtml st) ->
  Forall P (o_rollupHtml (ostate_of (process_html cfg dest src st))).
Proof.
  intros HP Hall. unfold process_html.
  destruct (set_has (path_resolve [src]) (o_processed st)); [exact Hall|].
  cbv zeta.
  destruct (read_and_parse (path_resolve [src])) as [ast|e];
    [|destruct error_raises; exact Hall].
  pose proof (traverse_ov_steps cfg (path_resolve [src]) src grew grew_refl
                grew_trans grew_say grew_module ast None None
                {| rollupHtml := o_rollupHtml st; inlineModules := [];
                   xlog := o_log st |}) as G.
  fold (traverse cfg (path_resolve [src]) src None ast
                 {| rollupHtml := o_rollupHtml st; inlineModules := [];
                    xlog := o_log st |}) in G.
  assert (Hxs : Forall P (rollupHtml (state_of
                  (traverse cfg (path_resolve [src]) src None ast
                     {| rollupHtml := o_rollupHtml st; inlineModules := [];
                        xlog := o_log st |})))).
  { destruct G as (ms & entries & es & _ & Hn & Hr & He & _).
    cbn [rollupHtml inlineModules length] in Hr, Hn. rewrite Hr.
    apply Forall_app. split; [exact Hall|].
    apply List.Forall_forall. intros x Hx. destruct (He x Hx) as (m & Hm & <-).
    apply list_elem_of_In, list_elem_of_lookup in Hm as [i Hi].
    destruct (Hn i m Hi) as [[E|E] _]; rewrite E; apply HP; [left|right]; reflexivity. }
  destruct (traverse cfg (path_resolve [src]) src None ast _) as [e xs|r xs];
    cbn [state_of] in Hxs.
  - destruct error_raises; exact Hxs.
  - destruct r as [t|]; [|exact Hxs].
    destruct (is_empty_list (childNodes t)); exact Hxs.
Qed.

Lemma process_all_entries (P : jstr -> Prop) html :
  (forall s i, s = None \/ s = Some [] -> P (virtual_id s i)) ->
  forall st,
    Forall P (o_rollupHtml st) ->
    Forall P (o_rollupHtml (ostate_of (process_all cfg html st))).
Proof.
  intros HP. induction html as [|[dest src] html IH]; intros st Hall;
    cbn [process_all]; [exact Hall|].
  pose proof (process_html_entries P dest src st HP Hall) as H1.
  destruct (process_html cfg dest src st) as [e st1|st1]; cbn [ostate_of] in H1 |- *;
    [exact H1|apply IH; exact H1].
Qed.

End InputFacts.

(** X17. The input that the [options] hook gives back to the bundler.
    Every entry of it is an entry of the normalized input that was not
    taken for an HTML file, or the no-op entry, or an inline module: a key
    made of letters, digits, [_], [.] and [-] with an identifier that
    carries the inline prefix and that [resolveId] claims.  No HTML file
    and no file named by a [src] attribute is ever among them. *)
Theorem options_returns_modules_and_other_entries `{Host}
        (cfg : config) (input : rollup_input) (rollups : list (jstr * jsval))
        (k : jstr) (v : jsval) :
  fst (fst (options cfg input)) = HookInput rollups ->
  List.In (k, v) rollups ->
  (List.In (k, v) (fst (fst (normalize_input input)))
   /\ is_html_entry (k, v) = false)
  \/ (k = lit "_html_noop_entry" /\ v = JStr NOOP_IMPORT_ID)
  \/ (Forall (fun c => is_keychar c = true) k
      /\ exists e, v = JStr e
                   /\ startsWith INLINE_MODULE_PREFIX e = true
                   /\ resolveId e = Some e).
Proof.
  unfold options.
  destruct (normalize_input input) as [[normalizedInput withDest] log0].
  cbn [fst snd]. rewrite split_html_spec.
  set (Html := flat_map html_entry (List.filter is_html_entry normalizedInput)).
  set (others := List.filter (fun e => negb (is_html_entry e)) normalizedInput).
  destruct (is_empty_list Html); [destruct (is_empty_list _); discriminate|].
  pose proof (process_all_entries cfg
                (fun e => startsWith INLINE_MODULE_PREFIX e = true) Html
                (fun s i _ => startsWith_app INLINE_MODULE_PREFIX _)
                {| o_htmlData := []; o_rollupHtml := []; o_processed := [];
                   o_log := log0 |} (List.Forall_nil _)) as Hp.
  destruct (process_all cfg Html _) as [e st|st]; [discriminate|].
  cbn [ostate_of] in Hp.
  pose proof (fold_add_entry_In (o_rollupHtml st)
                (obj_spread (obj_spread others), 0, o_log st)) as Hb.
  fold (build_rollups (obj_spread others) (o_rollupHtml st) (o_log st)) in Hb.
  destruct (build_rollups (obj_spread others) (o_rollupHtml st) (o_log st))
    as [[rollups0 clock] log1].
  cbn [fst] in Hb.
  assert (Hfrom : forall x, List.In x rollups0 ->
            (List.In x normalizedInput /\ is_html_entry x = false)
            \/ (Forall (fun c => is_keychar c = true) (fst x)
                /\ exists e, snd x = JStr e
                             /\ startsWith INLINE_MODULE_PREFIX e = true
                             /\ resolveId e = Some e)).
  { intros x Hx. destruct (Hb x Hx) as [Ho|(Hk & e & He & Hv)].
    - left. apply fold_obj_set_In in Ho as [[]|Ho].
      apply fold_obj_set_In in Ho as [[]|Ho].
      apply filter_In in Ho as [Hi Hf]. split; [exact Hi|].
      apply negb_true_iff. exact Hf.
    - right. split; [exact Hk|]. exists e. split; [exact Hv|].
      rewrite List.Forall_forall in Hp. pose proof (Hp e He) as Hpre.
      split; [exact Hpre|]. unfold resolveId. rewrite Hpre, orb_true_r. reflexivity. }
  unfold add_noop.
  destruct (is_empty_list rollups0 && negb (is_empty_list Html)) eqn:En.
  - apply andb_true_iff in En as [En _]. apply is_empty_list_spec in En. subst rollups0.
    cbn [obj_set return_input is_empty_list fst].
    intros E. injection E as <-. intros [Hx|[]]. inversion Hx.
    right. left. split; reflexivity.
  - unfold return_input. destruct (is_empty_list rollups0); cbn [fst].
    + intros E. injection E as <-. intros [].
    + intros E. injection E as <-. intros Hx.
      destruct (Hfrom _ Hx) as [Ho|Hm]; [left; exact Ho|right; right; exact Hm].
Qed.

Lemma options_returns_modules_and_other_entries_witness :
  (List.In (lit "undefined_" ++ take 20 (List.filter is_alnum (rev Demo.ID0)),
            JStr Demo.ID0)
           (fst (fst (normalize_input
                        (InArray [JStr (lit "lib.js"); JStr (lit "sub/page.html")]))))
   /\ is_html_entry (H := Demo.sub_page)
                     (lit "undefined_" ++ take 20 (List.filter is_alnum (rev Demo.ID0)),
                      JStr Demo.ID0) = false)
  \/ (lit "undefined_" ++ take 20 (List.filter is_alnum (rev Demo.ID0))
      = lit "_html_noop_entry"
      /\ JStr Demo.ID0 = JStr NOOP_IMPORT_ID)
  \/ (Forall (fun c => is_keychar c = true)
             (lit "undefined_" ++ take 20 (List.filter is_alnum (rev Demo.ID0)))
      /\ exists e, JStr Demo.ID0 = JStr e
                   /\ startsWith INLINE_MODULE_PREFIX e = true
                   /\ resolveId e = Some e).
Proof.
  apply (options_returns_modules_and_other_entries
           (H := Demo.sub_page) (make_config no_options)
           (InArray [JStr (lit "lib.js"); JStr (lit "sub/page.html")])
           [(lit "lib.js", JStr (lit "lib.js"));
            (lit "undefined_" ++ take 20 (List.filter is_alnum (rev Demo.ID0)),
             JStr Demo.ID0)]).
  - vm_compute. reflexivity.
  - right. left. reflexivity.
Defined.

(** ** When the [options] hook raises *)

Section RaiseFacts.
Context `{Host}.
Variable cfg : config.



End RaiseFacts.



(** ** Where the stored documents come from *)

Lemma array_entries_In (l : list jsval) :
  forall (acc : list (jstr * jsval)) (x : jstr * jsval),
    List.In x (fold_left (fun acc entry =>
                            match entry with
                            | JStr e => obj_set e (JStr e) acc
                            | _ => acc
                            end) l acc) ->
    List.In x acc \/ (snd x = JStr (fst x) /\ List.In (snd x) l).
Proof.
  induction l as [|v l IH]; intros acc x; cbn [fold_left].
  - intros Hx. left. exact Hx.
  - intros Hx. destruct (IH _ _ Hx) as [Ha|[Hv Hl]];
      [|right; split; [exact Hv|right; exact Hl]].
    destruct v as [| |b|m|s|]; try (left; exact Ha).
    destruct (obj_set_In _ _ _ _ Ha) as [Ho| ->]; [left; exact Ho|].
    right. split; [reflexivity|left; reflexivity].
Qed.

(** X19. Every document that the [options] hook stored comes from an entry
    of the input that the filter accepts: the input string itself; or a
    string of the input array, which is key and value at once; or an
    entry of the input object, whose key is the [dest] and whose value is
    the [src] of the record.  A document of an input object is emitted
    under its key, without its first character when that is a slash,
    whatever [preserveStructure] says. *)
Theorem stored_documents_come_from_the_input `{Host}
        (cfg : config) (input : rollup_input) (abs : jstr) (data : doc_record) :
  let ps := snd (fst (options cfg input)) in
  List.In (abs, data) (htmlData ps) ->
  filter (d_src data) = true
  /\ match input with
     | InString s => d_src data = s /\ d_dest data = s
     | InArray l => List.In (JStr (d_src data)) l /\ d_dest data = d_src data
     | InObject o =>
         List.In (d_dest data, JStr (d_src data)) o
         /\ output_name cfg ps abs data
            = if startsWith (lit "/") (d_dest data)
              then drop 1 (d_dest data) else d_dest data
     | InOther _ => False
     end.
Proof.
  intros ps Hd.
  destruct (options_kept cfg input) as (done & rest & st & Eh & (_ & _ & Hs) & Ed).
  fold ps in Ed. rewrite <- Ed in Hd.
  destruct (Hs abs data Hd) as (_ & (_ & (pre & post & Hdone & _) & _) & _).
  assert (Hin : List.In (d_dest data, d_src data)
                        (fst (split_html (fst (fst (normalize_input input)))))).
  { rewrite Eh, Hdone. apply in_or_app. left. apply in_or_app. right. left.
    reflexivity. }
  apply split_html_In in Hin as [Hin Hf]. split; [exact Hf|].
  pose proof (options_isWithDest cfg input) as Hw. fold ps in Hw.
  destruct input as [s|l|o|v]; cbn [normalize_input fst] in Hin.
  - destruct Hin as [Hin|[]]. inversion Hin. split; reflexivity.
  - apply array_entries_In in Hin as [[]|[Hv Hl]]. cbn [fst snd] in Hv, Hl.
    inversion Hv. split; [exact Hl|reflexivity].
  - apply fold_obj_set_In in Hin as [[]|Hin]. split; [exact Hin|].
    unfold output_name. rewrite Hw. reflexivity.
  - destruct (truthy v); destruct Hin.
Qed.

Lemma stored_documents_come_from_the_input_witness :
  output_name (H := Demo.sub_page) (make_config Demo.keep_structure)
              (snd (fst (options (H := Demo.sub_page) (make_config Demo.keep_structure)
                                 (InObject [(lit "/out/p.html",
                                             JStr (lit "sub/page.html"))]))))
              (lit "/work/sub/page.html")
              {| d_src := lit "sub/page.html"; d_dest := lit "/out/p.html";
                 d_ast := d_ast Demo.sub_record;
                 d_inlineModules := d_inlineModules Demo.sub_record |}
  = lit "out/p.html".
Proof.
  refine (proj2 (proj2 (stored_documents_come_from_the_input
                          (H := Demo.sub_page) (make_config Demo.keep_structure)
                          (InObject [(lit "/out/p.html", JStr (lit "sub/page.html"))])
                          (lit "/work/sub/page.html")
                          {| d_src := lit "sub/page.html"; d_dest := lit "/out/p.html";
                             d_ast := d_ast Demo.sub_record;
                             d_inlineModules := d_inlineModules Demo.sub_record |}
                          _))).
  vm_compute. left. reflexivity.
Defined.

(** ** A document without comments, styles and scripts *)

Lemma findNodes_nil_weaken (P Q : node -> bool) (n : node) :
  (forall x, P x = true -> Q x = true) ->
  findNodes Q n = [] -> findNodes P n = [].
Proof.
  intros HPQ HQ. destruct (findNodes P n) as [|x xs] eqn:Ef; [reflexivity|].
  exfalso.
  assert (Hx : List.In x (findNodes P n)) by (rewrite Ef; left; reflexivity).
  apply findNodes_sound in Hx as [Hw Hp].
  pose proof (findNodes_complete Q n x Hw (HPQ x Hp)) as Hin.
  rewrite HQ in Hin. exact Hin.
Qed.

Lemma special_cases (x : node) :
  is_special x = false ->
  eqs (nodeName x) (lit "#comment") = false
  /\ eqs (nodeName x) (lit "style") = false
  /\ eqs (nodeName x) (lit "script") = false.
Proof.
  unfold is_special. cbn [existsb]. rewrite orb_false_r.
  intros E. apply orb_false_iff in E as [E1 E]. apply orb_false_iff in E as [E2 E3].
  repeat split; assumption.
Qed.

Lemma not_special_implies (P : node -> bool) :
  (forall x, P x = true ->
             eqs (nodeName x) (lit "#comment") = true
             \/ eqs (nodeName x) (lit "style") = true
             \/ eqs (nodeName x) (lit "script") = true) ->
  forall n, findNodes is_special n = [] -> findNodes P n = [].
Proof.
  intros HP n. apply findNodes_nil_weaken. intros x Hx.
  destruct (is_special x) eqn:Es; [reflexivity|].
  destruct (special_cases x Es) as (E1 & E2 & E3).
  destruct (HP x Hx) as [E|[E|E]]; congruence.
Qed.

Lemma plain_is_untouched (cfg : config) (ast : node) :
  compressWhitespace cfg = false ->
  findNodes is_special ast = [] ->
  findNodes (is_touched cfg) ast = []
  /\ findNodes is_inline_script ast = []
  /\ findNodes is_reference ast = [].
Proof.
  intros Hc Hs. split; [|split]; revert Hs; apply not_special_implies; intros x Hx.
  - unfold is_touched in Hx. rewrite Hc, andb_false_r, orb_false_r in Hx.
    apply orb_true_iff in Hx as [Hx|Hx]; [|right; right; exact Hx].
    apply orb_true_iff in Hx as [Hx|Hx]; apply andb_true_iff in Hx as [Hx _];
      [left|right; left]; exact Hx.
  - unfold is_inline_script in Hx. apply andb_true_iff in Hx as [Hx _].
    apply andb_true_iff in Hx as [Hx _]. right. right. exact Hx.
  - unfold is_reference in Hx. apply orb_true_iff in Hx as [Hx|Hx].
    + apply andb_true_iff in Hx as [Hx _]. left. exact Hx.
    + apply andb_true_iff in Hx as [Hx _]. apply andb_true_iff in Hx as [Hx _].
      apply andb_true_iff in Hx as [Hx _]. right. right. exact Hx.
Qed.

(** X20. A document without comments, styles and scripts goes through
    the plugin as it was parsed, when white space is not compressed.  Given
    as the one input, it is stored with its tree untouched; the hook gives
    the bundler the no-op entry alone; and [generateBundle] emits one file
    for it whose content is the serialized tree of the parser, under the
    name that [preserveStructure] asks for, without an error. *)
Theorem plain_document_passes_through `{Host}
        (cfg : config) (src : jstr) (ast : node)
        (oo : output_options) (bundle : list bundle_item) :
  filter src = true ->
  read_and_parse (path_resolve [src]) = Returned ast ->
  childNodes ast <> [] ->
  findNodes is_special ast = [] ->
  compressWhitespace cfg = false ->
  truthy_str (output_dir oo) = true ->
  let abs := path_resolve [src] in
  let name := if preserveStructure cfg
              then (if path_isAbsolute src
                    then path_relative process_cwd abs else src)
              else path_basename src in
  let ps := {| htmlData := [(abs, {| d_src := src; d_dest := src; d_ast := ast;
                                     d_inlineModules := [] |})];
               isWithDest := false |} in
  options cfg (InString src)
  = (HookInput [(lit "_html_noop_entry", JStr NOOP_IMPORT_ID)], ps,
     [ConsoleWarn (LOG_TAG ++
        lit "No JS modules found in HTML and no other inputs. Adding NOOP entry.")])
  /\ generateBundle cfg ps oo bundle = (None, [EmitFile name (serialize ast)]).
Proof.
  intros Hf Hr Hk Hs Hc Hd abs name ps.
  destruct (plain_is_untouched cfg ast Hc Hs) as (Ht & Hi & Href).
  split.
  - unfold options, normalize_input, split_html.
    cbn [fold_left fst snd]. rewrite Hf. cbn [app is_empty_list process_all].
    unfold process_html. cbn [o_processed set_has existsb]. fold abs. cbv zeta.
    unfold abs at 1. rewrite Hr. unfold traverse.
    rewrite (traverse_ov_idle cfg abs src ast Ht).
    destruct (childNodes ast) as [|c kids] eqn:Ek; [contradiction|].
    cbn [is_empty_list o_htmlData obj_set o_rollupHtml o_log build_rollups fold_left
         obj_spread add_noop negb andb return_input rollupHtml inlineModules xlog app].
    reflexivity.
  - unfold generateBundle. rewrite Hd. unfold ps at 2. cbn [htmlData emit_all].
    unfold emit_document, finish_document. cbn [d_ast].
    assert (Em : (if is_not_false (terser_compress cfg)
                  then minify_node {| d_src := src; d_dest := src; d_ast := ast;
                                      d_inlineModules := [] |} ast
                  else (ast, [])) = (ast, [])).
    { destruct (is_not_false (terser_compress cfg)); [|reflexivity].
      apply minify_node_idle. exact Hi. }
    rewrite Em, (rewrite_root_idle _ _ _ _ _ _ ast Href).
    cbn [emitted set_has existsb glog app List.map set_add].
    reflexivity.
Qed.

Lemma plain_document_passes_through_witness :
  generateBundle (H := Demo.plain_page) (make_config no_options)
                 {| htmlData := [(lit "/work/index.html",
                                  {| d_src := lit "index.html"; d_dest := lit "index.html";
                                     d_ast := Demo.plain_html; d_inlineModules := [] |})];
                    isWithDest := false |}
                 Demo.to_dist []
  = (None, [EmitFile (lit "index.html")
                     (lit "<html><head></head><body>Hello</body></html>")]).
Proof.
  refine (proj2 (plain_document_passes_through
                   (H := Demo.plain_page) (make_config no_options)
                   (lit "index.html") Demo.plain_html Demo.to_dist [] _ _ _ _ _ _));
    try reflexivity.
  discriminate.
Defined.

(** ** The comments that the extraction pass leaves *)

Section CommentsLeft.
Context `{Host}.
Variable cfg : config.
Variable absolutePath doc_src : jstr.
Hypothesis remove : removeComments cfg = true.

Local Abbreviation keeps st st' := (incl (inlineModules st) (inlineModules st')).

Lemma grew_keeps (st st' : xstate) : grew st st' -> keeps st st'.
Proof.
  intros (ms & _ & _ & Hm & _). rewrite Hm. apply incl_appl, incl_refl.
Qed.

Lemma traverse_ov_keeps p ov n st :
  keeps st (state_of (traverse_ov cfg absolutePath doc_src p ov n st)).
Proof.
  apply grew_keeps.
  apply (traverse_ov_steps cfg absolutePath doc_src grew grew_refl grew_trans
                           grew_say grew_module).
Qed.

Lemma visit_children_keeps pname len i ov kids st :
  keeps st (state_of (visit_children (traverse_ov cfg absolutePath doc_src)
                                     pname len i ov kids st)).
Proof.
  apply grew_keeps.
  apply (visit_children_steps cfg absolutePath doc_src grew grew_refl grew_trans).
  apply List.Forall_forall. intros c _ p' ov' st'.
  apply (traverse_ov_steps cfg absolutePath doc_src grew grew_refl grew_trans
                           grew_say grew_module).
Qed.

Local Abbreviation leaves_placeholders n :=
  (forall p ov st r st',
      parsed_shape n = true ->
      traverse_ov cfg absolutePath doc_src p ov n st = Ret (Some r) st' ->
      comments_are_placeholders (inlineModules st') r).

Lemma visit_children_comments (kids : list node) :
  Forall (fun c => leaves_placeholders c) kids ->
  forall pname len i ov st kids' st',
    forallb parsed_shape kids = true ->
    visit_children (traverse_ov cfg absolutePath doc_src) pname len i ov kids st
    = Ret kids' st' ->
    forall x, List.In x (flat_map (findNodes is_comment) kids') ->
              exists m, List.In m (inlineModules st')
                        /\ x = comment_node (placeholder m).
Proof.
  induction 1 as [|c kids Hc _ IH]; intros pname len i ov st kids' st' Hs;
    cbn [visit_children].
  - intros E. injection E as <- <-. intros x [].
  - cbn [forallb] in Hs. apply andb_true_iff in Hs as [Hs1 Hs2].
    destruct (traverse_ov cfg absolutePath doc_src _ ov c st) as [e st1|r st1] eqn:E1;
      [discriminate|].
    pose proof (visit_children_keeps pname len (S i) None kids st1) as Hk.
    destruct (visit_children _ pname len (S i) None kids st1) as [e st2|rs st2] eqn:E2;
      [discriminate|].
    cbn [state_of] in Hk. intros E. injection E as <- <-.
    intros x Hx.
    assert (Hrest : List.In x (flat_map (findNodes is_comment) rs) ->
                    exists m, List.In m (inlineModules st2)
                              /\ x = comment_node (placeholder m)).
    { intros Hx'. exact (IH _ _ _ _ _ _ _ Hs2 E2 x Hx'). }
    destruct r as [c'|]; [|exact (Hrest Hx)].
    cbn [flat_map] in Hx. apply in_app_or in Hx as [Hx|Hx]; [|exact (Hrest Hx)].
    destruct (Hc _ _ _ _ _ Hs1 E1 x Hx) as (m & Hm & Hv).
    exists m. split; [apply Hk; exact Hm|exact Hv].
Qed.

Lemma traverse_ov_comments (n : node) : leaves_placeholders n.
Proof.
  induction n as [name tag ats ns val kids tmpl IHk IHt] using node_induction.
  intros p ov st r st' Hshape. cbn [parsed_shape] in Hshape.
  apply andb_true_iff in Hshape as [Hshape Hst].
  apply andb_true_iff in Hshape as [Hleaf Hsk].
  rewrite traverse_ov_unfold. unfold set_value.
  cbn [nodeName tagName attrs namespaceURI value childNodes content]. cbv zeta.
  destruct (eqs name (lit "#comment")) eqn:Ec; [rewrite remove; discriminate|].
  destruct (if eqs name (lit "style") && is_not_false (lightningcss_minify cfg)
            then style_step absolutePath doc_src _ st else StyleKept None st)
    as [|text st1]; [discriminate|].
  destruct (eqs name (lit "script")) eqn:En.
  - unfold script_step. cbn [attrs].
    destruct (truthy_str (attr_find (lit "src") ats)); [discriminate|].
    cbn [negb andb]. destruct (is_empty (trim _)); [discriminate|].
    destruct (is_str (lit "module") (attr_find (lit "type") ats)); cbn [andb].
    + intros E. injection E as <- <-. intros x Hx.
      rewrite findNodes_unfold in Hx. cbn in Hx. destruct Hx as [<-|[]].
      eexists. split; [cbn [inlineModules]; apply in_or_app; right; left; reflexivity|].
      reflexivity.
    + intros E. injection E as <- <-. intros x Hx. exfalso.
      rewrite findNodes_unfold in Hx. unfold is_comment at 1 in Hx.
      cbn [nodeName childNodes content] in Hx. rewrite Ec in Hx. cbn [app] in Hx.
      assert (Hto : holds_text_only name = true).
      { apply eqs_spec in En. subst name. reflexivity. }
      rewrite Hto in Hleaf.
      rewrite (findNodes_text_leaves is_comment kids) in Hx;
        [|intros c Hn; unfold is_comment; rewrite Hn; reflexivity|exact Hleaf].
      rewrite (holds_text_only_not_template _ Hto) in Hx. destruct Hx.
  - destruct (if eqs name (lit "#text") && compressWhitespace cfg
              then compress_text p (default val ov) else Some (default val ov))
      as [val'|]; [|discriminate].
    pose proof (visit_children_comments kids IHk name (length kids) 0 text st1) as Hk.
    destruct (visit_children _ name (length kids) 0 text kids st1)
      as [e st2|kids' st2] eqn:E1; [discriminate|].
    specialize (Hk kids' st2 Hsk eq_refl).
    destruct (eqs name (lit "template")) eqn:Et.
    + pose proof (visit_children_comments tmpl IHt (lit "#document-fragment")
                    (length tmpl) 0 None st2) as Ht.
      pose proof (visit_children_keeps (lit "#document-fragment") (length tmpl) 0 None
                                       tmpl st2) as Hkeep.
      destruct (visit_children _ (lit "#document-fragment") (length tmpl) 0 None tmpl st2)
        as [e st3|tmpl' st3] eqn:E2; [discriminate|].
      specialize (Ht tmpl' st3 Hst eq_refl). cbn [state_of] in Hkeep.
      intros E. injection E as <- <-. intros x Hx.
      rewrite findNodes_unfold in Hx. unfold is_comment at 1 in Hx.
      cbn [nodeName childNodes content] in Hx. rewrite Ec, Et in Hx. cbn [app] in Hx.
      apply in_app_or in Hx as [Hx|Hx]; [|exact (Ht x Hx)].
      destruct (Hk x Hx) as (m & Hm & Hv). exists m.
      split; [apply Hkeep; exact Hm|exact Hv].
    + intros E. injection E as <- <-. intros x Hx.
      rewrite findNodes_unfold in Hx. unfold is_comment at 1 in Hx.
      cbn [nodeName childNodes content] in Hx. rewrite Ec, Et in Hx.
      cbn [app] in Hx. rewrite app_nil_r in Hx. exact (Hk x Hx).
Qed.

End CommentsLeft.

(** X21. When comments are removed (the default), the only comments in
    the tree that [traverse] returns for a parsed document are the tokens
    it wrote: every comment left is the placeholder of a record of
    [inlineModules], with nothing below it. *)
Theorem comments_left_are_placeholders `{Host}
        (cfg : config) (absolutePath doc_src : jstr)
        (p : option pctx) (n r : node) (st st' : xstate) :
  removeComments cfg = true ->
  parsed_shape n = true ->
  traverse cfg absolutePath doc_src p n st = Ret (Some r) st' ->
  forall x,
    within r x -> nodeName x = lit "#comment" ->
    exists m, List.In m (inlineModules st')
              /\ x = comment_node (placeholder m).
Proof.
  intros Hr Hs E x Hw Hn.
  apply (traverse_ov_comments cfg absolutePath doc_src Hr n p None st r st' Hs E).
  apply findNodes_complete; [exact Hw|]. unfold is_comment. rewrite Hn. reflexivity.
Qed.

Lemma comments_left_are_placeholders_witness :
  exists m,
    List.In m [{| virtualId := Demo.ID0; code := lit "a()";
                  placeholder := placeholder_of Demo.ID0 |}]
    /\ comment_node (placeholder_of Demo.ID0) = comment_node (placeholder m).
Proof.
  apply (comments_left_are_placeholders
           (H := Demo.sub_page) (make_config no_options)
           (lit "/work/sub/page.html") (lit "sub/page.html") None
           (element (lit "head") []
                    [comment_node (lit "note");
                     Demo.script [("type", "module")]%string "a()"])
           (element (lit "head") [] [comment_node (placeholder_of Demo.ID0)])
           {| rollupHtml := []; inlineModules := []; xlog := [] |}
           {| rollupHtml := [Demo.ID0];
              inlineModules := [{| virtualId := Demo.ID0; code := lit "a()";
                                   placeholder := placeholder_of Demo.ID0 |}];
              xlog := [] |}).
  - reflexivity.
  - reflexivity.
  - vm_compute. reflexivity.
  - apply (within_child _ (comment_node (placeholder_of Demo.ID0)));
      [left; reflexivity|apply within_self].
  - reflexivity.
Defined.

(** ** Scripts with a [src] in stored documents *)

Section NoSrcScript.
Context `{Host}.
Variable cfg : config.
Variable absolutePath doc_src : jstr.

Local Abbreviation returns_no_src n :=
  (forall p ov st r st',
      parsed_shape n = true ->
      traverse_ov cfg absolutePath doc_src p ov n st = Ret (Some r) st' ->
      findNodes is_src_script r = []).

Lemma visit_children_no_src (kids : list node) :
  Forall (fun c => returns_no_src c) kids ->
  forall pname len i ov st kids' st',
    forallb parsed_shape kids = true ->
    visit_children (traverse_ov cfg absolutePath doc_src) pname len i ov kids st
    = Ret kids' st' ->
    flat_map (findNodes is_src_script) kids' = [].
Proof.
  induction 1 as [|c kids Hc _ IH]; intros pname len i ov st kids' st' Hs;
    cbn [visit_children].
  - intros E. injection E as <- <-. reflexivity.
  - cbn [forallb] in Hs. apply andb_true_iff in Hs as [Hs1 Hs2].
    destruct (traverse_ov cfg absolutePath doc_src _ ov c st) as [e st1|r st1] eqn:E1;
      [discriminate|].
    destruct (visit_children _ pname len (S i) None kids st1) as [e st2|rs st2] eqn:E2;
      [discriminate|].
    intros E. injection E as <- <-.
    pose proof (IH _ _ _ _ _ _ _ Hs2 E2) as Hrest.
    destruct r as [c'|]; [|exact Hrest].
    cbn [flat_map]. rewrite Hrest, (Hc _ _ _ _ _ Hs1 E1). reflexivity.
Qed.

Lemma text_is_no_src_script (c : node) :
  nodeName c = lit "#text" -> is_src_script c = false.
Proof. intros E. unfold is_src_script. rewrite E. reflexivity. Qed.

Lemma traverse_ov_no_src (n : node) : returns_no_src n.
Proof.
  induction n as [name tag ats ns val kids tmpl IHk IHt] using node_induction.
  intros p ov st r st' Hshape. cbn [parsed_shape] in Hshape.
  apply andb_true_iff in Hshape as [Hshape Hst].
  apply andb_true_iff in Hshape as [Hleaf Hsk].
  assert (Hself : forall v,
             holds_text_only name = true ->
             is_src_script (Node name tag ats ns v kids tmpl) = false ->
             findNodes is_src_script (Node name tag ats ns v kids tmpl) = []).
  { intros v Hto Hroot. rewrite findNodes_skipped.
    - rewrite Hroot. reflexivity.
    - exact Hto.
    - cbn [childNodes]. rewrite Hto in Hleaf. exact Hleaf.
    - exact text_is_no_src_script. }
  rewrite traverse_ov_unfold. unfold set_value.
  cbn [nodeName tagName attrs namespaceURI value childNodes content]. cbv zeta.
  destruct (eqs name (lit "#comment")) eqn:Ec.
  - destruct (removeComments cfg); [discriminate|].
    intros E. injection E as <- <-. apply eqs_spec in Ec. subst name.
    apply Hself; reflexivity.
  - destruct (if eqs name (lit "style") && is_not_false (lightningcss_minify cfg)
              then style_step absolutePath doc_src _ st else StyleKept None st)
      as [|text st1]; [discriminate|].
    destruct (eqs name (lit "script")) eqn:En.
    + unfold script_step. cbn [attrs].
      destruct (truthy_str (attr_find (lit "src") ats)) eqn:Es; [discriminate|].
      cbn [negb andb]. destruct (is_empty (trim _)); [discriminate|].
      destruct (is_str (lit "module") (attr_find (lit "type") ats)); cbn [andb].
      * intros E. injection E as <- <-. reflexivity.
      * intros E. injection E as <- <-. apply Hself.
        -- apply eqs_spec in En. subst name. reflexivity.
        -- unfold is_src_script. cbn [nodeName attrs]. rewrite Es.
           apply andb_false_r.
    + destruct (if eqs name (lit "#text") && compressWhitespace cfg
                then compress_text p (default val ov) else Some (default val ov))
        as [val'|]; [|discriminate].
      pose proof (visit_children_no_src kids IHk name (length kids) 0 text st1) as Hk.
      destruct (visit_children _ name (length kids) 0 text kids st1)
        as [e st2|kids' st2] eqn:E1; [discriminate|].
      specialize (Hk kids' st2 Hsk eq_refl).
      destruct (eqs name (lit "template")) eqn:Et.
      * pose proof (visit_children_no_src tmpl IHt (lit "#document-fragment")
                      (length tmpl) 0 None st2) as Ht.
        destruct (visit_children _ (lit "#document-fragment") (length tmpl) 0 None
                                 tmpl st2) as [e st3|tmpl' st3] eqn:E2; [discriminate|].
        specialize (Ht tmpl' st3 Hst eq_refl).
        intros E. injection E as <- <-.
        rewrite findNodes_unfold. unfold is_src_script at 1.
        cbn [nodeName childNodes content]. rewrite En, Et, Hk, Ht. reflexivity.
      * intros E. injection E as <- <-.
        rewrite findNodes_unfold. unfold is_src_script at 1.
        cbn [nodeName childNodes content]. rewrite En, Et, Hk. reflexivity.
Qed.

End NoSrcScript.

(** X22. No document that the [options] hook stored holds a script with a
    [src], when the parser builds scripts, styles and comments that hold
    text only: [traverse] raises on such a script, so the document is not
    stored.  Hence, in [generateBundle], every node to replace of a
    stored document is a placeholder comment, and the branch for the
    module scripts with a local [src] is never taken. *)
Theorem stored_documents_hold_no_src_script `{Host}
        (cfg : config) (input : rollup_input) (abs : jstr) (data : doc_record)
        (x : node) :
  (forall path ast, read_and_parse path = Returned ast -> parsed_shape ast = true) ->
  List.In (abs, data) (htmlData (snd (fst (options cfg input)))) ->
  within (d_ast data) x ->
  (nodeName x = lit "script" ->
   attr_find (lit "src") (attrs x) = None
   \/ attr_find (lit "src") (attrs x) = Some [])
  /\ (is_reference x = true ->
      nodeName x = lit "#comment"
      /\ startsWith PLACEHOLDER_PREFIX (value x) = true).
Proof.
  intros Hparse Hd Hw.
  destruct (options_kept cfg input) as (done & rest & st & _ & (_ & _ & Hs) & Ed).
  rewrite <- Ed in Hd.
  destruct (Hs abs data Hd)
    as (_ & (_ & _ & _ & ast0 & rollup & log & st' & Hr & Ht & _) & _).
  pose proof (traverse_ov_no_src cfg abs (d_src data) ast0 _ _ _ _ _
                                 (Hparse _ _ Hr) Ht) as Hnone.
  assert (Hx : is_src_script x = false).
  { destruct (is_src_script x) eqn:E; [|reflexivity].
    pose proof (findNodes_complete is_src_script _ x Hw E) as Hin.
    rewrite Hnone in Hin. destruct Hin. }
  split.
  - intros Hn. unfold is_src_script in Hx. rewrite Hn in Hx.
    change (eqs (lit "script") (lit "script")) with true in Hx. cbn [andb] in Hx.
    destruct (attr_find (lit "src") (attrs x)) as [[|c s]|];
      [right; reflexivity|discriminate Hx|left; reflexivity].
  - intros Href. unfold is_reference in Href.
    apply orb_true_iff in Href as [Href|Href].
    + apply andb_true_iff in Href as [E1 E2]. apply eqs_spec in E1.
      split; assumption.
    + exfalso. apply andb_true_iff in Href as [Href _].
      apply andb_true_iff in Href as [Href Hsrc].
      apply andb_true_iff in Href as [Hn _].
      unfold is_src_script in Hx. rewrite Hn, Hsrc in Hx. discriminate Hx.
Qed.

Lemma stored_documents_hold_no_src_script_witness :
  nodeName (comment_node (placeholder_of Demo.ID0)) = lit "#comment"
  /\ startsWith PLACEHOLDER_PREFIX (value (comment_node (placeholder_of Demo.ID0)))
     = true.
Proof.
  refine (proj2 (stored_documents_hold_no_src_script
                   (H := Demo.sub_page) (make_config no_options)
                   (InString (lit "sub/page.html"))
                   (lit "/work/sub/page.html") Demo.sub_record
                   (comment_node (placeholder_of Demo.ID0)) _ _ _) _).
  - intros path ast. cbn [read_and_parse Demo.sub_page Demo.host table_host obj_get].
    destruct (eqs (lit "/work/sub/page.html") path); [|discriminate].
    intros E. injection E as <-. reflexivity.
  - vm_compute. left. reflexivity.
  - apply (within_child _ (element (lit "html") []
                             [element (lit "head") []
                                      [comment_node (placeholder_of Demo.ID0)];
                              element (lit "body") [] [text_node (lit "P")]]));
      [left; reflexivity|].
    apply (within_child _ (element (lit "head") []
                                   [comment_node (placeholder_of Demo.ID0)]));
      [left; reflexivity|].
    apply (within_child _ (comment_node (placeholder_of Demo.ID0)));
      [left; reflexivity|apply within_self].
  - reflexivity.
Defined.

(** ** The loop over the nodes to replace *)

Section RewriteOrder.
Context `{Host}.
Variable cfg : config.
Variable ps : plugin_state.
Variable outputDir : jstr.
Variable bundle : list bundle_item.
Variable absolutePath : jstr.
Variable data : doc_record.

Local Abbreviation rewrite := (rewrite_node cfg ps outputDir bundle absolutePath data).
Local Abbreviation says :=
  (reference_warnings cfg ps outputDir bundle absolutePath data).




End RewriteOrder.



(** ** The advice of the collision message *)

Lemma NoDup_map_on {A B : Type} (g : A -> B) (l : list A) :
  List.NoDup l ->
  (forall a b, List.In a l -> List.In b l -> g a = g b -> a = b) ->
  List.NoDup (List.map g l).
Proof.
  induction 1 as [|x l Hx Hn IH]; intros Hg; [constructor|].
  cbn [List.map]. constructor.
  - intros Hin. apply in_map_iff in Hin as [y [Ey Hy]]. apply Hx.
    rewrite <- (Hg y x (or_intror Hy) (or_introl eq_refl) Ey). exact Hy.
  - apply IH. intros a b Ha Hb. apply Hg; right; assumption.
Qed.

Lemma normalize_input_NoDup (input : rollup_input) :
  List.NoDup (List.map fst (fst (fst (normalize_input input)))).
Proof.
  destruct input as [s|l|o|v]; cbn [normalize_input fst].
  - constructor; [intros []|constructor].
  - assert (G : forall acc : list (jstr * jsval),
               List.NoDup (List.map fst acc) ->
               List.NoDup (List.map fst
                 (fold_left (fun acc entry =>
                               match entry with
                               | JStr e => obj_set e (JStr e) acc
                               | _ => acc
                               end) l acc))).
    { induction l as [|x l IH]; intros acc Ha; [exact Ha|].
      cbn [fold_left]. apply IH. destruct x; try exact Ha.
      apply obj_set_NoDup. exact Ha. }
    apply G. constructor.
  - apply obj_spread_NoDup.
  - destruct (truthy v); constructor.
Qed.

Section Advice.
Context `{Host}.
Variable cfg : config.
Variable input : rollup_input.

Local Abbreviation ps := (snd (fst (options cfg input))).
Local Abbreviation normalized := (fst (fst (normalize_input input))).

(** A stored record, as far as the names are concerned. *)
Lemma stored_entry (abs : jstr) (data : doc_record) :
  List.In (abs, data) (htmlData ps) ->
  abs = path_resolve [d_src data]
  /\ List.In (d_dest data, JStr (d_src data)) normalized.
Proof.
  intros Hd.
  destruct (options_kept cfg input) as (done & rest & st & Eh & (_ & _ & Hs) & Ed).
  rewrite <- Ed in Hd.
  destruct (Hs abs data Hd) as (_ & (Ha & (pre & post & Hdone & _) & _) & _).
  split; [exact Ha|].
  assert (Hin : List.In (d_dest data, d_src data) (fst (split_html normalized))).
  { rewrite Eh, Hdone. apply in_or_app. left. apply in_or_app. right. left.
    reflexivity. }
  apply split_html_In in Hin as [Hin _]. exact Hin.
Qed.

Lemma stored_NoDup : List.NoDup (htmlData ps).
Proof.
  destruct (options_kept cfg input) as (done & rest & st & _ & (Hn & _) & Ed).
  rewrite <- Ed. apply (NoDup_map_inv fst). exact Hn.
Qed.

Lemma stored_keys_NoDup : List.NoDup (List.map fst (htmlData ps)).
Proof.
  destruct (options_kept cfg input) as (done & rest & st & _ & (Hn & _) & Ed).
  rewrite <- Ed. exact Hn.
Qed.

Lemma same_src_same_record (a b : jstr * doc_record) :
  List.In a (htmlData ps) -> List.In b (htmlData ps) ->
  d_src (snd a) = d_src (snd b) -> a = b.
Proof.
  intros Ha Hb E. apply (NoDup_keys_unique _ a b stored_keys_NoDup Ha Hb).
  destruct a as [abs1 d1], b as [abs2 d2]. cbn [fst snd] in *.
  destruct (stored_entry _ _ Ha) as [E1 _], (stored_entry _ _ Hb) as [E2 _].
  rewrite E1, E2, E. reflexivity.
Qed.

Lemma same_dest_same_record (a b : jstr * doc_record) :
  List.In a (htmlData ps) -> List.In b (htmlData ps) ->
  d_dest (snd a) = d_dest (snd b) -> a = b.
Proof.
  intros Ha Hb E. apply same_src_same_record; [exact Ha|exact Hb|].
  destruct a as [abs1 d1], b as [abs2 d2]. cbn [fst snd] in *.
  destruct (stored_entry _ _ Ha) as [_ H1], (stored_entry _ _ Hb) as [_ H2].
  pose proof (NoDup_keys_unique _ _ _ (normalize_input_NoDup input) H1 H2 E) as Hp.
  injection Hp as _ Hs. exact Hs.
Qed.

End Advice.

(** X24. The advice of the collision message holds.  With an input
    object whose keys do not start with a slash, and with
    [preserveStructure: true] for an input string or array of relative
    paths, no two stored documents have the same output name: when the
    output directory is known, [generateBundle] emits every stored
    document, reports no error and does not raise. *)
Theorem unique_keys_or_structure_prevent_collisions `{Host}
        (cfg : config) (input : rollup_input) (oo : output_options)
        (bundle : list bundle_item) :
  truthy_str (output_dir oo) = true ->
  match input with
  | InObject o => forall k v, List.In (k, v) o -> startsWith (lit "/") k = false
  | _ =>
      preserveStructure cfg = true
      /\ forall k s, List.In (k, JStr s) (fst (fst (normalize_input input))) ->
                     path_isAbsolute s = false
  end ->
  let ps := snd (fst (options cfg input)) in
  let result := generateBundle cfg ps oo bundle in
  List.NoDup (List.map (document_name cfg ps) (htmlData ps))
  /\ fst result = None
  /\ emitted_files (snd result)
     = List.map (document_file cfg ps (to_template (output_dir oo)) bundle)
                (htmlData ps)
  /\ Forall (fun e => is_error_event e = false) (snd result).
Proof.
  intros Ed Hin ps result.
  assert (Hn : List.NoDup (List.map (document_name cfg ps) (htmlData ps))).
  { apply NoDup_map_on; [apply stored_NoDup|].
    intros [abs1 d1] [abs2 d2] Ha Hb. unfold document_name, output_name.
    cbn [fst snd].
    pose proof (options_isWithDest cfg input) as Hw. fold ps in Hw. rewrite Hw.
    destruct (stored_entry cfg input _ _ Ha) as [_ Ia].
    destruct (stored_entry cfg input _ _ Hb) as [_ Ib].
    pose proof (same_src_same_record cfg input _ _ Ha Hb) as Hsrc.
    pose proof (same_dest_same_record cfg input _ _ Ha Hb) as Hdest.
    cbn [fst snd] in Hsrc, Hdest.
    destruct input as [s|l|o|v].
    - destruct Hin as [Hp Hrel]. rewrite Hp, (Hrel _ _ Ia), (Hrel _ _ Ib).
      exact Hsrc.
    - destruct Hin as [Hp Hrel]. rewrite Hp, (Hrel _ _ Ia), (Hrel _ _ Ib).
      exact Hsrc.
    - cbn [normalize_input fst] in Ia, Ib.
      apply fold_obj_set_In in Ia as [[]|Ia]. apply fold_obj_set_In in Ib as [[]|Ib].
      rewrite (Hin _ _ Ia), (Hin _ _ Ib). exact Hdest.
    - destruct Hin as [Hp Hrel]. rewrite Hp, (Hrel _ _ Ia), (Hrel _ _ Ib).
      exact Hsrc. }
  split; [exact Hn|].
  unfold result, generateBundle. rewrite Ed.
  destruct (emit_all_trace cfg ps (to_template (output_dir oo)) bundle (htmlData ps)
              {| emitted := []; glog := [] |})
    as (sel & more & _ & Hl & He & _ & _ & Hd).
  destruct (Hd Hn) as (Hsel & [st' Ew] & Hne). subst sel.
  rewrite Ew in Hl |- *. cbn [gstate_of glog app fst snd] in Hl |- *.
  rewrite Hl. split; [reflexivity|]. split; [exact He|exact Hne].
Qed.

Lemma unique_keys_or_structure_prevent_collisions_witness :
  fst (generateBundle (H := Demo.two_indexes) (make_config Demo.keep_structure)
         (snd (fst (options (H := Demo.two_indexes) (make_config Demo.keep_structure)
                            (InArray [JStr (lit "a/index.html");
                                      JStr (lit "b/index.html")]))))
         Demo.to_dist [])
  = None.
Proof.
  refine (proj1 (proj2 (unique_keys_or_structure_prevent_collisions
                          (H := Demo.two_indexes) (make_config Demo.keep_structure)
                          (InArray [JStr (lit "a/index.html");
                                    JStr (lit "b/index.html")])
                          Demo.to_dist [] _ _))).
  - reflexivity.
  - split; [reflexivity|].
    intros k s Hin. vm_compute in Hin.
    destruct Hin as [Hin|[Hin|[]]]; injection Hin as _ <-; reflexivity.
Defined.
